(** * Confidential Computing Lab: KMS mock, simulated enclave, SEV VM model

    A shallow embedding of the cryptographic and state-machine core of the
    repository:

    - [server/security/kms_mock.py]       (module [KMSMock])
    - [server/simulation/enclave_runtime.py] (modules [MemoryPage], [SimulatedEnclave], [EnclaveRegistry])
    - [sev/encrypted_memory.py], [sev/vm_model.py], [sev/launch_flow.py]
      (modules [EncryptedMemory], [SimulatedVM], [SevLaunchManager])
    - [server/workloads/workloads.py]     (module [Workloads])
    - [server/routes/sev.py], [server/routes/enclave.py]
      (modules [SevRoutes], [EnclaveRoutes]), the route functions on
      validated requests

    Python objects are records, dictionaries are [gmap]s, methods take the
    object (and the process-wide [kms_singleton]) and return the result
    together with the updated object.  A raised exception is an outcome of
    its own; what a method mutated before it raised stays mutated.

    The Python standard library ([hashlib], [hmac], [base64], [json]) is not
    part of the repository: it enters through the classes [Hashlib],
    [Base64] and [Json], which fix the signatures and the few facts about
    them that the code relies on.  Random draws ([os.urandom],
    [secrets.token_hex]) are explicit arguments. *)

From Stdlib Require Import ZArith NArith Lia Strings.String Strings.Byte Strings.Ascii.
From stdpp Require Import base option list gmap strings sorting pretty.
From Equations Require Import Equations.

Local Open Scope string_scope.

(** ** Byte strings and text *)

(** A Python [bytes] object. *)
Abbreviation bytes := (list byte).

#[global] Instance byte_eq_decision : EqDecision byte := Byte.byte_eq_dec.

(** A Python [str] is held as its UTF-8 encoding, so [s.encode("utf-8")] is
    the list of the bytes of [s].  A [str] with a lone surrogate has no
    UTF-8 encoding and [s.encode("utf-8")] raises on it: [encode_utf8] is
    the method on the other strings only, which are the strings the
    enclave, the KMS and the VM model are given below. *)
Definition encode_utf8 (s : string) : bytes := list_byte_of_string s.

(** A [str] with a lone surrogate, which the JSON text of a request can
    carry, is held with the three bytes ED A0..BF xx in the surrogate's
    place (what the error handler "surrogatepass" writes).  No UTF-8
    encoding has a byte above 9F after the byte ED. *)
Definition surrogate_at (c : ascii) (s : string) : bool :=
  bool_decide (c = "237"%char)
  && match s with
     | String d _ => (160 <=? N_of_ascii d)%N && (N_of_ascii d <=? 191)%N
     | EmptyString => false
     end.

Fixpoint has_surrogate (s : string) : bool :=
  match s with
  | EmptyString => false
  | String c s' => surrogate_at c s' || has_surrogate s'
  end.

Definition byte_of_N (n : N) : byte := default "000"%byte (Byte.of_N n).

(** [p ^ k] on two byte values. *)
Definition byte_xor (p k : byte) : byte :=
  byte_of_N (N.lxor (Byte.to_N p) (Byte.to_N k)).

(** [bytes(p ^ k for p, k in zip(ps, ks))] *)
Definition xor_bytes (ps ks : bytes) : bytes := zip_with byte_xor ps ks.

Definition hex_digit (n : N) : ascii :=
  if (n <? 10)%N then ascii_of_N (48 + n) else ascii_of_N (87 + n).

(** [bytes.hex()] : two lower-case hexadecimal digits per byte. *)
Fixpoint hex (bs : bytes) : string :=
  match bs with
  | [] => ""
  | b :: bs' =>
      String (hex_digit (Byte.to_N b / 16))
        (String (hex_digit (Byte.to_N b mod 16)) (hex bs'))
  end.

(** ** Exceptions and outcomes *)

Inductive exn : Type :=
  | ValueError (msg : string)
  | KeyError (msg : string)
  | RuntimeError (msg : string)
  | AttributeError (msg : string)
  | OverflowError (msg : string)
  | TypeError (msg : string).

Inductive outcome (A : Type) : Type :=
  | Ok (a : A)
  | Raise (e : exn).
Arguments Ok {A} a.
Arguments Raise {A} e.

Definition outcome_bind {A B} (f : A -> outcome B) (m : outcome A) : outcome B :=
  match m with
  | Ok a => f a
  | Raise e => Raise e
  end.

#[global] Instance outcome_mbind : MBind outcome := @outcome_bind.
#[global] Instance outcome_mret : MRet outcome := @Ok.
#[global] Instance outcome_fmap : FMap outcome :=
  fun A B f m => match m with Ok a => Ok (f a) | Raise e => Raise e end.

Definition is_ok {A} (m : outcome A) : bool :=
  match m with Ok _ => true | Raise _ => false end.

(** The spec's error kinds, as the exceptions the code raises for them. *)
Definition MalformedToken : exn := ValueError "Token was not valid base64".
Definition IntegrityError : exn := ValueError "Ciphertext integrity check failed".
Definition PageIntegrityError : exn := ValueError "Integrity check failed for page".
Definition NoSealedData : exn := KeyError "No sealed data for identity".
Definition PageNotFound : exn := KeyError "Page missing".
Definition VmNotFound : exn := KeyError "VM not found".
Definition InvalidState : exn := RuntimeError "Enclave not initialized".
Definition UnknownOperation (name : string) : exn :=
  AttributeError ("Unknown ECALL: " ++ name).

(** The [ValueError] that [bytes.decode] or [json.loads] raises on bytes
    that are no JSON text; its message depends on the input and is not
    modelled. *)
Definition JsonError : exn := ValueError "JSON decoding failed".

(** The [UnicodeEncodeError], a [ValueError], that [str.encode] raises on a
    lone surrogate; its message names the character and its position, and
    is not modelled. *)
Definition UnicodeEncodeError : exn := ValueError "surrogates not allowed".

(** The [ValueError] that [str] raises for an [int] of more digits than the
    interpreter converts. *)
Definition DigitLimitError : exn :=
  ValueError
    "Exceeds the limit (4300 digits) for integer string conversion; use sys.set_int_max_str_digits() to increase the limit".

(** ** The standard library the code calls *)

(** [hashlib.sha256(m).digest()], [hmac.new(k, m, hashlib.sha256).digest()]
    and [hashlib.pbkdf2_hmac("sha256", password, salt, iterations, dklen)].
    A SHA-256 digest and an HMAC-SHA-256 tag are 32 bytes long. *)
Class Hashlib := {
  sha256 : bytes -> bytes;
  hmac_sha256 : bytes -> bytes -> bytes;
  pbkdf2_hmac_sha256 : bytes -> bytes -> N -> nat -> bytes;
  sha256_length : forall m, length (sha256 m) = 32;
  hmac_sha256_length : forall k m, length (hmac_sha256 k m) = 32
}.

(** [base64.urlsafe_b64encode(b).decode("ascii")] and
    [base64.urlsafe_b64decode(s.encode("ascii"))]; the decoder answers [None]
    where Python raises [binascii.Error] or [ValueError] (a non-ASCII
    token included).  Decoding an encoding gives the bytes back. *)
Class Base64 := {
  urlsafe_b64encode : bytes -> string;
  urlsafe_b64decode : string -> option bytes;
  urlsafe_b64decode_encode : forall b, urlsafe_b64decode (urlsafe_b64encode b) = Some b
}.

(** JSON data, [json.dumps(d, separators=(",", ":")).encode("utf-8")] and
    [json.loads(b.decode("utf-8"))]; the parser answers [None] where Python
    raises ([UnicodeDecodeError], [JSONDecodeError], both [ValueError]s).
    The carrier is the data [json.loads] can return (dictionaries with
    string keys, lists, strings, numbers, booleans, [None]): parsing the
    serialisation of such data gives it back.  Python values that serialise
    but come back changed (tuples, dictionaries with other keys) are not in
    the carrier. *)
Class Json := {
  json : Type;
  json_dumps : json -> bytes;
  json_loads : bytes -> option json;
  json_loads_dumps : forall d, json_loads (json_dumps d) = Some d
}.

(** ** server/security/kms_mock.py *)

Module KMSMock.

(** [counter.to_bytes(4, "big")] *)
Definition to_bytes4 (counter : N) : outcome bytes :=
  if (counter <? 2 ^ 32)%N then
    Ok [ byte_of_N (counter / 2 ^ 24);
         byte_of_N ((counter / 2 ^ 16) mod 256);
         byte_of_N ((counter / 2 ^ 8) mod 256);
         byte_of_N (counter mod 256) ]
  else Raise (OverflowError "int too big to convert").

(** [hmac.compare_digest(a, b)] *)
Definition compare_digest (a b : bytes) : bool := bool_decide (a = b).

Record t := mk {
  _master_secret : bytes;
  _cache : gmap string bytes
}.

Section WithLibrary.
Context `{Hashlib} `{Base64}.

(** [KMSMock.__init__]; [rnd] is the [os.urandom(32)] draw.  An absent or
    empty [master_secret] is falsy, so the random secret is used. *)
Definition __init__ (master_secret : option bytes) (rnd : bytes) : t :=
  {| _master_secret :=
       match master_secret with
       | Some (b :: s) => b :: s
       | _ => sha256 rnd
       end;
     _cache := ∅ |}.

Definition derive_key (self : t) (identity context : string)
  : bytes * t :=
  let cache_key := identity ++ ":" ++ context in
  match _cache self !! cache_key with
  | Some k => (k, self)
  | None =>
      let salt := sha256 (encode_utf8 context) in
      let key := pbkdf2_hmac_sha256 (encode_utf8 identity) salt 200000 32 in
      let wrapped := hmac_sha256 (_master_secret self) key in
      (wrapped,
       {| _master_secret := _master_secret self;
          _cache := <[cache_key := wrapped]> (_cache self) |})
  end.

(** The [while len(stream) < length] loop of [_expand_keystream].  It
    terminates because every digest appended is 32 bytes long. *)
Equations? expand_loop (material : bytes) (len : nat) (stream : bytes) (counter : N)
  : outcome bytes by wf (len - length stream) lt :=
expand_loop material len stream counter with decide (length stream < len) := {
  | right _ => Ok stream
  | left _ with to_bytes4 counter := {
      | Raise e => Raise e
      | Ok cb =>
          expand_loop material len (stream ++ sha256 (material ++ cb)) (counter + 1) } }.
Proof. rewrite length_app, sha256_length. lia. Qed.

Definition _expand_keystream (key iv : bytes) (len : nat) : outcome bytes :=
  stream ← expand_loop (key ++ iv) len [] 0%N;
  Ok (take len stream).

(** [encrypt]; [iv] is the [os.urandom(16)] draw. *)
Definition encrypt (key plaintext iv : bytes) : outcome string :=
  keystream ← _expand_keystream key iv (length plaintext);
  let ciphertext := xor_bytes plaintext keystream in
  let mac := hmac_sha256 key (iv ++ ciphertext) in
  Ok (urlsafe_b64encode (iv ++ ciphertext ++ mac)).

Definition decrypt (key : bytes) (token : string) : outcome bytes :=
  match urlsafe_b64decode token with
  | None => Raise MalformedToken
  | Some data =>
      let iv := take 16 data in
      let rest := drop 16 data in
      let ciphertext := take (length rest - 32) rest in
      let mac := drop (length rest - 32) rest in
      let candidate := hmac_sha256 key (iv ++ ciphertext) in
      if negb (compare_digest candidate mac) then Raise IntegrityError
      else
        keystream ← _expand_keystream key iv (length ciphertext);
        Ok (xor_bytes ciphertext keystream)
  end.

End WithLibrary.
End KMSMock.

(** ** server/simulation/enclave_runtime.py *)

Module MemoryPage.

Record t := mk {
  address : N;
  size : nat;
  data : bytes
}.

Definition write (self : t) (content : bytes) : outcome unit * t :=
  if decide (size self < length content) then
    (Raise (ValueError "Page overflow detected"), self)
  else
    (Ok (), {| address := address self; size := size self; data := content |}).

Definition read (self : t) : bytes := data self.

End MemoryPage.

Module AttestationReport.

Record t := mk {
  mrenclave : string;
  signer : string;
  nonce : string;
  policy_version : string
}.

End AttestationReport.

Module SimulatedEnclave.

Record t := mk {
  name : string;
  signer : string;
  pages : list MemoryPage.t;
  loaded : bool;
  mrenclave : string;
  sealed_store : gmap string string
}.

Definition set_sealed_store (self : t) (store : gmap string string) : t :=
  {| name := name self; signer := signer self; pages := pages self;
     loaded := loaded self; mrenclave := mrenclave self; sealed_store := store |}.

(** [SimulatedEnclave(name, signer)]; [signer] defaults to ["lab"]. *)
Definition __init__ (name signer : string) : t :=
  {| name := name; signer := signer; pages := []; loaded := false;
     mrenclave := ""; sealed_store := ∅ |}.

(** The [for seg in segments] check of [load].  A segment is a [bytes]
    object here, so of the test [not isinstance(seg, (bytes, bytearray)) or
    len(seg) == 0] the length is what remains. *)
Fixpoint check_segments (segments : list bytes) : outcome unit :=
  match segments with
  | [] => Ok ()
  | seg :: rest =>
      if decide (length seg = 0) then
        Raise (ValueError "Segments must be non-empty bytes-like objects")
      else check_segments rest
  end.

(** [[MemoryPage(address=i * 0x1000, size=len(seg), data=bytes(seg))
      for i, seg in enumerate(segments)]] *)
Definition layout (segments : list bytes) : list MemoryPage.t :=
  imap (fun i seg =>
          {| MemoryPage.address := N.of_nat i * 4096;
             MemoryPage.size := length seg;
             MemoryPage.data := seg |}) segments.

Section WithLibrary.
Context `{Hashlib} `{Base64} `{Json}.

(** A [hashlib.sha256()] object is the bytes fed to it so far: [update]
    appends, [hexdigest] hashes the lot. *)
Definition _measure (self : t) (pages : list MemoryPage.t) : string :=
  let hasher : bytes := [] in
  let hasher := foldl (fun h page => h ++ MemoryPage.data page)%list hasher pages in
  let hasher := (hasher ++ encode_utf8 (name self))%list in
  let hasher := (hasher ++ encode_utf8 (signer self))%list in
  hex (sha256 hasher).

Definition load (self : t) (segments : list bytes) : outcome string * t :=
  match segments with
  | [] =>
      (Raise (ValueError "At least one segment is required to load an enclave"), self)
  | _ =>
      match check_segments segments with
      | Raise e => (Raise e, self)
      | Ok _ =>
          let pages := layout segments in
          let m := _measure self pages in
          (Ok m,
           {| name := name self; signer := signer self; pages := pages;
              loaded := true; mrenclave := m; sealed_store := sealed_store self |})
      end
  end.

(** [enter]: the handler receives the enclave and the process-wide KMS and
    may change both. *)
Definition enter {A} (self : t) (kms : KMSMock.t)
    (handler : t -> KMSMock.t -> outcome A * t * KMSMock.t)
  : outcome A * t * KMSMock.t :=
  if negb (loaded self) then (Raise InvalidState, self, kms)
  else handler self kms.

(** [ocall] returns the dictionary [{"call": name, "echo": payload}]. *)
Definition ocall (self : t) (name : string) (payload : json) : string * json :=
  (name, payload).

(** [seal]; [iv] is the [os.urandom(16)] draw of [encrypt]. *)
Definition seal (self : t) (kms : KMSMock.t) (identity : string) (data : json)
    (iv : bytes) : outcome string * t * KMSMock.t :=
  if decide (identity = "") then
    (Raise (ValueError "identity is required"), self, kms)
  else
    let '(key, kms) := KMSMock.derive_key kms identity (mrenclave self) in
    let blob := json_dumps data in
    match KMSMock.encrypt key blob iv with
    | Raise e => (Raise e, self, kms)
    | Ok token =>
        (Ok token, set_sealed_store self (<[identity := token]> (sealed_store self)), kms)
    end.

Definition unseal (self : t) (kms : KMSMock.t) (identity : string)
  : outcome json * KMSMock.t :=
  match sealed_store self !! identity with
  | None => (Raise NoSealedData, kms)
  | Some token =>
      let '(key, kms) := KMSMock.derive_key kms identity (mrenclave self) in
      match KMSMock.decrypt key token with
      | Raise e => (Raise e, kms)
      | Ok data =>
          match json_loads data with
          | Some d => (Ok d, kms)
          | None => (Raise JsonError, kms)
          end
      end
  end.

(** [attest]; [rnd] is the 16-byte draw behind [secrets.token_hex(16)]. *)
Definition attest (self : t) (policy_version : string) (rnd : bytes)
  : AttestationReport.t :=
  let nonce := hex rnd in
  {| AttestationReport.mrenclave := mrenclave self;
     AttestationReport.signer := signer self;
     AttestationReport.nonce := nonce;
     AttestationReport.policy_version := policy_version |}.

(** *** [ecall]: dispatch by attribute lookup *)

(** The functions the class body defines. *)
Inductive method : Type :=
  | m___init__ | m_load | m__measure | m_enter | m_ecall | m_ocall
  | m_seal | m_unseal | m_attest.

(** The class namespace, [SimulatedEnclave.__dict__]. *)
Definition class_dict : list (string * method) :=
  [ ("__init__", m___init__); ("load", m_load); ("_measure", m__measure);
    ("enter", m_enter); ("ecall", m_ecall); ("ocall", m_ocall);
    ("seal", m_seal); ("unseal", m_unseal); ("attest", m_attest) ].

(** The instance namespace set up by [__init__]: strings, a list, a bool
    and a dict, none of them callable. *)
Definition instance_fields : list string :=
  [ "name"; "signer"; "pages"; "loaded"; "mrenclave"; "sealed_store" ].

Fixpoint assoc {A} (k : string) (l : list (string * A)) : option A :=
  match l with
  | [] => None
  | (k', v) :: l' => if decide (k = k') then Some v else assoc k l'
  end.

(** The values that cross the ECALL boundary. *)
#[local] Set Warnings "-register-all".
Inductive value : Type :=
  | VNone
  | VStr (s : string)
  | VSegments (segments : list bytes)
  | VPages (pages : list MemoryPage.t)
  | VJson (d : json)
  | VEcho (call : string) (echo : json)
  | VReport (r : AttestationReport.t)
  | VHandler (h : t -> KMSMock.t -> outcome value * t * KMSMock.t).

(** The attributes of the class that are no functions: its docstring and
    the name of its module, both of them texts. *)
Definition class_data : list string := [ "__doc__"; "__module__" ].

(** What the object has under a name that neither [__init__] nor the class
    body defines: [Some true] for a callable attribute (those inherited from
    [object], such as [__repr__], [__setattr__] or [__class__]),
    [Some false] for one that is not callable (such as [__dict__]), [None]
    when the object has no attribute of that name. *)
Variable inherited : string -> option bool.

(** The number of positional arguments a method takes besides [self]: the
    least, and the most ([None] when it takes any number). *)
Definition arity (m : method) : nat * option nat :=
  match m with
  | m___init__ => (1, Some 2)
  | m_load | m__measure | m_enter | m_unseal => (1, Some 1)
  | m_ecall => (1, None)
  | m_ocall | m_seal => (2, Some 2)
  | m_attest => (0, Some 1)
  end.

Definition takes (m : method) (n : nat) : bool :=
  bool_decide ((arity m).1 <= n)
  && match (arity m).2 with
     | Some most => bool_decide (n <= most)
     | None => true
     end.

(** The [TypeError] of a call whose arguments do not bind to the
    parameters; its message is not modelled. *)
Definition arguments_mismatch : exn := TypeError "arguments do not match the signature".

(** [ecall] with positional arguments: [getattr(self, name, None)], the
    callable test, then the call of the handler on the arguments, on an
    enclave object that has the attributes [__init__] gave it and no other
    of its own.  A number of arguments the handler does not take is a
    [TypeError], raised before its body runs.  Python runs the body on
    arguments of any type; this model follows it where each argument has
    the type its parameter is annotated with, and answers [None], which
    says nothing of the call, elsewhere and for the callables the object
    inherits.  [rnd] is the 16-byte random draw the handler makes, if it
    makes one. *)
Fixpoint ecall (self : t) (kms : KMSMock.t) (rnd : bytes) (name : string)
    (args : list value) {struct args} : option (outcome value * t * KMSMock.t) :=
  if decide (name ∈ (instance_fields ++ class_data)%list) then
    Some (Raise (UnknownOperation name), self, kms)
  else
    match assoc name class_dict with
    | Some m =>
        if negb (takes m (length args)) then Some (Raise arguments_mismatch, self, kms)
        else
          match m, args with
          | m___init__, [VStr n] => Some (Ok VNone, __init__ n "lab", kms)
          | m___init__, [VStr n; VStr s] => Some (Ok VNone, __init__ n s, kms)
          | m_load, [VSegments segments] =>
              let '(r, self) := load self segments in Some (VStr <$> r, self, kms)
          | m__measure, [VPages ps] => Some (Ok (VStr (_measure self ps)), self, kms)
          | m_enter, [VHandler h] => Some (enter self kms h)
          | m_ecall, VStr name' :: args' => ecall self kms rnd name' args'
          | m_ocall, [VStr n; VJson payload] =>
              let '(call, echo) := ocall self n payload in
              Some (Ok (VEcho call echo), self, kms)
          | m_seal, [VStr ident; VJson d] =>
              let '(r, self, kms) := seal self kms ident d rnd in
              Some (VStr <$> r, self, kms)
          | m_unseal, [VStr ident] =>
              let '(r, kms) := unseal self kms ident in Some (VJson <$> r, self, kms)
          | m_attest, [] => Some (Ok (VReport (attest self "v1" rnd)), self, kms)
          | m_attest, [VStr policy_version] =>
              Some (Ok (VReport (attest self policy_version rnd)), self, kms)
          | _, _ => None
          end
    | None =>
        match inherited name with
        | Some true => None
        | _ => Some (Raise (UnknownOperation name), self, kms)
        end
    end.

End WithLibrary.
End SimulatedEnclave.

Module EnclaveRegistry.

Record t := mk {
  _instances : gmap string SimulatedEnclave.t
}.

Definition __init__ : t := {| _instances := ∅ |}.

Section WithLibrary.
Context `{Hashlib}.

(** [get_or_create] hands out the enclave object the registry holds: what a
    caller then does to it (a [seal], say) is done to the registered
    enclave, so a caller of this model stores the changed enclave back
    under its name. *)
Definition get_or_create (self : t) (name : string)
  : outcome SimulatedEnclave.t * t :=
  match _instances self !! name with
  | Some enclave => (Ok enclave, self)
  | None =>
      let enclave := SimulatedEnclave.__init__ name "lab" in
      match SimulatedEnclave.load enclave [encode_utf8 "init"] with
      | (Raise e, _) => (Raise e, self)
      | (Ok _, enclave) =>
          (Ok enclave, {| _instances := <[name := enclave]> (_instances self) |})
      end
  end.

End WithLibrary.
End EnclaveRegistry.

(** ** sev/encrypted_memory.py *)

Module EncryptedPage.

Record t := mk {
  page_id : Z;
  ciphertext : string;
  mac : string
}.

End EncryptedPage.

Module EncryptedMemory.

Record t := mk {
  vm_id : string;
  pages : gmap Z EncryptedPage.t
}.

Section WithLibrary.
Context `{Hashlib} `{Base64}.

(** [kms_singleton.derive_key(identity=f"vm:{vm_id}", context=str(page_id))] *)
Definition _derive_page_key (kms : KMSMock.t) (vm_id : string) (page_id : Z)
  : bytes * KMSMock.t :=
  KMSMock.derive_key kms ("vm:" ++ vm_id) (pretty page_id).

Definition _mac (token : string) : string := hex (sha256 (encode_utf8 token)).

Definition _verify (token mac : string) : bool := bool_decide (_mac token = mac).

(** [write]; [iv] is the [os.urandom(16)] draw of [encrypt]. *)
Definition write (self : t) (kms : KMSMock.t) (page_id : Z) (data iv : bytes)
  : outcome EncryptedPage.t * t * KMSMock.t :=
  let '(key, kms) := _derive_page_key kms (vm_id self) page_id in
  match KMSMock.encrypt key data iv with
  | Raise e => (Raise e, self, kms)
  | Ok token =>
      let page :=
        {| EncryptedPage.page_id := page_id;
           EncryptedPage.ciphertext := token;
           EncryptedPage.mac := _mac token |} in
      (Ok page, {| vm_id := vm_id self; pages := <[page_id := page]> (pages self) |}, kms)
  end.

Definition read (self : t) (kms : KMSMock.t) (page_id : Z)
  : outcome bytes * KMSMock.t :=
  match pages self !! page_id with
  | None => (Raise PageNotFound, kms)
  | Some page =>
      let '(key, kms) := _derive_page_key kms (vm_id self) page_id in
      match KMSMock.decrypt key (EncryptedPage.ciphertext page) with
      | Raise e => (Raise e, kms)
      | Ok data =>
          if negb (_verify (EncryptedPage.ciphertext page) (EncryptedPage.mac page))
          then (Raise PageIntegrityError, kms)
          else (Ok data, kms)
      end
  end.

End WithLibrary.
End EncryptedMemory.

(** ** sev/vm_model.py *)

Module VcpuState.

Record t := mk {
  id : nat;
  registers : gmap string Z
}.

End VcpuState.

Module SimulatedVM.

Record t := mk {
  vm_id : string;
  owner : string;
  memory : EncryptedMemory.t;
  vcpus : list VcpuState.t;
  measurement : option string
}.

(** The dictionary [{"vm_id": ..., "nonce": ..., "measurement": ...}]. *)
Record report := mk_report {
  report_vm_id : string;
  report_nonce : string;
  report_measurement : option string
}.

Definition launch_vcpu (self : t) : VcpuState.t * t :=
  let vcpu :=
    {| VcpuState.id := length (vcpus self);
       VcpuState.registers := <["rip" := 0%Z]> (<["rsp" := 0%Z]> ∅) |} in
  (vcpu,
   {| vm_id := vm_id self; owner := owner self; memory := memory self;
      vcpus := vcpus self ++ [vcpu]; measurement := measurement self |}).

(** [sorted(self.memory.pages.items())]: the items in ascending order of
    their keys (the keys of a dictionary are distinct, so the pages
    themselves are never compared). *)
Definition key_le (a b : Z * EncryptedPage.t) : Prop := (a.1 <= b.1)%Z.

#[global] Instance key_le_dec a b : Decision (key_le a b) := decide (a.1 <= b.1)%Z.

Definition sorted_items (pages : gmap Z EncryptedPage.t) : list (Z * EncryptedPage.t) :=
  merge_sort key_le (map_to_list pages).

Section WithLibrary.
Context `{Hashlib} `{Base64}.

(** What the loop body of [measure] feeds to the hasher for one item. *)
Definition page_update (item : Z * EncryptedPage.t) : bytes :=
  (encode_utf8 (EncryptedPage.ciphertext item.2)
   ++ encode_utf8 (EncryptedPage.mac item.2)
   ++ encode_utf8 (pretty item.1))%list.

Definition measure (self : t) : string * t :=
  let hasher : bytes := [] in
  let hasher := (hasher ++ encode_utf8 (vm_id self))%list in
  let hasher := (hasher ++ encode_utf8 (owner self))%list in
  let hasher :=
    foldl (fun h item => h ++ page_update item)%list hasher
      (sorted_items (EncryptedMemory.pages (memory self))) in
  let m := hex (sha256 hasher) in
  (m,
   {| vm_id := vm_id self; owner := owner self; memory := memory self;
      vcpus := vcpus self; measurement := Some m |}).

(** [attest]; [rnd] is the 16-byte draw behind [secrets.token_hex(16)]. *)
Definition attest (self : t) (rnd : bytes) : report * t :=
  let nonce := hex rnd in
  let self :=
    match measurement self with
    | None => (measure self).2
    | Some _ => self
    end in
  ({| report_vm_id := vm_id self; report_nonce := nonce;
      report_measurement := measurement self |}, self).

End WithLibrary.
End SimulatedVM.

(** ** sev/launch_flow.py *)

Module SevLaunchManager.

Record t := mk {
  vms : gmap string SimulatedVM.t
}.

(** The dictionaries [encrypt_page] and [launch_vcpu] return. *)
Record encrypt_page_result := mk_encrypt_page_result {
  ep_vm_id : string;
  ep_page_id : Z;
  ep_measurement : string;
  ep_mac : string
}.

Record launch_vcpu_result := mk_launch_vcpu_result {
  lv_vm_id : string;
  lv_vcpu_id : nat
}.

Definition _require_vm (self : t) (vm_id : string) : outcome SimulatedVM.t :=
  match vms self !! vm_id with
  | None => Raise VmNotFound
  | Some vm => Ok vm
  end.

(** A method that changed the VM object changed the one the manager holds. *)
Definition store (self : t) (vm_id : string) (vm : SimulatedVM.t) : t :=
  {| vms := <[vm_id := vm]> (vms self) |}.

Section WithLibrary.
Context `{Hashlib} `{Base64}.

(** [create_vm]; [rnd] is the [os.urandom(6)] draw. *)
Definition create_vm (self : t) (owner : string) (rnd : bytes) : SimulatedVM.t * t :=
  let vm_id := hex rnd in
  let vm :=
    {| SimulatedVM.vm_id := vm_id; SimulatedVM.owner := owner;
       SimulatedVM.memory := {| EncryptedMemory.vm_id := vm_id; EncryptedMemory.pages := ∅ |};
       SimulatedVM.vcpus := []; SimulatedVM.measurement := None |} in
  (vm, store self vm_id vm).

(** [encrypt_page]; [iv] is the [os.urandom(16)] draw of [encrypt]. *)
Definition encrypt_page (self : t) (kms : KMSMock.t) (vm_id : string) (page_id : Z)
    (data iv : bytes) : outcome encrypt_page_result * t * KMSMock.t :=
  match _require_vm self vm_id with
  | Raise e => (Raise e, self, kms)
  | Ok vm =>
      match EncryptedMemory.write (SimulatedVM.memory vm) kms page_id data iv with
      | (Raise e, _, kms) => (Raise e, self, kms)
      | (Ok page, memory, kms) =>
          let vm :=
            {| SimulatedVM.vm_id := SimulatedVM.vm_id vm;
               SimulatedVM.owner := SimulatedVM.owner vm;
               SimulatedVM.memory := memory;
               SimulatedVM.vcpus := SimulatedVM.vcpus vm;
               SimulatedVM.measurement := SimulatedVM.measurement vm |} in
          let '(measurement, vm) := SimulatedVM.measure vm in
          (Ok {| ep_vm_id := vm_id; ep_page_id := page_id;
                 ep_measurement := measurement;
                 ep_mac := EncryptedPage.mac page |},
           store self vm_id vm, kms)
      end
  end.

Definition launch_vcpu (self : t) (vm_id : string) : outcome launch_vcpu_result * t :=
  match _require_vm self vm_id with
  | Raise e => (Raise e, self)
  | Ok vm =>
      let '(vcpu, vm) := SimulatedVM.launch_vcpu vm in
      (Ok {| lv_vm_id := vm_id; lv_vcpu_id := VcpuState.id vcpu |}, store self vm_id vm)
  end.

(** [attest]; [rnd] is the draw behind the nonce. *)
Definition attest (self : t) (vm_id : string) (rnd : bytes)
  : outcome SimulatedVM.report * t :=
  match _require_vm self vm_id with
  | Raise e => (Raise e, self)
  | Ok vm =>
      let '(report, vm) := SimulatedVM.attest vm rnd in
      (Ok report, store self vm_id vm)
  end.

End WithLibrary.
End SevLaunchManager.

(** ** Vocabulary of the properties *)

(** The spec's [InvalidSegments]: either of the two errors [load] raises. *)
Definition InvalidSegments (e : exn) : Prop :=
  e = ValueError "At least one segment is required to load an enclave"
  \/ e = ValueError "Segments must be non-empty bytes-like objects".

(** The enclave with its [loaded] flag set to [b]. *)
Definition set_loaded (b : bool) (e : SimulatedEnclave.t) : SimulatedEnclave.t :=
  {| SimulatedEnclave.name := SimulatedEnclave.name e;
     SimulatedEnclave.signer := SimulatedEnclave.signer e;
     SimulatedEnclave.pages := SimulatedEnclave.pages e;
     SimulatedEnclave.loaded := b;
     SimulatedEnclave.mrenclave := SimulatedEnclave.mrenclave e;
     SimulatedEnclave.sealed_store := SimulatedEnclave.sealed_store e |}.

(** The VM with its memory replaced, as [write] leaves it. *)
Definition with_memory (vm : SimulatedVM.t) (memory : EncryptedMemory.t) : SimulatedVM.t :=
  {| SimulatedVM.vm_id := SimulatedVM.vm_id vm;
     SimulatedVM.owner := SimulatedVM.owner vm;
     SimulatedVM.memory := memory;
     SimulatedVM.vcpus := SimulatedVM.vcpus vm;
     SimulatedVM.measurement := SimulatedVM.measurement vm |}.


(** The register set a new vCPU starts with. *)
Definition default_registers : gmap string Z :=
  <["rip" := 0%Z]> (<["rsp" := 0%Z]> ∅).

(** ** A small instance of the library

    The classes above are inhabited: a checksum stands in for SHA-256, the
    hexadecimal codec for the transport encoding, and JSON data is held in
    serialised form.  The instance shows that the facts the classes state can
    hold together, and lets the model run on concrete inputs; no general
    theorem below depends on it. *)

Module Toy.

Definition checksum (m : bytes) : N :=
  foldl (fun acc b => (31 * acc + Byte.to_N b + 1) mod 65521)%N 7%N m.

Definition digest (m : bytes) : bytes :=
  map (fun i => byte_of_N ((checksum m * N.of_nat (S i) + N.of_nat i) mod 256)%N) (seq 0 32).

Definition mac (k m : bytes) : bytes := digest (k ++ "058"%byte :: m).

Definition kdf (password salt : bytes) (iterations : N) (dklen : nat) : bytes :=
  take dklen (mac password salt ++ repeat "000"%byte dklen).

Definition unhex_digit (c : ascii) : option N :=
  let n := N_of_ascii c in
  if ((48 <=? n) && (n <=? 57))%N then Some (n - 48)%N
  else if ((97 <=? n) && (n <=? 102))%N then Some (n - 87)%N
  else None.

Fixpoint unhex (s : string) : option bytes :=
  match s with
  | EmptyString => Some []
  | String _ EmptyString => None
  | String hi (String lo s') =>
      h ← unhex_digit hi;
      l ← unhex_digit lo;
      bs ← unhex s';
      Some (byte_of_N (16 * h + l) :: bs)
  end.

Lemma digest_length m : length (digest m) = 32.
Proof. unfold digest. by rewrite length_map, length_seq. Qed.

Lemma unhex_hex bs : unhex (hex bs) = Some bs.
Proof.
  induction bs as [|b bs IH]; [done|].
  cbn [hex unhex]. rewrite IH. by destruct b.
Qed.

#[export] Instance hashlib : Hashlib :=
  {| sha256 := digest; hmac_sha256 := mac; pbkdf2_hmac_sha256 := kdf;
     sha256_length := digest_length;
     hmac_sha256_length := fun k m => digest_length _ |}.

#[export] Instance base64 : Base64 :=
  {| urlsafe_b64encode := hex; urlsafe_b64decode := unhex;
     urlsafe_b64decode_encode := unhex_hex |}.

#[export] Instance json_text : Json :=
  {| json := string; json_dumps := list_byte_of_string;
     json_loads := fun b => Some (string_of_list_byte b);
     json_loads_dumps := fun d => f_equal Some (string_of_list_byte_of_string d) |}.

(** Inputs for the concrete runs. *)
Definition iv : bytes := repeat "000"%byte 16.

Definition kms : KMSMock.t :=
  KMSMock.__init__ (Some (encode_utf8 "static-secret-for-tests")) [].

(** For the names the runs dispatch, the object inherits nothing. *)
Definition no_inherited : string -> option bool := fun _ => None.

End Toy.

(** ** A decoder that drops foreign characters

    Python's decoder does not reject every text that is no encoding: it
    discards the characters outside its alphabet and decodes what is left.
    The hexadecimal decoder below does the same, and is a decoder in the
    sense of the class [Base64] as well. *)

Module Lenient.

Definition is_hex_digit (c : ascii) : bool :=
  match Toy.unhex_digit c with Some _ => true | None => false end.

Fixpoint keep_hex_digits (s : string) : string :=
  match s with
  | EmptyString => EmptyString
  | String c s' =>
      if is_hex_digit c then String c (keep_hex_digits s') else keep_hex_digits s'
  end.

Definition decode (s : string) : option bytes := Toy.unhex (keep_hex_digits s).

Lemma keep_hex_digits_hex bs : keep_hex_digits (hex bs) = hex bs.
Proof.
  induction bs as [|b bs IH]; [done|].
  cbn [hex keep_hex_digits]. rewrite IH. by destruct b.
Qed.

Lemma decode_hex bs : decode (hex bs) = Some bs.
Proof. unfold decode. by rewrite keep_hex_digits_hex, Toy.unhex_hex. Qed.

Definition base64 : Base64 :=
  {| urlsafe_b64encode := hex; urlsafe_b64decode := decode;
     urlsafe_b64decode_encode := decode_hex |}.

End Lenient.

(** ** JSON data as Python objects *)

(** What a request body or [json.loads] holds: [None], a [bool], an [int],
    a [float] (kept as the text [repr] gives for it; nothing modelled here
    computes with one), a [str], a [list], or a [dict] with string keys,
    held as its items in insertion order. *)
#[local] Set Warnings "-register-all".
Inductive pyobj : Type :=
  | PNone
  | PBool (b : bool)
  | PInt (n : Z)
  | PFloat (repr : string)
  | PStr (s : string)
  | PList (items : list pyobj)
  | PDict (items : list (string * pyobj)).

(** [d.get(key, default)] *)
Fixpoint dict_get (d : list (string * pyobj)) (key : string) (default : pyobj) : pyobj :=
  match d with
  | [] => default
  | (k, v) :: d' => if decide (key = k) then v else dict_get d' key default
  end.

(** The [TypeError] of [obj[key]] on an object that is no dictionary; its
    message depends on the type of the object and is not modelled. *)
Definition NotSubscriptable : exn := TypeError "object cannot be indexed by a str".

(** [obj[key]] for a [str] key. *)
Fixpoint dict_lookup (d : list (string * pyobj)) (key : string) : outcome pyobj :=
  match d with
  | [] => Raise (KeyError key)
  | (k, v) :: d' => if decide (key = k) then Ok v else dict_lookup d' key
  end.

Definition getitem (obj : pyobj) (key : string) : outcome pyobj :=
  match obj with
  | PDict items => dict_lookup items key
  | _ => Raise NotSubscriptable
  end.

(** [isinstance(obj, str)], [isinstance(obj, list)], [isinstance(obj, int)]
    (a [bool] is an [int]) and [isinstance(obj, (int, float))]. *)
Definition isinstance_str (obj : pyobj) : bool :=
  match obj with PStr _ => true | _ => false end.

Definition isinstance_list (obj : pyobj) : bool :=
  match obj with PList _ => true | _ => false end.

Definition isinstance_int (obj : pyobj) : bool :=
  match obj with PInt _ | PBool _ => true | _ => false end.

Definition isinstance_number (obj : pyobj) : bool :=
  match obj with PInt _ | PBool _ | PFloat _ => true | _ => false end.

(** The elements a [for] loop over the object visits, where the object is a
    list. *)
Definition elements (obj : pyobj) : list pyobj :=
  match obj with PList items => items | _ => [] end.

(** The text of a [str] object. *)
Definition text (obj : pyobj) : string :=
  match obj with PStr s => s | _ => "" end.

(** [json.dumps(d, separators=(",", ":")).encode("utf-8")] and
    [json.loads(b.decode("utf-8"))] on these objects. *)
Class PyJson := {
  dumps : pyobj -> bytes;
  loads : bytes -> option pyobj;
  loads_dumps : forall d, loads (dumps d) = Some d
}.

Definition pyobj_json `{PyJson} : Json :=
  {| json := pyobj; json_dumps := dumps; json_loads := loads;
     json_loads_dumps := loads_dumps |}.

(** ** server/workloads/workloads.py *)

Module Workloads.

(** [str.lower] and [str.split()], which cuts a text at its runs of
    whitespace; the keyword search uses them as they are. *)
Class StrMethods := {
  lower : string -> string;
  split : string -> list string
}.

(** [list.count]. *)
Definition count (x : string) (l : list string) : nat :=
  length (filter (fun y => y = x) l).

(** [enumerate]. *)
Definition enumerate {A} (l : list A) : list (nat * A) := imap pair l.

(** [encrypted_keyword_search]: the dictionary comprehension inserts its
    entries in the order of the documents. *)
Definition encrypted_keyword_search `{StrMethods} (documents : list string)
    (keyword : string) : gmap string nat :=
  let normalized := lower keyword in
  foldl
    (fun counts item =>
       <[pretty item.1 := count normalized (split (lower item.2))]> counts)
    ∅ (enumerate documents).

(** The dictionary [{"token": token, "recovered": recovered["secret"]}]. *)
Record sealed_secret_result := mk_sealed_secret_result {
  token : string;
  recovered : pyobj
}.

(** [sealed_secret_manager]; the two callables act on a state [S] (for the
    bound methods of an enclave: the enclave and the KMS). *)
Definition sealed_secret_manager {S : Type}
    (seal_fn : string -> pyobj -> S -> outcome string * S)
    (unseal_fn : string -> S -> outcome pyobj * S)
    (secret identity : string) (s : S) : outcome sealed_secret_result * S :=
  match seal_fn identity (PDict [("secret", PStr secret)]) s with
  | (Raise e, s) => (Raise e, s)
  | (Ok token, s) =>
      match unseal_fn identity s with
      | (Raise e, s) => (Raise e, s)
      | (Ok recovered, s) =>
          match getitem recovered "secret" with
          | Raise e => (Raise e, s)
          | Ok value => (Ok {| token := token; recovered := value |}, s)
          end
      end
  end.

(** An [int] object.  A [bool] is one too: it counts as 0 or 1 and prints
    as [False] or [True]. *)
Inductive pyint : Type :=
  | Int (n : Z)
  | Bool (b : bool).

(** The number an [int] object stands for in arithmetic and in [range]. *)
Definition int_value (x : pyint) : Z :=
  match x with
  | Int n => n
  | Bool b => if b then 1 else 0
  end.

(** The most digits of an [int] that [str] converts: the interpreter's
    default, which the code does not change.  An [int] of more digits, one
    of absolute value [10 ^ 4300] or more, makes [str] raise. *)
Definition int_max_str_digits : Z := 4300.

Definition digit_limit : Z := 10 ^ int_max_str_digits.

(** [str(x)], what an f-string prints for [x]. *)
Definition int_str (x : pyint) : outcome string :=
  match x with
  | Int n =>
      if decide (digit_limit <= Z.abs n)%Z then Raise DigitLimitError
      else Ok (pretty n)
  | Bool b => Ok (if b then "True" else "False")
  end.

(** [range(n)]: empty when [n] is not positive. *)
Definition range (n : Z) : list Z := seqZ 0 n.

(** The dictionary [{"counter": value, "mac": mac}]. *)
Record counter_result := mk_counter_result {
  counter : pyint;
  mac : string
}.

(** The text [f"{value}:{increments}"] the counter hashes; the value is
    printed first. *)
Definition counter_text (value increments : pyint) : outcome string :=
  v ← int_str value;
  n ← int_str increments;
  Ok (v ++ ":" ++ n).

(** [integrity_protected_counter]: [value += 1] makes a plain [int] of
    whatever [value] was. *)
Definition integrity_protected_counter `{Hashlib} (initial increments : pyint)
  : outcome counter_result :=
  let value :=
    foldl (fun value _ => Int (int_value value + 1)) initial
      (range (int_value increments)) in
  text ← counter_text value increments;
  let mac := hex (sha256 (encode_utf8 text)) in
  Ok {| counter := value; mac := mac |}.

End Workloads.

(** ** server/routes/sev.py *)

(** What a route does with a request: it returns a response, raises an
    [HTTPException], or lets another exception through. *)
Inductive reply (A : Type) : Type :=
  | Respond (a : A)
  | HTTPException (status_code : nat) (detail : string)
  | Uncaught (e : exn).
Arguments Respond {A} a.
Arguments HTTPException {A} status_code detail.
Arguments Uncaught {A} e.

(** [str(exc)]: the message, and for a [KeyError] the [repr] of the message,
    which for the messages of this code (no quote, no backslash) is the
    message between single quotes. *)
Definition str_exc (e : exn) : string :=
  match e with
  | KeyError msg => "'" ++ msg ++ "'"
  | ValueError msg | RuntimeError msg | AttributeError msg
  | OverflowError msg | TypeError msg => msg
  end.

(** The error of [model_validate] on a value that does not fit the response
    model (a [ValueError]; its message is not modelled). *)
Definition ValidationError : exn := ValueError "Response validation failed".

Module VmLaunchRequest.
Record t := mk { owner : string }.
End VmLaunchRequest.

Module VmEncryptRequest.
Record t := mk { vm_id : string; page_id : Z; payload : bytes }.

(** The constraints the fields declare; the framework rejects a request
    that breaks one before the route runs. *)
Definition declared (req : t) : Prop :=
  vm_id req <> ""
  /\ (0 <= page_id req)%Z
  /\ (1 <= Z.of_nat (length (payload req)) <= 8192)%Z.
End VmEncryptRequest.

Module VmLaunchResponse.
Record t := mk { vm_id : string; vcpu_id : nat; measurement : string }.
End VmLaunchResponse.

Module VmEncryptResponse.
Record t := mk { vm_id : string; page_id : Z; measurement : string; mac : string }.
End VmEncryptResponse.

Module VmAttestationResponse.
Record t := mk { vm_id : string; nonce : string; measurement : string }.
End VmAttestationResponse.

Module SevRoutes.

Section WithLibrary.
Context `{Hashlib} `{Base64}.

(** [launch_vm]; [launch_manager] is the module's manager and [rnd] the
    draw of [create_vm].  The VM the route launches a vCPU on and measures
    is the object the manager stored. *)
Definition launch_vm (launch_manager : SevLaunchManager.t) (req : VmLaunchRequest.t)
    (rnd : bytes) : VmLaunchResponse.t * SevLaunchManager.t :=
  let '(vm, launch_manager) :=
    SevLaunchManager.create_vm launch_manager (VmLaunchRequest.owner req) rnd in
  let '(vcpu, vm) := SimulatedVM.launch_vcpu vm in
  let '(measurement, vm) := SimulatedVM.measure vm in
  ({| VmLaunchResponse.vm_id := SimulatedVM.vm_id vm;
      VmLaunchResponse.vcpu_id := VcpuState.id vcpu;
      VmLaunchResponse.measurement := measurement |},
   SevLaunchManager.store launch_manager (SimulatedVM.vm_id vm) vm).

(** [encrypt]; [iv] is the draw of [KMSMock.encrypt]. *)
Definition encrypt (launch_manager : SevLaunchManager.t) (kms : KMSMock.t)
    (req : VmEncryptRequest.t) (iv : bytes)
  : reply VmEncryptResponse.t * SevLaunchManager.t * KMSMock.t :=
  match
    SevLaunchManager.encrypt_page launch_manager kms (VmEncryptRequest.vm_id req)
      (VmEncryptRequest.page_id req) (VmEncryptRequest.payload req) iv
  with
  | (Raise (KeyError msg), launch_manager, kms) =>
      (HTTPException 404 (str_exc (KeyError msg)), launch_manager, kms)
  | (Raise e, launch_manager, kms) => (Uncaught e, launch_manager, kms)
  | (Ok result, launch_manager, kms) =>
      (Respond
         {| VmEncryptResponse.vm_id := SevLaunchManager.ep_vm_id result;
            VmEncryptResponse.page_id := SevLaunchManager.ep_page_id result;
            VmEncryptResponse.measurement := SevLaunchManager.ep_measurement result;
            VmEncryptResponse.mac := SevLaunchManager.ep_mac result |},
       launch_manager, kms)
  end.

(** [attest]; [rnd] is the draw behind the nonce.  The response model
    wants a text for the measurement. *)
Definition attest (launch_manager : SevLaunchManager.t) (vm_id : string) (rnd : bytes)
  : reply VmAttestationResponse.t * SevLaunchManager.t :=
  match SevLaunchManager.attest launch_manager vm_id rnd with
  | (Raise (KeyError msg), launch_manager) =>
      (HTTPException 404 (str_exc (KeyError msg)), launch_manager)
  | (Raise e, launch_manager) => (Uncaught e, launch_manager)
  | (Ok report, launch_manager) =>
      match SimulatedVM.report_measurement report with
      | Some measurement =>
          (Respond
             {| VmAttestationResponse.vm_id := SimulatedVM.report_vm_id report;
                VmAttestationResponse.nonce := SimulatedVM.report_nonce report;
                VmAttestationResponse.measurement := measurement |},
           launch_manager)
      | None => (Uncaught ValidationError, launch_manager)
      end
  end.

End WithLibrary.
End SevRoutes.

(** ** server/routes/enclave.py *)

(** The workloads a [ComputeRequest] may name. *)
Module Workload.
Inductive t : Type :=
  | keyword_search | sealed_secret | inference | counter.
End Workload.

Module ComputeRequest.
Record t := mk {
  enclave_name : string;
  workload : Workload.t;
  payload : list (string * pyobj)
}.
End ComputeRequest.

Module AttestationRequest.
Record t := mk { enclave_name : string; policy_version : string }.
End AttestationRequest.

Module SealRequest.
Record t := mk {
  enclave_name : string;
  identity : string;
  data : list (string * pyobj)
}.

(** The constraints the fields declare. *)
Definition declared (req : t) : Prop := enclave_name req <> "" /\ identity req <> "".
End SealRequest.

Module AttestationResponse.
Record t := mk {
  mrenclave : string;
  signer : string;
  nonce : string;
  policy_version : string
}.
End AttestationResponse.

Module SealResponse.
Record t := mk { token : string }.
End SealResponse.

Module EnclaveRoutes.

(** The parameter dictionaries the validators return. *)
Record keyword_params := mk_keyword_params { documents : pyobj; keyword : pyobj }.
Record sealed_params := mk_sealed_params { secret : pyobj; identity : pyobj }.
Record inference_params := mk_inference_params { vector : pyobj }.
Record counter_params := mk_counter_params { initial : pyobj; increments : pyobj }.

(** A [str] object that is empty, which [not] takes for false. *)
Definition empty_str (obj : pyobj) : bool :=
  match obj with PStr "" => true | _ => false end.

(** An [int] object of the request, as the workload receives it. *)
Definition as_int (obj : pyobj) : Workloads.pyint :=
  match obj with
  | PBool b => Workloads.Bool b
  | PInt n => Workloads.Int n
  | _ => Workloads.Int 0
  end.

Definition _validate_keyword_payload (payload : list (string * pyobj))
  : reply keyword_params :=
  let documents := dict_get payload "documents" (PList []) in
  let keyword := dict_get payload "keyword" (PStr "") in
  if negb (isinstance_list documents)
     || negb (forallb isinstance_str (elements documents)) then
    HTTPException 422 "documents must be a list of strings"
  else if negb (isinstance_str keyword) || empty_str keyword then
    HTTPException 422 "keyword must be a non-empty string"
  else Respond {| documents := documents; keyword := keyword |}.

Definition _validate_sealed_payload (payload : list (string * pyobj))
  : reply sealed_params :=
  let secret := dict_get payload "secret" PNone in
  let identity := dict_get payload "identity" PNone in
  if negb (isinstance_str secret) || negb (isinstance_str identity) then
    HTTPException 422 "secret and identity must be strings"
  else if empty_str secret || empty_str identity then
    HTTPException 422 "secret and identity cannot be empty"
  else Respond {| secret := secret; identity := identity |}.

(** [_validate_inference_payload] up to the conversion of the numbers to
    [float], which is left to the workload's model. *)
Definition _validate_inference_payload (payload : list (string * pyobj))
  : reply inference_params :=
  let vector := dict_get payload "vector" (PList []) in
  if negb (isinstance_list vector)
     || negb (forallb isinstance_number (elements vector)) then
    HTTPException 422 "vector must be a list of numbers"
  else Respond {| vector := vector |}.

Definition _validate_counter_payload (payload : list (string * pyobj))
  : reply counter_params :=
  let initial := dict_get payload "initial" (PInt 0) in
  let increments := dict_get payload "increments" (PInt 1) in
  if negb (isinstance_int initial) || negb (isinstance_int increments) then
    HTTPException 422 "initial and increments must be integers"
  else if decide (Workloads.int_value (as_int increments) < 0)%Z then
    HTTPException 422 "increments must be non-negative"
  else Respond {| initial := initial; increments := increments |}.

(** The enclave the route worked on is the object the registry holds. *)
Definition put (registry : EnclaveRegistry.t) (name : string) (enclave : SimulatedEnclave.t)
  : EnclaveRegistry.t :=
  {| EnclaveRegistry._instances := <[name := enclave]> (EnclaveRegistry._instances registry) |}.

Section WithLibrary.
Context `{Hashlib} `{Base64} `{PyJson} `{Workloads.StrMethods}.
#[local] Existing Instance pyobj_json.

(** The result of [privacy_preserving_inference], and the workload itself
    on the numbers of a validated vector: the conversion of each to [float],
    the norm and the commitment.  Floating point arithmetic is outside this
    model. *)
Variable inference_result : Type.
Variable privacy_preserving_inference : list pyobj -> outcome inference_result.

(** The result dictionary of a workload, by the workload that made it. *)
Inductive compute_result : Type :=
  | KeywordSearchResult (counts : gmap string nat)
  | SealedSecretResult (result : Workloads.sealed_secret_result)
  | InferenceResult (result : inference_result)
  | CounterResult (result : Workloads.counter_result).

Record ComputeResponse := mk_ComputeResponse {
  response_mrenclave : string;
  response_result : compute_result
}.

(** [derive_key] on the strings of a payload, which are any strings.  When
    the key is not cached the method encodes the context and then the
    identity before it changes anything, and [str.encode] raises on a lone
    surrogate; [KMSMock.derive_key] is the method in the other cases. *)
Definition derive_key_raises (kms : KMSMock.t) (identity context : string) : bool :=
  bool_decide (KMSMock._cache kms !! (identity ++ ":" ++ context) = None)
  && (has_surrogate context || has_surrogate identity).

(** The bound methods [enclave.seal] and [enclave.unseal], on the enclave
    and the KMS; [iv] is the draw of [encrypt].  [seal] derives the key
    once the identity is known to be non-empty, [unseal] once a token is
    found for it. *)
Definition seal_fn (iv : bytes) (identity : string) (data : pyobj)
    (s : SimulatedEnclave.t * KMSMock.t) : outcome string * (SimulatedEnclave.t * KMSMock.t) :=
  if negb (bool_decide (identity = ""))
     && derive_key_raises s.2 identity (SimulatedEnclave.mrenclave s.1) then
    (Raise UnicodeEncodeError, s)
  else
    let '(r, enclave, kms) := SimulatedEnclave.seal s.1 s.2 identity data iv in
    (r, (enclave, kms)).

Definition unseal_fn (identity : string) (s : SimulatedEnclave.t * KMSMock.t)
  : outcome pyobj * (SimulatedEnclave.t * KMSMock.t) :=
  if bool_decide (is_Some (SimulatedEnclave.sealed_store s.1 !! identity))
     && derive_key_raises s.2 identity (SimulatedEnclave.mrenclave s.1) then
    (Raise UnicodeEncodeError, s)
  else
    let '(r, kms) := SimulatedEnclave.unseal s.1 s.2 identity in
    (r, (s.1, kms)).

(** The branch of [compute] for one workload: validation, then the
    workload on the validated parameters. *)
Definition run_workload (workload : Workload.t) (payload : list (string * pyobj))
    (enclave : SimulatedEnclave.t) (kms : KMSMock.t) (iv : bytes)
  : reply compute_result * SimulatedEnclave.t * KMSMock.t :=
  match workload with
  | Workload.keyword_search =>
      match _validate_keyword_payload payload with
      | Respond params =>
          (Respond
             (KeywordSearchResult
                (Workloads.encrypted_keyword_search
                   (map text (elements (documents params))) (text (keyword params)))),
           enclave, kms)
      | HTTPException status_code detail => (HTTPException status_code detail, enclave, kms)
      | Uncaught e => (Uncaught e, enclave, kms)
      end
  | Workload.sealed_secret =>
      match _validate_sealed_payload payload with
      | Respond params =>
          match
            Workloads.sealed_secret_manager (seal_fn iv) unseal_fn
              (text (secret params)) (text (identity params)) (enclave, kms)
          with
          | (Ok result, (enclave, kms)) => (Respond (SealedSecretResult result), enclave, kms)
          | (Raise e, (enclave, kms)) => (Uncaught e, enclave, kms)
          end
      | HTTPException status_code detail => (HTTPException status_code detail, enclave, kms)
      | Uncaught e => (Uncaught e, enclave, kms)
      end
  | Workload.inference =>
      match _validate_inference_payload payload with
      | Respond params =>
          match privacy_preserving_inference (elements (vector params)) with
          | Ok result => (Respond (InferenceResult result), enclave, kms)
          | Raise e => (Uncaught e, enclave, kms)
          end
      | HTTPException status_code detail => (HTTPException status_code detail, enclave, kms)
      | Uncaught e => (Uncaught e, enclave, kms)
      end
  | Workload.counter =>
      match _validate_counter_payload payload with
      | Respond params =>
          match
            Workloads.integrity_protected_counter
              (as_int (initial params)) (as_int (increments params))
          with
          | Ok result => (Respond (CounterResult result), enclave, kms)
          | Raise e => (Uncaught e, enclave, kms)
          end
      | HTTPException status_code detail => (HTTPException status_code detail, enclave, kms)
      | Uncaught e => (Uncaught e, enclave, kms)
      end
  end.

(** [compute]; [enclave_registry] is the module's registry. *)
Definition compute (enclave_registry : EnclaveRegistry.t) (kms : KMSMock.t)
    (req : ComputeRequest.t) (iv : bytes)
  : reply ComputeResponse * EnclaveRegistry.t * KMSMock.t :=
  match EnclaveRegistry.get_or_create enclave_registry (ComputeRequest.enclave_name req) with
  | (Raise e, enclave_registry) => (Uncaught e, enclave_registry, kms)
  | (Ok enclave, enclave_registry) =>
      if negb (SimulatedEnclave.loaded enclave) then
        (HTTPException 400 "Enclave not initialized", enclave_registry, kms)
      else
        let '(result, enclave, kms) :=
          run_workload (ComputeRequest.workload req) (ComputeRequest.payload req)
            enclave kms iv in
        let enclave_registry :=
          put enclave_registry (ComputeRequest.enclave_name req) enclave in
        match result with
        | Respond result =>
            (Respond {| response_mrenclave := SimulatedEnclave.mrenclave enclave;
                        response_result := result |},
             enclave_registry, kms)
        | HTTPException status_code detail =>
            (HTTPException status_code detail, enclave_registry, kms)
        | Uncaught e => (Uncaught e, enclave_registry, kms)
        end
  end.

(** [attest]; [rnd] is the draw behind the nonce. *)
Definition attest (enclave_registry : EnclaveRegistry.t) (req : AttestationRequest.t)
    (rnd : bytes) : reply AttestationResponse.t * EnclaveRegistry.t :=
  match
    EnclaveRegistry.get_or_create enclave_registry (AttestationRequest.enclave_name req)
  with
  | (Raise e, enclave_registry) => (Uncaught e, enclave_registry)
  | (Ok enclave, enclave_registry) =>
      let report :=
        SimulatedEnclave.attest enclave (AttestationRequest.policy_version req) rnd in
      (Respond
         {| AttestationResponse.mrenclave := AttestationReport.mrenclave report;
            AttestationResponse.signer := AttestationReport.signer report;
            AttestationResponse.nonce := AttestationReport.nonce report;
            AttestationResponse.policy_version := AttestationReport.policy_version report |},
       enclave_registry)
  end.

(** [seal]; [iv] is the draw of [encrypt]. *)
Definition seal (enclave_registry : EnclaveRegistry.t) (kms : KMSMock.t)
    (req : SealRequest.t) (iv : bytes)
  : reply SealResponse.t * EnclaveRegistry.t * KMSMock.t :=
  match EnclaveRegistry.get_or_create enclave_registry (SealRequest.enclave_name req) with
  | (Raise e, enclave_registry) => (Uncaught e, enclave_registry, kms)
  | (Ok enclave, enclave_registry) =>
      match
        SimulatedEnclave.seal enclave kms (SealRequest.identity req)
          (PDict (SealRequest.data req)) iv
      with
      | (Raise (ValueError msg), enclave, kms) =>
          (HTTPException 400 (str_exc (ValueError msg)),
           put enclave_registry (SealRequest.enclave_name req) enclave, kms)
      | (Raise e, enclave, kms) =>
          (Uncaught e, put enclave_registry (SealRequest.enclave_name req) enclave, kms)
      | (Ok token, enclave, kms) =>
          (Respond {| SealResponse.token := token |},
           put enclave_registry (SealRequest.enclave_name req) enclave, kms)
      end
  end.

End WithLibrary.

Arguments KeywordSearchResult {inference_result} counts.
Arguments SealedSecretResult {inference_result} result.
Arguments InferenceResult {inference_result} result.
Arguments CounterResult {inference_result} result.
Arguments mk_ComputeResponse {inference_result} response_mrenclave response_result.
Arguments response_mrenclave {inference_result} c.
Arguments response_result {inference_result} c.

End EnclaveRoutes.

(** ** A small instance for the objects

    A serialisation of the objects that parses back, and the two text
    methods on ASCII letters and blanks, so that the routes run on concrete
    requests. *)

Module ToyObjects.

Fixpoint to_tree (d : pyobj) : gen_tree (Z + string) :=
  match d with
  | PNone => GenNode 0 []
  | PBool b => GenNode (if b then 1 else 2) []
  | PInt n => GenNode 3 [GenLeaf (inl n)]
  | PFloat r => GenNode 4 [GenLeaf (inr r)]
  | PStr s => GenNode 5 [GenLeaf (inr s)]
  | PList items => GenNode 6 (map to_tree items)
  | PDict items =>
      GenNode 7 (map (fun kv => GenNode 8 [GenLeaf (inr kv.1); to_tree kv.2]) items)
  end.

Fixpoint of_tree (t : gen_tree (Z + string)) : pyobj :=
  match t with
  | GenNode 1 [] => PBool true
  | GenNode 2 [] => PBool false
  | GenNode 3 [GenLeaf (inl n)] => PInt n
  | GenNode 4 [GenLeaf (inr r)] => PFloat r
  | GenNode 5 [GenLeaf (inr s)] => PStr s
  | GenNode 6 ts => PList (map of_tree ts)
  | GenNode 7 ts =>
      PDict
        (map (fun t =>
                match t with
                | GenNode 8 [GenLeaf (inr k); v] => (k, of_tree v)
                | _ => ("", PNone)
                end) ts)
  | _ => PNone
  end.

Fixpoint pos_to_bytes (p : positive) : bytes :=
  match p with
  | xH => []
  | xO p => "000"%byte :: pos_to_bytes p
  | xI p => "001"%byte :: pos_to_bytes p
  end.

Fixpoint bytes_to_pos (bs : bytes) : positive :=
  match bs with
  | [] => xH
  | b :: bs => if decide (b = "000"%byte) then xO (bytes_to_pos bs) else xI (bytes_to_pos bs)
  end.

Definition to_bytes (d : pyobj) : bytes := pos_to_bytes (encode (to_tree d)).

Definition of_bytes (bs : bytes) : option pyobj := of_tree <$> decode (bytes_to_pos bs).

Lemma of_to_tree : forall d, of_tree (to_tree d) = d.
Proof.
  fix IH 1. intros [|b|n|r|s|items|items]; cbn [to_tree of_tree]; try done.
  - by destruct b.
  - f_equal. induction items as [|x items IHitems]; [done|].
    cbn [map]. by rewrite IH, IHitems.
  - f_equal. induction items as [|[k v] items IHitems]; [done|].
    cbn [map fst snd]. by rewrite IH, IHitems.
Qed.

Lemma bytes_to_pos_to_bytes p : bytes_to_pos (pos_to_bytes p) = p.
Proof. induction p as [p IH|p IH|]; simpl; by rewrite ?IH. Qed.

Lemma of_to_bytes d : of_bytes (to_bytes d) = Some d.
Proof.
  unfold of_bytes, to_bytes. rewrite bytes_to_pos_to_bytes, decode_encode. simpl.
  by rewrite of_to_tree.
Qed.

#[export] Instance pyjson : PyJson := Build_PyJson to_bytes of_bytes of_to_bytes.

Definition lower_char (c : ascii) : ascii :=
  let n := N_of_ascii c in
  if ((65 <=? n) && (n <=? 90))%N then ascii_of_N (n + 32) else c.

Fixpoint lower (s : string) : string :=
  match s with
  | EmptyString => EmptyString
  | String c s' => String (lower_char c) (lower s')
  end.

(** The words of [s] after the letters [word] already read. *)
Fixpoint words (word s : string) : list string :=
  match s with
  | EmptyString => if decide (word = "") then [] else [word]
  | String c s' =>
      if decide (c = " "%char) then
        if decide (word = "") then words "" s' else word :: words "" s'
      else words (word ++ String c "") s'
  end.

#[export] Instance str_methods : Workloads.StrMethods :=
  Workloads.Build_StrMethods lower (words "").

End ToyObjects.

(** ** Vocabulary of the further properties *)

(** A text that holds no colon. *)
Fixpoint no_colon (s : string) : Prop :=
  match s with
  | EmptyString => True
  | String c s' => c <> ":"%char /\ no_colon s'
  end.

(** The measurement is the hexadecimal text of some bytes (of none, before
    the first [load]). *)
Definition measured (e : SimulatedEnclave.t) : Prop :=
  exists bs, SimulatedEnclave.mrenclave e = hex bs.

(** Derivations made one after the other on one KMS. *)
Definition derive_all (kms : KMSMock.t) `{Hashlib} (calls : list (string * string))
  : KMSMock.t :=
  foldl (fun k call => (KMSMock.derive_key k call.1 call.2).2) kms calls.

(** Every VM the manager holds has either no cached measurement or the
    measurement of its present pages. *)
Definition fresh `{Hashlib} `{Base64} (self : SevLaunchManager.t) : Prop :=
  forall vm_id vm,
    SevLaunchManager.vms self !! vm_id = Some vm ->
    SimulatedVM.measurement vm = None
    \/ SimulatedVM.measurement vm = Some (SimulatedVM.measure vm).1.

(** The memory with the page stored under [page_id] replaced. *)
Definition with_page (memory : EncryptedMemory.t) (page_id : Z) (page : EncryptedPage.t)
  : EncryptedMemory.t :=
  {| EncryptedMemory.vm_id := EncryptedMemory.vm_id memory;
     EncryptedMemory.pages := <[page_id := page]> (EncryptedMemory.pages memory) |}.

(** Every VM the manager holds is stored under its own id, which is also
    the id its memory derives page keys for. *)
Definition consistent (self : SevLaunchManager.t) : Prop :=
  forall vm_id vm,
    SevLaunchManager.vms self !! vm_id = Some vm ->
    SimulatedVM.vm_id vm = vm_id
    /\ EncryptedMemory.vm_id (SimulatedVM.memory vm) = vm_id.

(** A text of decimal digits and minus signs, as [str] gives for an
    integer. *)
Definition decimal_char (c : ascii) : Prop :=
  (N_of_ascii c = 45 \/ 48 <= N_of_ascii c <= 57)%N.

Fixpoint decimal_text (s : string) : Prop :=
  match s with
  | EmptyString => True
  | String c s' => decimal_char c /\ decimal_text s'
  end.

(** The object the loop of the counter ends with: a plain integer once it
    has counted, and the initial object itself when it has not. *)
Definition counted (initial increments : Workloads.pyint) : Workloads.pyint :=
  if decide (0 < Workloads.int_value increments)%Z
  then Workloads.Int (Workloads.int_value initial + Workloads.int_value increments)
  else initial.

(** An [int] object of a workload, as the object a request holds. *)
Definition of_int (x : Workloads.pyint) : pyobj :=
  match x with
  | Workloads.Int n => PInt n
  | Workloads.Bool b => PBool b
  end.

(** The enclave [get_or_create] makes for a new name. *)
Definition bootstrap `{Hashlib} (name : string) : SimulatedEnclave.t :=
  (SimulatedEnclave.load (SimulatedEnclave.__init__ name "lab") [encode_utf8 "init"]).2.

(** Every enclave the registry holds is loaded, bears the name it is held
    under, and has a measurement in hexadecimal. *)
Definition registered (registry : EnclaveRegistry.t) : Prop :=
  forall name enclave,
    EnclaveRegistry._instances registry !! name = Some enclave ->
    SimulatedEnclave.loaded enclave = true
    /\ SimulatedEnclave.name enclave = name
    /\ measured enclave.

(** * Properties *)

Local Open Scope list_scope.

(** ** Bytes *)

Lemma byte_of_to_N n : (n <= 255)%N -> Byte.to_N (byte_of_N n) = n.
Proof.
  intros Hn. unfold byte_of_N.
  destruct (Byte.of_N n) as [b|] eqn:E.
  - simpl. by apply Byte.to_of_N.
  - apply Byte.of_N_None_iff in E. lia.
Qed.

Lemma lxor_byte_bound a b : (a <= 255 -> b <= 255 -> N.lxor a b <= 255)%N.
Proof.
  intros Ha Hb.
  destruct (N.eq_dec (N.lxor a b) 0%N) as [->|Hnz]; [lia|].
  assert (N.lxor a b < 2 ^ 8)%N; [|simpl in *; lia].
  apply N.log2_lt_pow2; [lia|].
  pose proof (N.log2_lxor a b) as Hl.
  assert (forall x, x <= 255 -> N.log2 x < 8)%N as Hx.
  { intros x Hx. destruct (N.eq_dec x 0%N) as [->|]; [simpl; lia|].
    apply N.log2_lt_pow2; simpl; lia. }
  specialize (Hx a Ha) as Ha'. specialize (Hx b Hb) as Hb'. lia.
Qed.

Lemma byte_xor_involutive p k : byte_xor (byte_xor p k) k = p.
Proof.
  unfold byte_xor.
  pose proof (Byte.to_N_bounded p). pose proof (Byte.to_N_bounded k).
  rewrite byte_of_to_N by (by apply lxor_byte_bound).
  rewrite N.lxor_assoc, N.lxor_nilpotent, N.lxor_0_r.
  unfold byte_of_N. by rewrite Byte.of_to_N.
Qed.

Lemma xor_bytes_length ps ks :
  length ps <= length ks -> length (xor_bytes ps ks) = length ps.
Proof. intros. unfold xor_bytes. rewrite length_zip_with. lia. Qed.

Lemma xor_bytes_involutive ps ks :
  length ps <= length ks -> xor_bytes (xor_bytes ps ks) ks = ps.
Proof.
  unfold xor_bytes. revert ks.
  induction ps as [|p ps IH]; intros [|k ks] Hl; simpl in *; try done; try lia.
  rewrite byte_xor_involutive, IH; [done|lia].
Qed.

(** ** KMSMock *)

Section KMSMockProperties.
Context `{Hashlib} `{Base64}.
Import KMSMock.

(** The loop, as the source writes it. *)
Lemma expand_loop_unfold material len stream counter :
  expand_loop material len stream counter =
  if decide (length stream < len) then
    cb ← to_bytes4 counter;
    expand_loop material len (stream ++ sha256 (material ++ cb)) (counter + 1)
  else Ok stream.
Proof.
  simp expand_loop. destruct (decide _); simpl; [|done].
  by destruct (to_bytes4 counter).
Qed.

Lemma to_bytes4_ok counter :
  (counter < 2 ^ 32)%N -> exists cb, to_bytes4 counter = Ok cb.
Proof.
  intros Hc. unfold to_bytes4.
  destruct (counter <? 2 ^ 32)%N eqn:E; [eauto|].
  apply N.ltb_ge in E. lia.
Qed.

Lemma expand_loop_covers material len stream counter s :
  expand_loop material len stream counter = Ok s -> len <= length s.
Proof.
  funelim (expand_loop material len stream counter).
  - intros [= <-]. lia.
  - eauto.
  - done.
Qed.

(** The loop returns as long as the block counter fits its four bytes. *)
Lemma expand_loop_returns material len stream counter :
  N.of_nat (length stream) = (32 * counter)%N ->
  (N.of_nat len <= 32 * 2 ^ 32)%N ->
  exists s, expand_loop material len stream counter = Ok s.
Proof.
  funelim (expand_loop material len stream counter); intros Hinv Hlen.
  - eauto.
  - apply H1; [|done].
    rewrite length_app, sha256_length. lia.
  - destruct (to_bytes4_ok counter) as [cb Hcb]; [lia|congruence].
Qed.

Lemma _expand_keystream_length key iv len ks :
  _expand_keystream key iv len = Ok ks -> length ks = len.
Proof.
  unfold _expand_keystream.
  destruct (expand_loop (key ++ iv) len [] 0%N) as [s|e] eqn:E; simpl; [|done].
  intros [= <-]. apply expand_loop_covers in E. rewrite length_take. lia.
Qed.

Lemma _expand_keystream_returns key iv len :
  (N.of_nat len <= 2 ^ 37)%N -> exists ks, _expand_keystream key iv len = Ok ks.
Proof.
  intros Hlen. unfold _expand_keystream.
  destruct (expand_loop_returns (key ++ iv) len [] 0%N) as [s ->];
    simpl; [lia|lia|eauto].
Qed.

Lemma encrypt_returns key plaintext iv :
  (N.of_nat (length plaintext) <= 2 ^ 37)%N ->
  exists token, encrypt key plaintext iv = Ok token.
Proof.
  intros Hlen. unfold encrypt.
  destruct (_expand_keystream_returns key iv (length plaintext) Hlen) as [ks ->].
  simpl. eauto.
Qed.

(** The token [encrypt] builds splits back into its three parts. *)
Lemma decrypt_encoded key iv ciphertext :
  length iv = 16 ->
  decrypt key
    (urlsafe_b64encode (iv ++ ciphertext ++ hmac_sha256 key (iv ++ ciphertext))) =
  (keystream ← _expand_keystream key iv (length ciphertext);
   Ok (xor_bytes ciphertext keystream)).
Proof.
  intros Hiv. unfold decrypt. rewrite urlsafe_b64decode_encode.
  rewrite take_app_length' by done.
  rewrite drop_app_length' by done.
  rewrite length_app, hmac_sha256_length.
  replace (length ciphertext + 32 - 32) with (length ciphertext) by lia.
  rewrite take_app_length, drop_app_length.
  unfold compare_digest. by rewrite bool_decide_eq_true_2.
Qed.

Lemma decrypt_encrypt key plaintext iv token :
  length iv = 16 ->
  encrypt key plaintext iv = Ok token -> decrypt key token = Ok plaintext.
Proof.
  intros Hiv. unfold encrypt.
  destruct (_expand_keystream key iv (length plaintext)) as [ks|e] eqn:E; simpl; [|done].
  intros [= <-]. rewrite decrypt_encoded by done.
  pose proof (_expand_keystream_length _ _ _ _ E) as Hks.
  rewrite xor_bytes_length by lia. rewrite E. simpl.
  by rewrite xor_bytes_involutive by lia.
Qed.

(** C1. For every key and plaintext, and whatever 16-byte iv [encrypt]
    draws, decrypting the token that [encrypt] produced returns exactly the
    plaintext.  [encrypt] does produce a token for every plaintext of up to
    2^37 bytes (the 2^32 blocks its four-byte counter can number). *)
Theorem encrypt_decrypt_roundtrip (key plaintext iv : bytes) :
  length iv = 16 ->
  (forall token,
     encrypt key plaintext iv = Ok token -> decrypt key token = Ok plaintext)
  /\ ((N.of_nat (length plaintext) <= 2 ^ 37)%N ->
      exists token,
        encrypt key plaintext iv = Ok token /\ decrypt key token = Ok plaintext).
Proof.
  intros Hiv. split.
  - intros token. by apply decrypt_encrypt.
  - intros Hlen. destruct (encrypt_returns key plaintext iv Hlen) as [token Htok].
    exists token. split; [done|]. by eapply decrypt_encrypt.
Qed.

(** Beyond 2^37 bytes the counter no longer fits and [encrypt] raises. *)
Lemma expand_loop_overflow material len stream counter :
  N.of_nat (length stream) = (32 * counter)%N ->
  (counter <= 2 ^ 32)%N ->
  (32 * 2 ^ 32 < N.of_nat len)%N ->
  expand_loop material len stream counter =
  Raise (OverflowError "int too big to convert").
Proof.
  funelim (expand_loop material len stream counter); intros Hinv Hc Hlen.
  - lia.
  - assert (counter < 2 ^ 32)%N.
    { unfold to_bytes4 in Heq. destruct (counter <? 2 ^ 32)%N eqn:E; [|done].
      by apply N.ltb_lt in E. }
    apply H1; [|lia|done]. rewrite length_app, sha256_length. lia.
  - unfold to_bytes4 in Heq. destruct (counter <? 2 ^ 32)%N; [done|].
    by injection Heq as <-.
Qed.

Lemma encrypt_overflow key plaintext iv :
  (2 ^ 37 < N.of_nat (length plaintext))%N ->
  encrypt key plaintext iv = Raise (OverflowError "int too big to convert").
Proof.
  intros Hlen. unfold encrypt, _expand_keystream.
  rewrite expand_loop_overflow; [done|simpl; lia|lia|lia].
Qed.

(** *** derive_key *)

Lemma derive_key_hit kms identity context k :
  _cache kms !! (identity ++ ":" ++ context)%string = Some k ->
  derive_key kms identity context = (k, kms).
Proof. intros Hk. unfold derive_key. by rewrite Hk. Qed.

Lemma derive_key_cached kms identity context :
  _cache (derive_key kms identity context).2 !! (identity ++ ":" ++ context)%string
  = Some (derive_key kms identity context).1.
Proof.
  unfold derive_key.
  destruct (_cache kms !! (identity ++ ":" ++ context)%string) as [k|] eqn:E; simpl; [done|].
  by rewrite lookup_insert_eq.
Qed.

Lemma derive_key_master_secret kms identity context :
  _master_secret (derive_key kms identity context).2 = _master_secret kms.
Proof. unfold derive_key. by destruct (_cache kms !! _). Qed.

(** The cache only grows: an entry, once made, is never replaced. *)
Lemma derive_key_cache_mono kms identity context :
  _cache kms ⊆ _cache (derive_key kms identity context).2.
Proof.
  unfold derive_key.
  destruct (_cache kms !! (identity ++ ":" ++ context)%string) as [k|] eqn:E; simpl; [done|].
  by apply insert_subseteq.
Qed.

(** Two calls with the same identity and context return the same key. *)
Lemma derive_key_deterministic kms identity context :
  derive_key (derive_key kms identity context).2 identity context =
  ((derive_key kms identity context).1, (derive_key kms identity context).2).
Proof. apply derive_key_hit, derive_key_cached. Qed.

Lemma derive_key_miss kms identity context :
  _cache kms !! (identity ++ ":" ++ context)%string = None ->
  (derive_key kms identity context).1 =
  hmac_sha256 (_master_secret kms)
    (pbkdf2_hmac_sha256 (encode_utf8 identity) (sha256 (encode_utf8 context)) 200000 32).
Proof. intros Hn. unfold derive_key. by rewrite Hn. Qed.

(** C2. The two distinct pairs ("a:b", "c") and ("a", "b:c") share the
    cache key "a:b:c": on every KMS, whatever it has cached, deriving the
    first and then the second returns the same key, the second call being
    answered from the cache entry the first one made or found.  On a KMS
    that has cached nothing under "a:b:c", the key returned for ("a", "b:c")
    is the one derived from the identity "a:b" and the context "c". *)
Theorem derive_key_distinct_pairs_share_key (kms : KMSMock.t) :
  let first := derive_key kms "a:b" "c" in
  let second := derive_key first.2 "a" "b:c" in
  ("a:b", "c") <> ("a", "b:c")
  /\ second.1 = first.1
  /\ (_cache kms !! "a:b:c" = None ->
      second.1 =
      hmac_sha256 (_master_secret kms)
        (pbkdf2_hmac_sha256 (encode_utf8 "a:b") (sha256 (encode_utf8 "c")) 200000 32)).
Proof.
  intros first second.
  assert (second.1 = first.1) as Heq.
  { pose proof (derive_key_cached kms "a:b" "c") as Hc.
    subst first second. by rewrite (derive_key_hit _ "a" "b:c" _ Hc). }
  split; [done|]. split; [done|].
  intros Hn. rewrite Heq. by apply derive_key_miss.
Qed.

(** *** decrypt *)

Lemma decrypt_malformed key token :
  urlsafe_b64decode token = None -> decrypt key token = Raise MalformedToken.
Proof. intros Hd. unfold decrypt. by rewrite Hd. Qed.

Lemma decrypt_tag_mismatch key token data :
  urlsafe_b64decode token = Some data ->
  hmac_sha256 key
    (take 16 data ++ take (length (drop 16 data) - 32) (drop 16 data))
  <> drop (length (drop 16 data) - 32) (drop 16 data) ->
  decrypt key token = Raise IntegrityError.
Proof.
  intros Hd Hne. unfold decrypt, compare_digest. rewrite Hd.
  by rewrite bool_decide_eq_false_2.
Qed.

Lemma decrypt_short key token data :
  urlsafe_b64decode token = Some data ->
  length data < 48 ->
  decrypt key token = Raise IntegrityError.
Proof.
  intros Hd Hlen. apply (decrypt_tag_mismatch _ _ _ Hd).
  intros Heq. apply (f_equal length) in Heq.
  rewrite hmac_sha256_length, !length_drop in Heq. lia.
Qed.

Lemma decrypt_ok_inv key token plaintext :
  decrypt key token = Ok plaintext ->
  exists data,
    urlsafe_b64decode token = Some data /\ 48 <= length data /\
    hmac_sha256 key
      (take 16 data ++ take (length (drop 16 data) - 32) (drop 16 data))
    = drop (length (drop 16 data) - 32) (drop 16 data).
Proof.
  unfold decrypt, compare_digest.
  destruct (urlsafe_b64decode token) as [data|] eqn:Hd; [|done].
  case_bool_decide as Htag; simpl; [|done].
  intros _. exists data. split; [done|]. split; [|done].
  destruct (decide (48 <= length data)) as [|Hshort]; [done|].
  apply (f_equal length) in Htag.
  rewrite hmac_sha256_length, !length_drop in Htag. lia.
Qed.

Lemma expand_loop_raise_inv material len stream counter e :
  expand_loop material len stream counter = Raise e ->
  e = OverflowError "int too big to convert".
Proof.
  funelim (expand_loop material len stream counter).
  - done.
  - eauto.
  - unfold to_bytes4 in Heq. destruct (counter <? 2 ^ 32)%N; [done|].
    injection Heq as <-. by intros [= <-].
Qed.

(** What [decrypt] can raise. *)
Lemma decrypt_raise_inv key token e :
  decrypt key token = Raise e ->
  e = MalformedToken \/ e = IntegrityError
  \/ e = OverflowError "int too big to convert".
Proof.
  unfold decrypt. destruct (urlsafe_b64decode token) as [data|].
  - destruct (negb _); [intros [= <-]; auto|].
    unfold _expand_keystream.
    destruct (expand_loop _ _ _ _) as [s|e'] eqn:E; simpl; [done|].
    intros [= <-]. apply expand_loop_raise_inv in E. auto.
  - intros [= <-]. auto.
Qed.

(** C4 (amended). [decrypt] fails with [MalformedToken] exactly when the
    decoder rejects the token.  What the decoder accepts is not rejected
    afterwards, whether or not it is the encoding of anything: a decoder
    that drops foreign characters, as Python's does, decodes a text of
    foreign characters to no bytes at all.  [decrypt] has no length check:
    a token that decodes to fewer than 48 bytes carries a tag shorter than
    32 bytes, which never equals the recomputed one, so [decrypt] fails with
    [IntegrityError].  It fails with [IntegrityError] whenever the tag
    recomputed over iv and ciphertext differs from the stored one, and it
    returns bytes only for a token whose tag check passed. *)
Theorem decrypt_failures (key : bytes) (token : string) :
  (urlsafe_b64decode token = None <-> decrypt key token = Raise MalformedToken)
  /\ (forall data,
        urlsafe_b64decode token = Some data ->
        let iv := take 16 data in
        let rest := drop 16 data in
        let ciphertext := take (length rest - 32) rest in
        let mac := drop (length rest - 32) rest in
        (length data < 48 -> decrypt key token = Raise IntegrityError)
        /\ (hmac_sha256 key (iv ++ ciphertext) <> mac ->
            decrypt key token = Raise IntegrityError)
        /\ (forall plaintext,
              decrypt key token = Ok plaintext ->
              hmac_sha256 key (iv ++ ciphertext) = mac)).
Proof.
  split.
  - split; [apply decrypt_malformed|].
    intros Hm. destruct (urlsafe_b64decode token) as [data|] eqn:Hd; [|done].
    exfalso. unfold decrypt in Hm. rewrite Hd in Hm.
    destruct (negb _); [done|].
    unfold _expand_keystream in Hm.
    destruct (expand_loop _ _ _ _) as [stream|err] eqn:E; [done|].
    apply expand_loop_raise_inv in E. subst err. done.
  - intros data Hd. simpl. split; [|split].
    + by apply decrypt_short.
    + by apply decrypt_tag_mismatch.
    + intros plaintext Hok.
      destruct (decrypt_ok_inv _ _ _ Hok) as (data' & Hd' & _ & Htag).
      congruence.
Qed.

End KMSMockProperties.

(** ** MemoryPage *)

(** [write] refuses content longer than the page and otherwise stores it. *)
Lemma MemoryPage_write_spec (page : MemoryPage.t) (content : bytes) :
  (MemoryPage.size page < length content ->
   MemoryPage.write page content = (Raise (ValueError "Page overflow detected"), page))
  /\ (length content <= MemoryPage.size page ->
      (MemoryPage.write page content).1 = Ok ()
      /\ MemoryPage.read (MemoryPage.write page content).2 = content
      /\ MemoryPage.size (MemoryPage.write page content).2 = MemoryPage.size page
      /\ MemoryPage.address (MemoryPage.write page content).2 = MemoryPage.address page).
Proof.
  unfold MemoryPage.write. split; intros Hlen.
  - by rewrite decide_True.
  - by rewrite decide_False by lia.
Qed.

(** ** SimulatedEnclave *)

Lemma foldl_app_concat {A} (f : A -> bytes) (acc : bytes) (l : list A) :
  foldl (fun h x => h ++ f x)%list acc l = (acc ++ concat (map f l))%list.
Proof.
  revert acc. induction l as [|x l IH]; intros acc; simpl.
  - by rewrite app_nil_r.
  - by rewrite IH, app_assoc.
Qed.

Section SimulatedEnclaveProperties.
Context `{Hashlib} `{Base64} `{Json}.
Import SimulatedEnclave.

Lemma check_segments_ok segments :
  check_segments segments = Ok () <-> [] ∉ segments.
Proof.
  induction segments as [|seg rest IH]; simpl.
  - split; [|done]. intros _ Hin. by apply elem_of_nil in Hin.
  - destruct (decide (length seg = 0)) as [Hz|Hnz].
    + destruct seg; [|done]. split; [done|]. intros Hn. destruct Hn. by left.
    + rewrite IH, not_elem_of_cons. split; [|tauto].
      intros Hr. split; [|done]. by intros <-.
Qed.

Lemma check_segments_raise segments e :
  check_segments segments = Raise e ->
  e = ValueError "Segments must be non-empty bytes-like objects" /\ [] ∈ segments.
Proof.
  induction segments as [|seg rest IH]; simpl; [done|].
  destruct (decide (length seg = 0)) as [Hz|Hnz].
  - intros [= <-]. destruct seg; [|done]. split; [done|]. by left.
  - intros Hr. destruct (IH Hr) as [-> Hin]. split; [done|]. by right.
Qed.

Lemma layout_lookup segments i :
  layout segments !! i =
  (fun seg => {| MemoryPage.address := N.of_nat i * 4096;
                 MemoryPage.size := length seg;
                 MemoryPage.data := seg |}) <$> segments !! i.
Proof. unfold layout. by rewrite list_lookup_imap. Qed.

Lemma layout_data segments : map MemoryPage.data (layout segments) = segments.
Proof.
  apply list_eq. intros i. rewrite list_lookup_fmap, layout_lookup.
  by destruct (segments !! i).
Qed.

Lemma _measure_eq self pages :
  _measure self pages =
  hex (sha256 (concat (map MemoryPage.data pages)
               ++ encode_utf8 (name self) ++ encode_utf8 (signer self))).
Proof.
  unfold _measure. rewrite foldl_app_concat. simpl. by rewrite <- app_assoc.
Qed.

Lemma load_invalid (self : t) segments :
  segments = [] \/ [] ∈ segments ->
  exists e, InvalidSegments e /\ load self segments = (Raise e, self).
Proof.
  intros [->|Hin].
  - eexists. split; [by left|done].
  - unfold load. destruct segments as [|seg rest]; [by apply elem_of_nil in Hin|].
    destruct (check_segments (seg :: rest)) as [[]|e] eqn:E.
    + by apply check_segments_ok in E.
    + apply check_segments_raise in E as [-> _].
      eexists. split; [by right|done].
Qed.

Lemma load_valid (self : t) segments :
  segments <> [] ->
  [] ∉ segments ->
  let m := hex (sha256 (concat segments
                        ++ encode_utf8 (name self) ++ encode_utf8 (signer self))) in
  load self segments =
    (Ok m, {| name := name self; signer := signer self;
              pages := layout segments; loaded := true; mrenclave := m;
              sealed_store := sealed_store self |}).
Proof.
  intros Hne Hnin. simpl. unfold load. destruct segments as [|seg rest]; [done|].
  destruct (check_segments (seg :: rest)) as [[]|e] eqn:E.
  - by rewrite _measure_eq, layout_data.
  - by apply check_segments_raise in E as [_ Hin].
Qed.

(** C6. [load] fails, with one of the two [InvalidSegments] errors and
    without touching the enclave, exactly when the list is empty or holds an
    empty segment.  Otherwise it returns the measurement, the digest of the
    segments in load order followed by name and signer; the enclave then
    holds one page per segment, page [i] at address [i * 0x1000] with the
    segment as its data and the segment's length as its size, is loaded, and
    carries that measurement. *)
Theorem load_spec (self : t) (segments : list bytes) :
  let invalid := segments = [] \/ [] ∈ segments in
  let m := hex (sha256 (concat segments
                        ++ encode_utf8 (name self) ++ encode_utf8 (signer self))) in
  ((exists e, (load self segments).1 = Raise e) <-> invalid)
  /\ (invalid ->
      exists e, InvalidSegments e /\ load self segments = (Raise e, self))
  /\ (~ invalid ->
      load self segments =
        (Ok m, {| name := name self; signer := signer self;
                  pages := layout segments; loaded := true; mrenclave := m;
                  sealed_store := sealed_store self |})
      /\ length (layout segments) = length segments
      /\ forall i seg, segments !! i = Some seg ->
           layout segments !! i =
             Some {| MemoryPage.address := N.of_nat i * 4096;
                     MemoryPage.size := length seg;
                     MemoryPage.data := seg |}).
Proof.
  intros invalid m. split; [|split].
  - split.
    + intros [e He].
      destruct (decide (segments = [])) as [|Hne]; [by left|].
      destruct (decide ([] ∈ segments)) as [|Hnin]; [by right|].
      by rewrite load_valid in He.
    + intros Hi. destruct (load_invalid self segments Hi) as (e & _ & ->).
      by exists e.
  - apply load_invalid.
  - intros Hv. split; [|split].
    + apply load_valid; intros ?; apply Hv; [by left|by right].
    + unfold layout. by rewrite length_imap.
    + intros i seg Hi. by rewrite layout_lookup, Hi.
Qed.

(** *** seal and unseal *)

Lemma seal_returns (e : t) kms identity data iv :
  identity <> "" ->
  (N.of_nat (length (json_dumps data)) <= 2 ^ 37)%N ->
  exists token e1 kms1, seal e kms identity data iv = (Ok token, e1, kms1).
Proof.
  intros Hid Hlen. unfold seal. rewrite decide_False by done.
  destruct (KMSMock.derive_key kms identity (mrenclave e)) as [key kms1].
  destruct (encrypt_returns key (json_dumps data) iv Hlen) as [token ->].
  eauto.
Qed.

Lemma seal_ok_inv (e : t) kms identity data iv token e1 kms1 :
  seal e kms identity data iv = (Ok token, e1, kms1) ->
  identity <> ""
  /\ kms1 = (KMSMock.derive_key kms identity (mrenclave e)).2
  /\ KMSMock.encrypt (KMSMock.derive_key kms identity (mrenclave e)).1
       (json_dumps data) iv = Ok token
  /\ e1 = set_sealed_store e (<[identity := token]> (sealed_store e)).
Proof.
  unfold seal. destruct (decide (identity = "")) as [|Hid]; [done|].
  destruct (KMSMock.derive_key kms identity (mrenclave e)) as [key kms'].
  destruct (KMSMock.encrypt key (json_dumps data) iv) as [tok|err] eqn:E; [|done].
  intros [= <- <- <-]. simpl. by rewrite E.
Qed.

Lemma unseal_missing (e : t) kms identity :
  sealed_store e !! identity = None ->
  unseal e kms identity = (Raise NoSealedData, kms).
Proof. intros Hn. unfold unseal. by rewrite Hn. Qed.

(** Unsealing on a KMS that already holds the key for this identity and
    measurement. *)
Lemma unseal_with_cached_key (e : t) kms identity token key :
  sealed_store e !! identity = Some token ->
  KMSMock._cache kms !! (identity ++ ":" ++ mrenclave e)%string = Some key ->
  unseal e kms identity =
  (match KMSMock.decrypt key token with
   | Raise err => Raise err
   | Ok data =>
       match json_loads data with
       | Some d => Ok d
       | None => Raise JsonError
       end
   end, kms).
Proof.
  intros Hs Hk. unfold unseal. rewrite Hs, (derive_key_hit _ _ _ _ Hk).
  destruct (KMSMock.decrypt key token) as [data|]; [|done].
  by destruct (json_loads data).
Qed.

Lemma seal_then_unseal (e : t) kms identity data iv token e1 kms1 :
  length iv = 16 ->
  seal e kms identity data iv = (Ok token, e1, kms1) ->
  sealed_store e1 = <[identity := token]> (sealed_store e)
  /\ mrenclave e1 = mrenclave e
  /\ forall kms2, KMSMock._cache kms1 ⊆ KMSMock._cache kms2 ->
       unseal e1 kms2 identity = (Ok data, kms2).
Proof.
  intros Hiv Hseal.
  apply seal_ok_inv in Hseal as (Hid & -> & Henc & ->). simpl.
  split; [done|]. split; [done|]. intros kms2 Hsub.
  pose proof (derive_key_cached kms identity (mrenclave e)) as Hc.
  eapply lookup_weaken in Hc; [|exact Hsub].
  erewrite unseal_with_cached_key; [|simpl; apply lookup_insert_eq|exact Hc].
  rewrite (decrypt_encrypt _ _ _ _ Hiv Henc). by rewrite json_loads_dumps.
Qed.

(** C5. Sealing and then unsealing the same identity returns the data
    exactly; [seal] succeeds for a non-empty identity and data whose
    serialisation is at most 2^37 bytes.  Sealing twice under one identity
    leaves the second token as the identity's entry, and unsealing recovers
    the second data.  Unsealing an identity with no entry fails with
    [NoSealedData].  This holds for every enclave; no reload happens between
    the calls, so the measurement is the same throughout. *)
Theorem seal_unseal_roundtrip (e : t) (kms : KMSMock.t) (identity : string)
    (data : json) (iv : bytes) :
  length iv = 16 ->
  (forall token e1 kms1,
     seal e kms identity data iv = (Ok token, e1, kms1) ->
     unseal e1 kms1 identity = (Ok data, kms1))
  /\ (identity <> "" ->
      (N.of_nat (length (json_dumps data)) <= 2 ^ 37)%N ->
      exists token e1 kms1,
        seal e kms identity data iv = (Ok token, e1, kms1)
        /\ unseal e1 kms1 identity = (Ok data, kms1))
  /\ (forall data2 iv2 token1 e1 kms1 token2 e2 kms2,
        length iv2 = 16 ->
        seal e kms identity data iv = (Ok token1, e1, kms1) ->
        seal e1 kms1 identity data2 iv2 = (Ok token2, e2, kms2) ->
        sealed_store e2 = <[identity := token2]> (sealed_store e)
        /\ unseal e2 kms2 identity = (Ok data2, kms2))
  /\ (sealed_store e !! identity = None ->
      unseal e kms identity = (Raise NoSealedData, kms)).
Proof.
  intros Hiv. split; [|split; [|split]].
  - intros token e1 kms1 Hseal.
    by apply (seal_then_unseal _ _ _ _ _ _ _ _ Hiv Hseal).
  - intros Hid Hlen.
    destruct (seal_returns e kms identity data iv Hid Hlen) as (token & e1 & kms1 & Hseal).
    exists token, e1, kms1. split; [done|].
    by apply (seal_then_unseal _ _ _ _ _ _ _ _ Hiv Hseal).
  - intros data2 iv2 token1 e1 kms1 token2 e2 kms2 Hiv2 Hs1 Hs2.
    destruct (seal_then_unseal _ _ _ _ _ _ _ _ Hiv Hs1) as (Hst1 & _ & _).
    destruct (seal_then_unseal _ _ _ _ _ _ _ _ Hiv2 Hs2) as (Hst2 & _ & Hun).
    split; [|by apply Hun].
    by rewrite Hst2, Hst1, insert_insert_eq.
  - apply unseal_missing.
Qed.

(** *** Reload *)

Lemma unseal_found (e : t) kms identity token :
  sealed_store e !! identity = Some token ->
  unseal e kms identity =
  (match KMSMock.decrypt (KMSMock.derive_key kms identity (mrenclave e)).1 token with
   | Raise err => Raise err
   | Ok data =>
       match json_loads data with
       | Some d => Ok d
       | None => Raise JsonError
       end
   end, (KMSMock.derive_key kms identity (mrenclave e)).2).
Proof.
  intros Hs. unfold unseal. rewrite Hs.
  destruct (KMSMock.derive_key kms identity (mrenclave e)) as [key kms']. simpl.
  destruct (KMSMock.decrypt key token) as [data|]; [|done].
  by destruct (json_loads data).
Qed.

Lemma unseal_found_not_missing (e : t) kms identity token :
  sealed_store e !! identity = Some token ->
  (unseal e kms identity).1 <> Raise NoSealedData.
Proof.
  intros Hs. rewrite (unseal_found _ _ _ _ Hs). simpl.
  destruct (KMSMock.decrypt _ token) as [data|err] eqn:E.
  - by destruct (json_loads data).
  - apply decrypt_raise_inv in E as [-> | [-> | ->]]; done.
Qed.

(** [decrypt] fails with the integrity error exactly when the recomputed
    tag differs from the stored one. *)
Lemma decrypt_integrity_iff key token data :
  urlsafe_b64decode token = Some data ->
  KMSMock.decrypt key token = Raise IntegrityError
  <-> hmac_sha256 key
        (take 16 data ++ take (length (drop 16 data) - 32) (drop 16 data))
      <> drop (length (drop 16 data) - 32) (drop 16 data).
Proof.
  intros Hd. split; [|by apply decrypt_tag_mismatch].
  unfold KMSMock.decrypt, KMSMock.compare_digest. rewrite Hd.
  case_bool_decide as Htag; simpl; [|done].
  unfold KMSMock._expand_keystream.
  destruct (KMSMock.expand_loop _ _ _ _) as [stream|err] eqn:E; simpl; [done|].
  apply expand_loop_raise_inv in E. by subst err.
Qed.

(** The token [seal] returns: the iv, a ciphertext as long as the
    serialised data, and the tag of both under the sealing key. *)
Lemma seal_token_layout (e0 : t) kms0 identity data iv token e kms :
  seal e0 kms0 identity data iv = (Ok token, e, kms) ->
  let key0 := (KMSMock.derive_key kms0 identity (mrenclave e0)).1 in
  exists ciphertext,
    token = urlsafe_b64encode (iv ++ ciphertext ++ hmac_sha256 key0 (iv ++ ciphertext))
    /\ length ciphertext = length (json_dumps data).
Proof.
  intros Hseal key0. apply seal_ok_inv in Hseal as (_ & _ & Henc & _).
  fold key0 in Henc. unfold KMSMock.encrypt in Henc.
  destruct (KMSMock._expand_keystream key0 iv (length (json_dumps data)))
    as [ks|] eqn:Hks; simpl in Henc; [|done].
  injection Henc as <-. eexists. split; [done|].
  apply xor_bytes_length. apply _expand_keystream_length in Hks. lia.
Qed.

(** C10 (amended). [load] on an enclave that is already loaded succeeds
    for valid segments: it replaces the page list and the measurement,
    keeps [loaded = true] and leaves [sealed_store] as it was.  So [unseal]
    of an identity sealed before still finds its token and does not fail
    with [NoSealedData]; it decrypts the token under the key of the new
    measurement, which (unless one is cached for the identity and that
    measurement) is the HMAC under the master secret of the PBKDF2 key of
    the identity salted with the digest of the new measurement.  [unseal]
    fails with [IntegrityError] exactly when the tag recomputed under that
    key differs from the stored tag, which is the tag under the key of the
    measurement the data was sealed for; and it returns the sealed data when
    the new measurement equals the old one. *)
Theorem reload_then_unseal (e : t) (kms : KMSMock.t) (segments : list bytes)
    (identity token : string) :
  loaded e = true ->
  segments <> [] ->
  [] ∉ segments ->
  sealed_store e !! identity = Some token ->
  exists e',
    let m := hex (sha256 (concat segments
                          ++ encode_utf8 (name e) ++ encode_utf8 (signer e))) in
    let key := (KMSMock.derive_key kms identity m).1 in
    let kms' := (KMSMock.derive_key kms identity m).2 in
    load e segments = (Ok m, e')
    /\ pages e' = layout segments /\ mrenclave e' = m /\ loaded e' = true
    /\ sealed_store e' = sealed_store e
    /\ (unseal e' kms identity).1 <> Raise NoSealedData
    /\ (unseal e' kms identity).2 = kms'
    /\ (KMSMock._cache kms !! (identity ++ ":" ++ m)%string = None ->
        key = hmac_sha256 (KMSMock._master_secret kms)
                (pbkdf2_hmac_sha256 (encode_utf8 identity) (sha256 (encode_utf8 m))
                   200000 32))
    /\ (forall err, KMSMock.decrypt key token = Raise err ->
          unseal e' kms identity = (Raise err, kms'))
    /\ (forall data, urlsafe_b64decode token = Some data ->
          hmac_sha256 key
            (take 16 data ++ take (length (drop 16 data) - 32) (drop 16 data))
          <> drop (length (drop 16 data) - 32) (drop 16 data)
          <-> unseal e' kms identity = (Raise IntegrityError, kms'))
    /\ (forall e0 kms0 data iv,
          length iv = 16 ->
          seal e0 kms0 identity data iv = (Ok token, e, kms) ->
          let key0 := (KMSMock.derive_key kms0 identity (mrenclave e0)).1 in
          exists ciphertext,
            urlsafe_b64decode token
            = Some (iv ++ ciphertext ++ hmac_sha256 key0 (iv ++ ciphertext))
            /\ length ciphertext = length (json_dumps data)
            /\ (hmac_sha256 key (iv ++ ciphertext) <> hmac_sha256 key0 (iv ++ ciphertext)
                <-> unseal e' kms identity = (Raise IntegrityError, kms')))
    /\ (forall e0 kms0 data iv,
          length iv = 16 ->
          seal e0 kms0 identity data iv = (Ok token, e, kms) ->
          KMSMock._cache kms0 !! (identity ++ ":" ++ mrenclave e0)%string = None ->
          KMSMock._cache kms0 !! (identity ++ ":" ++ m)%string = None ->
          m <> mrenclave e0 ->
          let derived context :=
            hmac_sha256 (KMSMock._master_secret kms0)
              (pbkdf2_hmac_sha256 (encode_utf8 identity) (sha256 (encode_utf8 context))
                 200000 32) in
          exists ciphertext,
            urlsafe_b64decode token
            = Some (iv ++ ciphertext
                    ++ hmac_sha256 (derived (mrenclave e0)) (iv ++ ciphertext))
            /\ (hmac_sha256 (derived m) (iv ++ ciphertext)
                <> hmac_sha256 (derived (mrenclave e0)) (iv ++ ciphertext)
                <-> unseal e' kms identity = (Raise IntegrityError, kms')))
    /\ (forall e0 kms0 data iv,
          length iv = 16 ->
          seal e0 kms0 identity data iv = (Ok token, e, kms) ->
          m = mrenclave e0 ->
          unseal e' kms identity = (Ok data, kms)).
Proof.
  intros Hl Hne Hnin Hs.
  pose proof (load_valid e segments Hne Hnin) as Hload. simpl in Hload.
  eexists. simpl. split; [exact Hload|]. simpl.
  split; [done|]. split; [done|]. split; [done|]. split; [done|].
  split; [by eapply unseal_found_not_missing|].
  split; [by erewrite unseal_found|].
  split; [apply derive_key_miss|].
  assert (forall data, urlsafe_b64decode token = Some data ->
            hmac_sha256
              (KMSMock.derive_key kms identity
                 (hex (sha256 (concat segments
                               ++ encode_utf8 (name e) ++ encode_utf8 (signer e))))).1
              (take 16 data ++ take (length (drop 16 data) - 32) (drop 16 data))
            <> drop (length (drop 16 data) - 32) (drop 16 data)
            <-> unseal
                  {| name := name e; signer := signer e; pages := layout segments;
                     loaded := true;
                     mrenclave :=
                       hex (sha256 (concat segments
                                    ++ encode_utf8 (name e) ++ encode_utf8 (signer e)));
                     sealed_store := sealed_store e |} kms identity
                = (Raise IntegrityError,
                   (KMSMock.derive_key kms identity
                      (hex (sha256 (concat segments
                                    ++ encode_utf8 (name e)
                                    ++ encode_utf8 (signer e))))).2)) as Hiff.
  { intros data Hd. rewrite <- (decrypt_integrity_iff _ _ _ Hd).
    erewrite unseal_found by done. simpl.
    destruct (KMSMock.decrypt _ token) as [plain|err].
    - split; [done|]. by destruct (json_loads plain).
    - split; [by intros [= ->]|by intros [= ->]]. }
  split; [|split; [|split; [|split]]].
  - intros err Herr. erewrite unseal_found by done. simpl. by rewrite Herr.
  - exact Hiff.
  - intros e0 kms0 data iv Hiv Hseal.
    destruct (seal_token_layout _ _ _ _ _ _ _ _ Hseal) as (ciphertext & -> & Hlen).
    exists ciphertext. split; [apply urlsafe_b64decode_encode|]. split; [done|].
    rewrite <- (Hiff _ (urlsafe_b64decode_encode _)).
    rewrite take_app_length' by done.
    rewrite drop_app_length' by done.
    rewrite length_app, hmac_sha256_length.
    replace (length ciphertext + 32 - 32) with (length ciphertext) by lia.
    by rewrite take_app_length, drop_app_length.
  - intros e0 kms0 data iv Hiv Hseal Hmiss0 Hmiss Hdiff.
    destruct (seal_token_layout _ _ _ _ _ _ _ _ Hseal) as (ciphertext & -> & Hlen).
    apply seal_ok_inv in Hseal as (_ & Hkms & _).
    exists ciphertext.
    rewrite <- (derive_key_miss kms0 identity (mrenclave e0)) by done.
    split; [apply urlsafe_b64decode_encode|].
    rewrite <- (Hiff _ (urlsafe_b64decode_encode _)).
    rewrite take_app_length' by done.
    rewrite drop_app_length' by done.
    rewrite length_app, hmac_sha256_length.
    replace (length ciphertext + 32 - 32) with (length ciphertext) by lia.
    rewrite take_app_length, drop_app_length.
    rewrite (derive_key_miss kms identity).
    + by rewrite Hkms, derive_key_master_secret.
    + rewrite Hkms. unfold KMSMock.derive_key. rewrite Hmiss0. cbn [snd KMSMock._cache].
      rewrite lookup_insert_ne; [done|].
      intros Heq. apply (inj (String.append identity)) in Heq.
      apply (inj (String.append ":")) in Heq. by destruct Hdiff.
  - intros e0 kms0 data iv Hiv Hseal Hm.
    destruct (seal_then_unseal _ _ _ _ _ _ _ _ Hiv Hseal) as (_ & Hmr & _).
    apply seal_ok_inv in Hseal as (_ & Hkms & Henc & _).
    pose proof (derive_key_cached kms0 identity (mrenclave e0)) as Hc.
    rewrite <- Hkms in Hc.
    erewrite unseal_with_cached_key; [|done|simpl; rewrite Hm; exact Hc].
    rewrite (decrypt_encrypt _ _ _ _ Hiv Henc). by rewrite json_loads_dumps.
Qed.

(** *** ecall *)

Section Dispatch.
Variable inherited : string -> option bool.

Abbreviation ecall := (SimulatedEnclave.ecall inherited).

Lemma ecall_unfold (e : t) kms rnd name args :
  ecall e kms rnd name args =
  if decide (name ∈ instance_fields ++ class_data) then
    Some (Raise (UnknownOperation name), e, kms)
  else
    match assoc name class_dict with
    | Some m =>
        if negb (takes m (length args)) then Some (Raise arguments_mismatch, e, kms)
        else
          match m, args with
          | m___init__, [VStr n] => Some (Ok VNone, __init__ n "lab", kms)
          | m___init__, [VStr n; VStr s] => Some (Ok VNone, __init__ n s, kms)
          | m_load, [VSegments segments] =>
              let '(r, e') := load e segments in Some (VStr <$> r, e', kms)
          | m__measure, [VPages ps] => Some (Ok (VStr (_measure e ps)), e, kms)
          | m_enter, [VHandler h] => Some (enter e kms h)
          | m_ecall, VStr name' :: args' => ecall e kms rnd name' args'
          | m_ocall, [VStr n; VJson payload] => Some (Ok (VEcho n payload), e, kms)
          | m_seal, [VStr ident; VJson d] =>
              let '(r, e', kms') := seal e kms ident d rnd in Some (VStr <$> r, e', kms')
          | m_unseal, [VStr ident] =>
              let '(r, kms') := unseal e kms ident in Some (VJson <$> r, e, kms')
          | m_attest, [] => Some (Ok (VReport (attest e "v1" rnd)), e, kms)
          | m_attest, [VStr policy_version] =>
              Some (Ok (VReport (attest e policy_version rnd)), e, kms)
          | _, _ => None
          end
    | None =>
        match inherited name with
        | Some true => None
        | _ => Some (Raise (UnknownOperation name), e, kms)
        end
    end.
Proof. by destruct args. Qed.

Lemma assoc_None {A} k (l : list (string * A)) :
  k ∉ map fst l -> assoc k l = None.
Proof.
  induction l as [|[k' v] l IH]; simpl; [done|].
  rewrite not_elem_of_cons. intros [Hk Hl].
  rewrite decide_False by done. by apply IH.
Qed.

Lemma assoc_Some {A} k (l : list (string * A)) v :
  assoc k l = Some v -> k ∈ map fst l.
Proof.
  induction l as [|[k' v'] l IH]; simpl; [done|].
  case_decide as Hk; [intros _; subst; apply list_elem_of_here|].
  intros Hl. apply list_elem_of_further. by apply IH.
Qed.

(** No method bears the name of a data attribute. *)
Lemma class_dict_not_data name m :
  assoc name class_dict = Some m -> name ∉ instance_fields ++ class_data.
Proof.
  intros Hm%assoc_Some Hd.
  assert (name ∈ list_intersection (map fst class_dict) (instance_fields ++ class_data))
    as Hin by by apply list_elem_of_intersection.
  vm_compute in Hin. by apply elem_of_nil in Hin.
Qed.

Lemma ecall_data (e : t) kms rnd name args :
  name ∈ instance_fields ++ class_data ->
  ecall e kms rnd name args = Some (Raise (UnknownOperation name), e, kms).
Proof. intros Hin. rewrite ecall_unfold. by rewrite decide_True. Qed.

Lemma ecall_not_in_class (e : t) kms rnd name args :
  name ∉ instance_fields ++ class_data ->
  name ∉ map fst class_dict ->
  ecall e kms rnd name args =
  match inherited name with
  | Some true => None
  | _ => Some (Raise (UnknownOperation name), e, kms)
  end.
Proof.
  intros Hf Hm. rewrite ecall_unfold.
  rewrite decide_False by done. by rewrite assoc_None.
Qed.

Lemma ecall_arity (e : t) kms rnd name m args :
  assoc name class_dict = Some m ->
  takes m (length args) = false ->
  ecall e kms rnd name args = Some (Raise arguments_mismatch, e, kms).
Proof.
  intros Hm Ht. rewrite ecall_unfold.
  rewrite decide_False by by eapply class_dict_not_data.
  by rewrite Hm, Ht.
Qed.

(** [seal], [unseal] and [attest] never read the [loaded] flag. *)
Lemma seal_ignores_loaded b (e : t) kms ident d iv :
  seal (set_loaded b e) kms ident d iv =
  let '(r, e', kms') := seal e kms ident d iv in (r, set_loaded b e', kms').
Proof.
  unfold seal. destruct (decide (ident = "")); [done|]. simpl.
  destruct (KMSMock.derive_key kms ident (mrenclave e)) as [key kms'].
  by destruct (KMSMock.encrypt key (json_dumps d) iv).
Qed.

Lemma unseal_ignores_loaded b (e : t) kms ident :
  unseal (set_loaded b e) kms ident = unseal e kms ident.
Proof. done. Qed.

Lemma attest_ignores_loaded b (e : t) policy_version rnd :
  attest (set_loaded b e) policy_version rnd = attest e policy_version rnd.
Proof. done. Qed.

(** C3 (amended). On a loaded enclave, [ecall] does not dispatch through a
    fixed table of trusted operations: it looks the name up as an attribute
    of the enclave object and calls what it finds, if that is callable.  It
    fails with [UnknownOperation] for the name of a data attribute (the six
    attributes [__init__] sets, the docstring and the module name of the
    class), and for any other name under which the object has no attribute
    or one that is not callable.  For every function of the class body it
    calls that function on the arguments, so that besides [seal], [unseal]
    and [attest] the names [load], [enter], [ecall], [ocall], [_measure] and
    [__init__] are dispatched too; the result and the new state are the
    function's own, and a number of positional arguments the function does
    not take is a [TypeError]. *)
Theorem ecall_dispatch (e : t) (kms : KMSMock.t) (rnd : bytes) :
  loaded e = true ->
  (forall name args,
     name ∈ instance_fields ++ class_data ->
     ecall e kms rnd name args = Some (Raise (UnknownOperation name), e, kms))
  /\ (forall name args,
        name ∉ instance_fields ++ class_data ->
        name ∉ map fst class_dict ->
        inherited name <> Some true ->
        ecall e kms rnd name args = Some (Raise (UnknownOperation name), e, kms))
  /\ (forall name m args,
        assoc name class_dict = Some m ->
        takes m (length args) = false ->
        ecall e kms rnd name args = Some (Raise arguments_mismatch, e, kms))
  /\ ecall e kms rnd "attest" [] = Some (Ok (VReport (attest e "v1" rnd)), e, kms)
  /\ (forall policy_version,
        ecall e kms rnd "attest" [VStr policy_version] =
          Some (Ok (VReport (attest e policy_version rnd)), e, kms))
  /\ (forall ident d,
        ecall e kms rnd "seal" [VStr ident; VJson d] =
          Some (let '(r, e', kms') := seal e kms ident d rnd in (VStr <$> r, e', kms')))
  /\ (forall ident,
        ecall e kms rnd "unseal" [VStr ident] =
          Some (let '(r, kms') := unseal e kms ident in (VJson <$> r, e, kms')))
  /\ (forall segments,
        ecall e kms rnd "load" [VSegments segments] =
          Some (let '(r, e') := load e segments in (VStr <$> r, e', kms)))
  /\ (forall n payload,
        ecall e kms rnd "ocall" [VStr n; VJson payload] =
          Some (Ok (VEcho n payload), e, kms))
  /\ (forall ps,
        ecall e kms rnd "_measure" [VPages ps] = Some (Ok (VStr (_measure e ps)), e, kms))
  /\ (forall h, ecall e kms rnd "enter" [VHandler h] = Some (h e kms))
  /\ (forall name args,
        ecall e kms rnd "ecall" (VStr name :: args) = ecall e kms rnd name args)
  /\ (forall n,
        ecall e kms rnd "__init__" [VStr n] = Some (Ok VNone, __init__ n "lab", kms))
  /\ (forall n s,
        ecall e kms rnd "__init__" [VStr n; VStr s] = Some (Ok VNone, __init__ n s, kms)).
Proof.
  intros Hloaded. split_and!.
  - apply ecall_data.
  - intros name args Hd Hc Hi. rewrite ecall_not_in_class by done.
    by destruct (inherited name) as [[|]|].
  - apply ecall_arity.
  - done.
  - done.
  - intros ident d. rewrite ecall_unfold. simpl.
    by destruct (seal e kms ident d rnd) as [[r e'] kms'].
  - intros ident. rewrite ecall_unfold. simpl.
    by destruct (unseal e kms ident) as [r kms'].
  - intros segments. rewrite ecall_unfold. simpl.
    by destruct (load e segments) as [r e'].
  - done.
  - done.
  - intros h. rewrite ecall_unfold. simpl. unfold enter. by rewrite Hloaded.
  - done.
  - done.
  - done.
Qed.

End Dispatch.

End SimulatedEnclaveProperties.

(** ** EnclaveRegistry *)

Section EnclaveRegistryProperties.
Context `{Hashlib}.
Import EnclaveRegistry.

(** [get_or_create] returns the enclave the registry holds under the name;
    for a new name that is a fresh enclave signed "lab", loaded with the
    single segment [b"init"].  Asking again returns the same enclave and
    leaves the registry as it is. *)
Lemma get_or_create_spec (self : t) (name : string) :
  exists enclave self',
    get_or_create self name = (Ok enclave, self')
    /\ _instances self' !! name = Some enclave
    /\ get_or_create self' name = (Ok enclave, self')
    /\ (forall other, other <> name ->
          _instances self' !! other = _instances self !! other)
    /\ (_instances self !! name = None ->
        SimulatedEnclave.loaded enclave = true
        /\ SimulatedEnclave.name enclave = name
        /\ SimulatedEnclave.signer enclave = "lab"
        /\ map MemoryPage.data (SimulatedEnclave.pages enclave) = [encode_utf8 "init"]
        /\ SimulatedEnclave.sealed_store enclave = ∅).
Proof.
  unfold get_or_create.
  destruct (_instances self !! name) as [enclave|] eqn:E.
  - exists enclave, self. rewrite E. by split_and!.
  - rewrite load_valid; [|done|].
    + eexists _, _. split; [done|]. simpl. rewrite lookup_insert_eq.
      split_and!; try done.
      intros other Hne. by rewrite lookup_insert_ne.
    + intros Hin. apply list_elem_of_singleton in Hin. discriminate.
Qed.

End EnclaveRegistryProperties.

(** ** EncryptedMemory *)

Section EncryptedMemoryProperties.
Context `{Hashlib} `{Base64}.
Import EncryptedMemory.

Lemma write_returns (self : t) kms page_id data iv :
  (N.of_nat (length data) <= 2 ^ 37)%N ->
  exists page memory kms',
    write self kms page_id data iv = (Ok page, memory, kms').
Proof.
  intros Hlen. unfold write.
  destruct (_derive_page_key kms (vm_id self) page_id) as [key kms'].
  destruct (encrypt_returns key data iv Hlen) as [token ->]. eauto.
Qed.

Lemma write_ok_inv (self : t) kms page_id data iv page memory kms' :
  write self kms page_id data iv = (Ok page, memory, kms') ->
  EncryptedPage.page_id page = page_id
  /\ KMSMock.encrypt (_derive_page_key kms (vm_id self) page_id).1 data iv
     = Ok (EncryptedPage.ciphertext page)
  /\ EncryptedPage.mac page = _mac (EncryptedPage.ciphertext page)
  /\ memory = {| vm_id := vm_id self; pages := <[page_id := page]> (pages self) |}
  /\ kms' = (_derive_page_key kms (vm_id self) page_id).2.
Proof.
  unfold write.
  destruct (_derive_page_key kms (vm_id self) page_id) as [key kms1].
  destruct (KMSMock.encrypt key data iv) as [token|e] eqn:E; [|done].
  intros [= <- <- <-]. simpl. by rewrite E.
Qed.

(** A page that was written reads back as the data written. *)
Lemma write_then_read (self : t) kms page_id data iv page memory kms' :
  length iv = 16 ->
  write self kms page_id data iv = (Ok page, memory, kms') ->
  read memory kms' page_id = (Ok data, kms').
Proof.
  intros Hiv Hw.
  apply write_ok_inv in Hw as (_ & Henc & Hmac & -> & ->).
  unfold read, _verify. simpl. rewrite lookup_insert_eq.
  unfold _derive_page_key in *. rewrite derive_key_deterministic. simpl.
  rewrite (decrypt_encrypt _ _ _ _ Hiv Henc), Hmac.
  by rewrite bool_decide_eq_true_2.
Qed.

(** C7 (amended). [read] fails with [PageNotFound] when the page is
    absent.  Otherwise it decrypts first: whatever [decrypt] raises
    ([MalformedToken], or [IntegrityError] for a tag mismatch) is what [read]
    raises, whether or not the stored digest agrees.  Only when [decrypt]
    returned does [read] recompute the digest of the token; it fails with the
    page integrity error when that differs from the stored digest, and
    returns the plaintext otherwise.  So plaintext is returned only when
    both checks passed. *)
Theorem read_spec (self : t) (kms : KMSMock.t) (page_id : Z) :
  (pages self !! page_id = None ->
   read self kms page_id = (Raise PageNotFound, kms))
  /\ (forall page,
        pages self !! page_id = Some page ->
        let token := EncryptedPage.ciphertext page in
        let key := (_derive_page_key kms (vm_id self) page_id).1 in
        let kms' := (_derive_page_key kms (vm_id self) page_id).2 in
        (forall e, KMSMock.decrypt key token = Raise e ->
                   read self kms page_id = (Raise e, kms'))
        /\ (forall data,
              KMSMock.decrypt key token = Ok data ->
              _mac token <> EncryptedPage.mac page ->
              read self kms page_id = (Raise PageIntegrityError, kms'))
        /\ (forall data,
              KMSMock.decrypt key token = Ok data ->
              _mac token = EncryptedPage.mac page ->
              read self kms page_id = (Ok data, kms'))
        /\ (forall data kms'',
              read self kms page_id = (Ok data, kms'') ->
              KMSMock.decrypt key token = Ok data
              /\ _mac token = EncryptedPage.mac page)).
Proof.
  split.
  - intros Hn. unfold read. by rewrite Hn.
  - intros page Hp. simpl. unfold read, _verify. rewrite Hp.
    destruct (_derive_page_key kms (vm_id self) page_id) as [key kms']. simpl.
    destruct (KMSMock.decrypt key (EncryptedPage.ciphertext page)) as [data|e].
    + case_bool_decide as Hm; simpl; split_and!; intros; split_and?; congruence.
    + split_and!; intros; split_and?; congruence.
Qed.

End EncryptedMemoryProperties.

(** ** SimulatedVM *)

Lemma StronglySorted_strict {A} (f : A -> Z) (l : list A) :
  StronglySorted (fun a b => (f a <= f b)%Z) l ->
  NoDup (map f l) ->
  StronglySorted (fun a b => (f a < f b)%Z) l.
Proof.
  induction 1 as [|a l Hs IH Hall]; intros Hnd; [constructor|].
  simpl in Hnd. apply NoDup_cons in Hnd as [Hnin Hnd].
  constructor; [by apply IH|].
  rewrite Forall_forall in Hall |- *. intros b Hb.
  specialize (Hall b Hb). simpl in Hall.
  assert (f a <> f b); [|lia].
  intros Heq. apply Hnin. rewrite Heq. by apply list_elem_of_fmap_2.
Qed.

Section SimulatedVMProperties.
Context `{Hashlib} `{Base64}.
Import SimulatedVM.

#[local] Instance key_le_transitive : Transitive key_le.
Proof. unfold key_le. intros x y z. lia. Qed.

#[local] Instance key_le_total : Total key_le.
Proof. unfold key_le. intros x y. lia. Qed.

Lemma sorted_items_elem_of pages k p :
  (k, p) ∈ sorted_items pages <-> pages !! k = Some p.
Proof.
  unfold sorted_items. rewrite merge_sort_Permutation.
  apply elem_of_map_to_list.
Qed.

Lemma sorted_items_ascending pages :
  StronglySorted (fun a b => (a.1 < b.1)%Z) (sorted_items pages).
Proof.
  apply (StronglySorted_strict fst).
  - apply (StronglySorted_merge_sort key_le); apply _.
  - unfold sorted_items. rewrite merge_sort_Permutation.
    apply NoDup_fst_map_to_list.
Qed.

Lemma measure_eq (vm : t) :
  measure vm =
  let m := hex (sha256 (encode_utf8 (vm_id vm) ++ encode_utf8 (owner vm)
                        ++ concat (map page_update
                                     (sorted_items (EncryptedMemory.pages (memory vm)))))) in
  (m, {| vm_id := vm_id vm; owner := owner vm; memory := memory vm;
         vcpus := vcpus vm; measurement := Some m |}).
Proof.
  unfold measure. rewrite foldl_app_concat. simpl. by rewrite <- app_assoc.
Qed.

(** C8. [measure] hashes the VM id and the owner and then, for each stored
    page in ascending order of page id, the page's token, digest and id.
    Measuring again without a write in between returns the same digest, and
    measuring changes nothing but the cached measurement: the pages (and the
    vCPUs) are as before. *)
Theorem measure_spec (vm : t) :
  let items := sorted_items (EncryptedMemory.pages (memory vm)) in
  let m := hex (sha256 (encode_utf8 (vm_id vm) ++ encode_utf8 (owner vm)
                        ++ concat (map page_update items))) in
  (measure vm).1 = m
  /\ (forall k p, (k, p) ∈ items <-> EncryptedMemory.pages (memory vm) !! k = Some p)
  /\ StronglySorted (fun a b => (a.1 < b.1)%Z) items
  /\ (forall item,
        page_update item =
          (encode_utf8 (EncryptedPage.ciphertext item.2)
           ++ encode_utf8 (EncryptedPage.mac item.2)
           ++ encode_utf8 (pretty item.1))%list)
  /\ (measure (measure vm).2).1 = (measure vm).1
  /\ measure (measure vm).2 = measure vm
  /\ (measure vm).2 =
       {| vm_id := vm_id vm; owner := owner vm; memory := memory vm;
          vcpus := vcpus vm; measurement := Some m |}.
Proof.
  intros items m.
  assert (measure vm =
            (m, {| vm_id := vm_id vm; owner := owner vm; memory := memory vm;
                   vcpus := vcpus vm; measurement := Some m |})) as Hm
    by apply measure_eq.
  assert (measure (measure vm).2 = measure vm) as Hagain.
  { rewrite Hm. cbn [snd]. by rewrite measure_eq. }
  rewrite Hagain, Hm. cbn [fst snd].
  split_and!; try done.
  - apply sorted_items_elem_of.
  - apply sorted_items_ascending.
Qed.

End SimulatedVMProperties.

(** ** SevLaunchManager *)


Section SevLaunchManagerProperties.
Context `{Hashlib} `{Base64}.
Import SevLaunchManager.

Lemma create_vm_fresh (self : t) owner rnd :
  let vm := (create_vm self owner rnd).1 in
  SimulatedVM.vcpus vm = []
  /\ EncryptedMemory.pages (SimulatedVM.memory vm) = ∅
  /\ vms (create_vm self owner rnd).2 !! SimulatedVM.vm_id vm = Some vm.
Proof. simpl. split_and!; try done. apply lookup_insert_eq. Qed.


End SevLaunchManagerProperties.

(** * Concrete runs

    The theorems above, applied to concrete inputs over the small library
    instance, and the inputs on which the code departs from the
    specification. *)

Section Runs.
Import Toy.

Example hex_bytes : hex ["000"%byte; "255"%byte; "026"%byte] = "00ff1a".
Proof. reflexivity. Qed.

Example to_bytes4_258 :
  KMSMock.to_bytes4 258 = Ok ["000"%byte; "000"%byte; "001"%byte; "002"%byte].
Proof. reflexivity. Qed.

Example to_bytes4_limit :
  KMSMock.to_bytes4 (2 ^ 32) = Raise (OverflowError "int too big to convert").
Proof. reflexivity. Qed.

Example str_of_negative_page_id : pretty (-15)%Z = "-15".
Proof. reflexivity. Qed.

Example xor_is_truncated_to_the_shorter :
  xor_bytes ["001"%byte; "002"%byte; "003"%byte] ["003"%byte; "003"%byte]
  = ["002"%byte; "001"%byte].
Proof. reflexivity. Qed.

Example layout_addresses :
  map MemoryPage.address
    (SimulatedEnclave.layout [encode_utf8 "a"; encode_utf8 "bc"; encode_utf8 "d"])
  = [0; 4096; 8192]%N.
Proof. reflexivity. Qed.

(** A short token splits into an empty ciphertext and a short tag. *)
Example decrypt_of_twenty_bytes :
  KMSMock.decrypt (encode_utf8 "key") (hex (repeat "001"%byte 20)) = Raise IntegrityError.
Proof. reflexivity. Qed.

(** A page written to an empty memory reads back. *)
Example write_read_page_one :
  let memory := {| EncryptedMemory.vm_id := "vm"; EncryptedMemory.pages := ∅ |} in
  let written := EncryptedMemory.write memory kms 1 (encode_utf8 "demo") iv in
  (EncryptedMemory.read written.1.2 written.2 1).1 = Ok (encode_utf8 "demo").
Proof. vm_compute. reflexivity. Qed.

(** C1, witness: a key, the plaintext [b"payload"] and an iv of sixteen
    zero bytes. *)
Lemma encrypt_decrypt_roundtrip_witness :
  exists token,
    KMSMock.encrypt (encode_utf8 "key") (encode_utf8 "payload") (repeat "000"%byte 16)
      = Ok token
    /\ KMSMock.decrypt (encode_utf8 "key") token = Ok (encode_utf8 "payload").
Proof.
  apply (proj2 (encrypt_decrypt_roundtrip (encode_utf8 "key") (encode_utf8 "payload")
                  (repeat "000"%byte 16) eq_refl)).
  vm_compute. discriminate.
Defined.

(** C4, counterexample: the empty token decodes to zero bytes, fewer than
    48, and [decrypt] fails with [IntegrityError], not [MalformedToken].
    So does, under a decoder that drops foreign characters, the token
    "!!!!", which is the encoding of nothing. *)
Lemma decrypt_short_token_counterexample :
  urlsafe_b64decode "" = Some []
  /\ length ([] : bytes) < 48
  /\ KMSMock.decrypt (encode_utf8 "key") "" = Raise IntegrityError
  /\ KMSMock.decrypt (encode_utf8 "key") "" <> Raise MalformedToken
  /\ Lenient.decode "!!!!" = Some []
  /\ KMSMock.decrypt (H0 := Lenient.base64) (encode_utf8 "key") "!!!!" = Raise IntegrityError
  /\ KMSMock.decrypt (H0 := Lenient.base64) (encode_utf8 "key") "!!!!"
     <> Raise MalformedToken.
Proof. vm_compute. split_and!; [done|lia|done|discriminate|done|done|discriminate]. Qed.

(** C4, witness: a token the decoder rejects, and the empty token. *)
Lemma decrypt_failures_witness :
  KMSMock.decrypt (encode_utf8 "key") "z" = Raise MalformedToken
  /\ KMSMock.decrypt (encode_utf8 "key") "" = Raise IntegrityError.
Proof.
  split.
  - apply (proj1 (proj1 (decrypt_failures (encode_utf8 "key") "z"))). reflexivity.
  - refine (proj1 (proj2 (decrypt_failures (encode_utf8 "key") "") [] _) _).
    + reflexivity.
    + simpl. lia.
Defined.

(** The code on an enclave that was never loaded: [ecall] serves [attest]
    and [seal] on it. *)
Example unloaded_enclave_is_served :
  let e := SimulatedEnclave.__init__ "demo" "lab" in
  let ecall := SimulatedEnclave.ecall no_inherited e kms iv in
  SimulatedEnclave.loaded e = false
  /\ fst <$> (fst <$> ecall "attest" []) =
       Some (Ok (SimulatedEnclave.VReport
                   {| AttestationReport.mrenclave := "";
                      AttestationReport.signer := "lab";
                      AttestationReport.nonce := "00000000000000000000000000000000";
                      AttestationReport.policy_version := "v1" |}))
  /\ (is_ok <$> (fst <$> (fst <$>
         ecall "seal" [SimulatedEnclave.VStr "alice"; SimulatedEnclave.VJson "{}"])))
     = Some true.
Proof. vm_compute. done. Qed.

(** C3, counterexample: on a loaded enclave, [ecall] dispatches [ocall],
    [load] and [__init__], none of them among the trusted operations, and
    the last leaves an enclave that is no longer loaded; a workload's name
    is not dispatched. *)
Lemma ecall_open_dispatch_counterexample :
  let e := (SimulatedEnclave.load (SimulatedEnclave.__init__ "demo" "lab")
              [encode_utf8 "init"]).2 in
  let ecall := SimulatedEnclave.ecall no_inherited e kms iv in
  SimulatedEnclave.loaded e = true
  /\ ecall "ocall" [SimulatedEnclave.VStr "host"; SimulatedEnclave.VJson "{}"]
     = Some (Ok (SimulatedEnclave.VEcho "host" "{}"), e, kms)
  /\ ecall "ocall" [SimulatedEnclave.VStr "host"; SimulatedEnclave.VJson "{}"]
     <> Some (Raise (UnknownOperation "ocall"), e, kms)
  /\ (is_ok <$> (fst <$> (fst <$>
         ecall "load" [SimulatedEnclave.VSegments [encode_utf8 "other"]])))
     = Some true
  /\ ecall "__init__" [SimulatedEnclave.VStr "other"]
     = Some (Ok SimulatedEnclave.VNone, SimulatedEnclave.__init__ "other" "lab", kms)
  /\ SimulatedEnclave.loaded (SimulatedEnclave.__init__ "other" "lab") = false
  /\ ecall "keyword_search" []
     = Some (Raise (UnknownOperation "keyword_search"), e, kms).
Proof.
  split_and!; [reflexivity|reflexivity|vm_compute; discriminate|vm_compute; reflexivity
              |reflexivity|reflexivity|reflexivity].
Qed.

(** C3, witness: the dispatch on the loaded enclave of the registry. *)
Lemma ecall_dispatch_witness :
  let e := (SimulatedEnclave.load (SimulatedEnclave.__init__ "demo" "lab")
              [encode_utf8 "init"]).2 in
  SimulatedEnclave.ecall no_inherited e kms iv "loaded" [] =
    Some (Raise (UnknownOperation "loaded"), e, kms)
  /\ SimulatedEnclave.ecall no_inherited e kms iv "__doc__" [] =
       Some (Raise (UnknownOperation "__doc__"), e, kms)
  /\ SimulatedEnclave.ecall no_inherited e kms iv "attest" [SimulatedEnclave.VStr "v2"] =
       Some (Ok (SimulatedEnclave.VReport (SimulatedEnclave.attest e "v2" iv)), e, kms)
  /\ SimulatedEnclave.ecall no_inherited e kms iv "unseal" [] =
       Some (Raise SimulatedEnclave.arguments_mismatch, e, kms)
  /\ SimulatedEnclave.ecall no_inherited e kms iv "enter"
       [SimulatedEnclave.VHandler (fun e k => (Ok SimulatedEnclave.VNone, e, k))] =
       Some (Ok SimulatedEnclave.VNone, e, kms).
Proof.
  intros e.
  destruct (ecall_dispatch no_inherited e kms iv eq_refl)
    as (Hdata & _ & Harity & _ & Hattest & _ & _ & _ & _ & _ & Henter & _).
  split_and!.
  - apply Hdata. apply (bool_decide_unpack _). vm_compute. exact I.
  - apply Hdata. apply (bool_decide_unpack _). vm_compute. exact I.
  - apply Hattest.
  - apply (Harity "unseal" SimulatedEnclave.m_unseal); reflexivity.
  - apply Henter.
Defined.

(** C5, witness: the enclave of the registry, loaded with [b"init"],
    sealing the empty dictionary for "alice". *)
Lemma seal_unseal_roundtrip_witness :
  let e := (SimulatedEnclave.load (SimulatedEnclave.__init__ "demo" "lab")
              [encode_utf8 "init"]).2 in
  exists token e1 kms1,
    SimulatedEnclave.seal e kms "alice" "{}" iv = (Ok token, e1, kms1)
    /\ SimulatedEnclave.unseal e1 kms1 "alice" = (Ok "{}", kms1).
Proof.
  intros e.
  refine (proj1 (proj2 (seal_unseal_roundtrip e kms "alice" "{}" iv _)) _ _).
  - reflexivity.
  - discriminate.
  - vm_compute. discriminate.
Defined.

(** C6, witness: an empty list, a list with an empty segment, and a valid
    list. *)
Lemma load_spec_witness :
  let e := SimulatedEnclave.__init__ "demo" "lab" in
  (exists err, InvalidSegments err /\ SimulatedEnclave.load e [] = (Raise err, e))
  /\ (exists err, InvalidSegments err
       /\ SimulatedEnclave.load e [encode_utf8 "init"; []] = (Raise err, e))
  /\ SimulatedEnclave.loaded (SimulatedEnclave.load e [encode_utf8 "init"]).2 = true.
Proof.
  intros e. split_and!.
  - apply (proj1 (proj2 (load_spec e []))). by left.
  - apply (proj1 (proj2 (load_spec e [encode_utf8 "init"; []]))).
    right. set_solver.
  - assert (~ ([encode_utf8 "init"] = [] \/ [] ∈ [encode_utf8 "init"])) as Hv.
    { intros [Hnil|Hin]; [done|]. apply list_elem_of_singleton in Hin. done. }
    destruct (proj2 (proj2 (load_spec e [encode_utf8 "init"])) Hv) as (-> & _).
    reflexivity.
Defined.

(** C7, counterexample: a stored page whose token is not valid transport
    encoding and whose stored digest disagrees with the token.  The
    specification has [read] fail on the digest before it decrypts; the code
    decrypts first and fails with [MalformedToken]. *)
Lemma read_decrypts_first_counterexample :
  let page := {| EncryptedPage.page_id := 1; EncryptedPage.ciphertext := "z";
                 EncryptedPage.mac := "" |} in
  let memory := {| EncryptedMemory.vm_id := "vm";
                   EncryptedMemory.pages := {[ 1%Z := page ]} |} in
  EncryptedMemory._verify "z" "" = false
  /\ (EncryptedMemory.read memory kms 1).1 = Raise MalformedToken
  /\ MalformedToken <> PageIntegrityError
  /\ MalformedToken <> IntegrityError.
Proof. vm_compute. done. Qed.

(** C7, witness: the same page, through the theorem. *)
Lemma read_spec_witness :
  let page := {| EncryptedPage.page_id := 1; EncryptedPage.ciphertext := "z";
                 EncryptedPage.mac := "" |} in
  let memory := {| EncryptedMemory.vm_id := "vm";
                   EncryptedMemory.pages := {[ 1%Z := page ]} |} in
  (EncryptedMemory.read memory kms 2).1 = Raise PageNotFound
  /\ (EncryptedMemory.read memory kms 1).1 = Raise MalformedToken.
Proof.
  intros page memory.
  destruct (read_spec memory kms 1) as (_ & Hfound).
  destruct (read_spec memory kms 2) as (Hmissing & _).
  split.
  - rewrite Hmissing; reflexivity.
  - destruct (Hfound page eq_refl) as (Hraise & _).
    rewrite (Hraise MalformedToken); reflexivity.
Defined.

(** C8, witness: a VM with pages 10 and 2 is measured page 2 first. *)
Lemma measure_spec_witness :
  let p2 := {| EncryptedPage.page_id := 2; EncryptedPage.ciphertext := "bb";
               EncryptedPage.mac := "22" |} in
  let p10 := {| EncryptedPage.page_id := 10; EncryptedPage.ciphertext := "aa";
                EncryptedPage.mac := "11" |} in
  let vm := {| SimulatedVM.vm_id := "vm"; SimulatedVM.owner := "researcher";
               SimulatedVM.memory :=
                 {| EncryptedMemory.vm_id := "vm";
                    EncryptedMemory.pages := <[ 10%Z := p10 ]> {[ 2%Z := p2 ]} |};
               SimulatedVM.vcpus := []; SimulatedVM.measurement := None |} in
  (SimulatedVM.measure vm).1 =
    hex (sha256 (encode_utf8 "vm" ++ encode_utf8 "researcher"
                 ++ encode_utf8 "bb" ++ encode_utf8 "22" ++ encode_utf8 "2"
                 ++ encode_utf8 "aa" ++ encode_utf8 "11" ++ encode_utf8 "10"))
  /\ (SimulatedVM.measure (SimulatedVM.measure vm).2).1 = (SimulatedVM.measure vm).1.
Proof.
  intros p2 p10 vm.
  destruct (measure_spec vm) as (Hm & _ & _ & _ & Hagain & _).
  split; [|exact Hagain].
  rewrite Hm. reflexivity.
Defined.


(** C10, counterexample: the enclave is loaded with [b"ab"], [b"c"], seals
    for "alice", and is loaded again with the different segments [b"a"],
    [b"bc"].  The measurement is the same, and [unseal] returns the data. *)
Lemma reload_same_bytes_counterexample :
  let segments := [encode_utf8 "ab"; encode_utf8 "c"] in
  let segments' := [encode_utf8 "a"; encode_utf8 "bc"] in
  let e0 := (SimulatedEnclave.load (SimulatedEnclave.__init__ "demo" "lab") segments).2 in
  let sealed := SimulatedEnclave.seal e0 kms "alice" "{}" iv in
  let e1 := sealed.1.2 in
  let e2 := (SimulatedEnclave.load e1 segments').2 in
  segments <> segments'
  /\ SimulatedEnclave.loaded e1 = true
  /\ is_ok sealed.1.1 = true
  /\ SimulatedEnclave.pages e2 <> SimulatedEnclave.pages e1
  /\ (SimulatedEnclave.unseal e2 sealed.2 "alice").1 = Ok "{}".
Proof. vm_compute. split_and!; done. Qed.

(** C10, witness: the enclave of the registry seals for "alice" and is
    loaded again with [b"next"]: the token is found, and its tag does not
    verify under the key of the new measurement. *)
Lemma reload_then_unseal_witness :
  let e0 := (SimulatedEnclave.load (SimulatedEnclave.__init__ "demo" "lab")
               [encode_utf8 "init"]).2 in
  let sealed := SimulatedEnclave.seal e0 kms "alice" "{}" iv in
  let e1 := sealed.1.2 in
  exists e2,
    (SimulatedEnclave.load e1 [encode_utf8 "next"]).2 = e2
    /\ SimulatedEnclave.loaded e2 = true
    /\ SimulatedEnclave.mrenclave e2 <> SimulatedEnclave.mrenclave e1
    /\ SimulatedEnclave.sealed_store e2 = SimulatedEnclave.sealed_store e1
    /\ (SimulatedEnclave.unseal e2 sealed.2 "alice").1 <> Raise NoSealedData
    /\ (SimulatedEnclave.unseal e2 sealed.2 "alice").1 = Raise IntegrityError.
Proof.
  intros e0 sealed e1.
  pose (token := default "" (SimulatedEnclave.sealed_store e1 !! "alice")).
  pose (data := default [] (urlsafe_b64decode token)).
  destruct (reload_then_unseal e1 sealed.2 [encode_utf8 "next"] "alice" token)
    as (e2 & Hload & _ & Hm & Hloaded & Hstore & Hfound & _ & _ & _ & Htag & _).
  - reflexivity.
  - discriminate.
  - intros Hin. apply list_elem_of_singleton in Hin. discriminate.
  - vm_compute. reflexivity.
  - exists e2. split; [by rewrite Hload|]. split; [exact Hloaded|].
    split; [rewrite Hm; vm_compute; discriminate|].
    split; [exact Hstore|]. split; [exact Hfound|].
    rewrite (proj1 (Htag data ltac:(vm_compute; reflexivity))); [reflexivity|].
    vm_compute. discriminate.
Defined.

End Runs.

(** * Further properties *)

(** ** KMSMock, continued *)

Lemma byte_xor_to_N a b :
  Byte.to_N (byte_xor a b) = N.lxor (Byte.to_N a) (Byte.to_N b).
Proof.
  unfold byte_xor. apply byte_of_to_N, lxor_byte_bound; apply Byte.to_N_bounded.
Qed.

Lemma byte_to_N_inj a b : Byte.to_N a = Byte.to_N b -> a = b.
Proof.
  intros Heq. apply (f_equal Byte.of_N) in Heq.
  rewrite !Byte.of_to_N in Heq. by injection Heq.
Qed.

(** [(p ^ k) ^ (q ^ k) = p ^ q] *)
Lemma byte_xor_cancel p q k : byte_xor (byte_xor p k) (byte_xor q k) = byte_xor p q.
Proof.
  apply byte_to_N_inj. rewrite !byte_xor_to_N.
  rewrite (N.lxor_comm (Byte.to_N q)), N.lxor_assoc.
  rewrite <- (N.lxor_assoc (Byte.to_N k)), N.lxor_nilpotent, N.lxor_0_l. done.
Qed.

Lemma xor_bytes_shared_stream p1 p2 ks :
  length p1 <= length ks ->
  length p2 <= length ks ->
  xor_bytes (xor_bytes p1 (take (length p1) ks)) (xor_bytes p2 (take (length p2) ks))
  = xor_bytes p1 p2.
Proof.
  unfold xor_bytes. revert p2 ks.
  induction p1 as [|a p1 IH]; intros [|b p2] [|k ks] H1 H2; simpl in *; try done; try lia.
  rewrite byte_xor_cancel, IH; [done|lia|lia].
Qed.

Section KMSMockMore.
Context `{Hashlib} `{Base64}.

Lemma expand_loop_step material len stream counter :
  KMSMock.expand_loop material len stream counter =
  if decide (length stream < len) then
    cb ← KMSMock.to_bytes4 counter;
    KMSMock.expand_loop material len (stream ++ sha256 (material ++ cb)) (counter + 1)
  else Ok stream.
Proof. apply expand_loop_unfold. Qed.

Import KMSMock.

Lemma expand_loop_extends material len stream counter s :
  expand_loop material len stream counter = Ok s -> stream `prefix_of` s.
Proof.
  funelim (expand_loop material len stream counter).
  - by intros [= <-].
  - intros Hs. trans (stream ++ sha256 (material ++ cb)); [by apply prefix_app_r|by apply H1].
  - done.
Qed.

(** A shorter request runs the same loop and stops earlier. *)
Lemma expand_loop_shorter material len stream counter s len' :
  expand_loop material len stream counter = Ok s ->
  len' <= len ->
  exists s', expand_loop material len' stream counter = Ok s'
             /\ s' `prefix_of` s.
Proof.
  funelim (expand_loop material len stream counter); intros Hs Hle.
  - injection Hs as <-. exists stream. split; [|done].
    rewrite expand_loop_step. rewrite decide_False; [done|lia].
  - rewrite (expand_loop_step _ len').
    destruct (decide (length stream < len')) as [Hlt|Hge].
    + rewrite Heq. simpl. by apply H1.
    + exists stream. split; [done|].
      trans (stream ++ sha256 (material ++ cb)); [by apply prefix_app_r|].
      by eapply expand_loop_extends.
  - done.
Qed.

Lemma _expand_keystream_prefix key iv n m ks :
  _expand_keystream key iv n = Ok ks ->
  m <= n ->
  _expand_keystream key iv m = Ok (take m ks).
Proof.
  unfold _expand_keystream. intros Hn Hle.
  destruct (expand_loop (key ++ iv) n [] 0%N) as [s|] eqn:Es; simpl in Hn; [|done].
  injection Hn as <-.
  destruct (expand_loop_shorter _ _ _ _ _ m Es Hle) as (s' & Es' & [t ->]).
  rewrite Es'. simpl. f_equal.
  apply expand_loop_covers in Es'.
  rewrite take_take, Nat.min_l by lia.
  by rewrite take_app_le by lia.
Qed.

(** X1. [_expand_keystream] returns exactly [length] bytes for every
    length up to 2^37 and raises [OverflowError] for every longer one: the
    block counter has four bytes.  *)
Theorem keystream_length_and_limit (key iv : bytes) (len : nat) :
  ((N.of_nat len <= 2 ^ 37)%N ->
   exists ks, _expand_keystream key iv len = Ok ks /\ length ks = len)
  /\ ((2 ^ 37 < N.of_nat len)%N ->
      _expand_keystream key iv len = Raise (OverflowError "int too big to convert")).
Proof.
  split; intros Hlen.
  - destruct (_expand_keystream_returns key iv len Hlen) as [ks Hks].
    exists ks. split; [done|]. by eapply _expand_keystream_length.
  - unfold _expand_keystream.
    rewrite expand_loop_overflow; [done|simpl; lia|lia|lia].
Qed.

(** X2. The keystream of a key and an iv does not depend on the length
    asked for: the stream for a shorter length is the beginning of the
    stream for a longer one. *)
Theorem keystream_prefix (key iv : bytes) (n m : nat) (ks : bytes) :
  _expand_keystream key iv n = Ok ks ->
  m <= n ->
  _expand_keystream key iv m = Ok (take m ks).
Proof. apply _expand_keystream_prefix. Qed.

Lemma encrypt_ok_inv key plaintext iv token :
  encrypt key plaintext iv = Ok token ->
  exists ks,
    _expand_keystream key iv (length plaintext) = Ok ks
    /\ length ks = length plaintext
    /\ token = urlsafe_b64encode
                 (iv ++ xor_bytes plaintext ks
                  ++ hmac_sha256 key (iv ++ xor_bytes plaintext ks)).
Proof.
  unfold encrypt.
  destruct (_expand_keystream key iv (length plaintext)) as [ks|] eqn:E; simpl; [|done].
  intros [= <-]. exists ks. split; [done|]. split; [|done].
  by eapply _expand_keystream_length.
Qed.

(** X3. A token decodes to the iv, a ciphertext as long as the plaintext
    and the 32-byte tag over iv and ciphertext, in that order: 48 bytes more
    than the plaintext for a 16-byte iv. *)
Theorem encrypt_token_layout (key plaintext iv : bytes) (token : string) :
  encrypt key plaintext iv = Ok token ->
  exists ciphertext data,
    urlsafe_b64decode token = Some data
    /\ data = iv ++ ciphertext ++ hmac_sha256 key (iv ++ ciphertext)
    /\ length ciphertext = length plaintext
    /\ length data = length iv + length plaintext + 32.
Proof.
  intros Henc. apply encrypt_ok_inv in Henc as (ks & _ & Hks & ->).
  eexists _, _. rewrite urlsafe_b64decode_encode.
  split; [done|]. split; [done|].
  rewrite !length_app, hmac_sha256_length, xor_bytes_length by lia. lia.
Qed.

(** X4. A token whose 32-byte tag is not the tag of its iv and ciphertext
    is rejected with [IntegrityError], whatever the ciphertext is. *)
Theorem decrypt_rejects_altered_tag (key iv ciphertext tag : bytes) :
  length iv = 16 ->
  length tag = 32 ->
  tag <> hmac_sha256 key (iv ++ ciphertext) ->
  decrypt key (urlsafe_b64encode (iv ++ ciphertext ++ tag)) = Raise IntegrityError.
Proof.
  intros Hiv Htag Hne.
  apply (decrypt_tag_mismatch _ _ (iv ++ ciphertext ++ tag));
    [apply urlsafe_b64decode_encode|].
  rewrite take_app_length', drop_app_length' by done.
  rewrite length_app, Htag.
  replace (length ciphertext + 32 - 32) with (length ciphertext) by lia.
  rewrite take_app_length, drop_app_length. congruence.
Qed.

(** X5. Two plaintexts encrypted under the same key with the same iv get
    the same keystream: the exclusive-or of the two ciphertexts is the
    exclusive-or of the two plaintexts (over the length of the shorter). *)
Theorem iv_reuse_leaks_xor (key iv p1 p2 : bytes) (t1 t2 : string) :
  encrypt key p1 iv = Ok t1 ->
  encrypt key p2 iv = Ok t2 ->
  exists c1 c2,
    urlsafe_b64decode t1 = Some (iv ++ c1 ++ hmac_sha256 key (iv ++ c1))
    /\ urlsafe_b64decode t2 = Some (iv ++ c2 ++ hmac_sha256 key (iv ++ c2))
    /\ xor_bytes c1 c2 = xor_bytes p1 p2.
Proof.
  intros H1' H2'.
  apply encrypt_ok_inv in H1' as (ks1 & Hk1 & Hl1 & ->).
  apply encrypt_ok_inv in H2' as (ks2 & Hk2 & Hl2 & ->).
  eexists _, _. rewrite !urlsafe_b64decode_encode.
  split; [done|]. split; [done|].
  destruct (decide (length p1 <= length p2)) as [Hle|Hgt].
  - pose proof (_expand_keystream_prefix _ _ _ _ _ Hk2 Hle) as Hp.
    rewrite Hk1 in Hp. injection Hp as ->.
    rewrite <- (take_ge ks2 (length p2)) at 2 by lia.
    apply xor_bytes_shared_stream; lia.
  - assert (length p2 <= length p1) as Hle by lia.
    pose proof (_expand_keystream_prefix _ _ _ _ _ Hk1 Hle) as Hp.
    rewrite Hk2 in Hp. injection Hp as ->.
    rewrite <- (take_ge ks1 (length p1)) at 1 by lia.
    apply xor_bytes_shared_stream; lia.
Qed.

Lemma derive_all_cache_mono kms calls :
  _cache kms ⊆ _cache (derive_all kms calls)
  /\ _master_secret (derive_all kms calls) = _master_secret kms.
Proof.
  revert kms. induction calls as [|[i c] calls IH]; intros kms; simpl; [done|].
  destruct (IH (derive_key kms i c).2) as [Hsub Hms].
  split.
  - trans (_cache (derive_key kms i c).2); [apply derive_key_cache_mono|done].
  - by rewrite Hms, derive_key_master_secret.
Qed.

(** X6. Once [derive_key] has answered for an identity and a context, it
    gives the same key for them ever after, whatever else is derived on the
    same KMS in between, and the later call changes nothing; the master
    secret never changes. *)
Theorem derive_key_stable (kms : KMSMock.t) (identity context : string)
    (calls : list (string * string)) :
  let first := derive_key kms identity context in
  let later := derive_all first.2 calls in
  derive_key later identity context = (first.1, later)
  /\ _master_secret later = _master_secret kms.
Proof.
  intros first later.
  destruct (derive_all_cache_mono first.2 calls) as [Hsub Hms].
  split.
  - apply derive_key_hit. eapply lookup_weaken; [|exact Hsub].
    apply derive_key_cached.
  - subst later first. by rewrite Hms, derive_key_master_secret.
Qed.

End KMSMockMore.

(** ** SimulatedEnclave, continued *)

Lemma hex_no_colon bs : no_colon (hex bs).
Proof.
  induction bs as [|b bs IH]; simpl; [done|].
  split; [|split; [|done]]; by destruct b.
Qed.

Lemma no_colon_app_colon a m : ~ no_colon (a ++ String ":" m)%string.
Proof. induction a as [|c a IH]; simpl; tauto. Qed.

(** A text without a colon after the last colon of a key is determined by
    the key, and so is what stands before that colon. *)
Lemma cache_key_split a b m1 m2 :
  no_colon m1 ->
  no_colon m2 ->
  (a ++ String ":" m1)%string = (b ++ String ":" m2)%string ->
  a = b /\ m1 = m2.
Proof.
  intros Hm1 Hm2. revert b.
  induction a as [|c a IH]; intros [|d b]; cbn; intros Heq.
  - by injection Heq.
  - injection Heq as _ Hm. rewrite Hm in Hm1. by apply no_colon_app_colon in Hm1.
  - injection Heq as _ Hm. rewrite <- Hm in Hm2. by apply no_colon_app_colon in Hm2.
  - injection Heq as -> Heq. destruct (IH _ Heq) as [-> ->]. done.
Qed.

Section SimulatedEnclaveMore.
Context `{Hashlib} `{Base64} `{Json}.
Import SimulatedEnclave.

Lemma seal_raise_inv (e : t) kms ident d iv err e' kms' :
  seal e kms ident d iv = (Raise err, e', kms') ->
  e' = e
  /\ ((ident = "" /\ err = ValueError "identity is required" /\ kms' = kms)
      \/ (ident <> ""
          /\ err = OverflowError "int too big to convert"
          /\ kms' = (KMSMock.derive_key kms ident (mrenclave e)).2
          /\ (2 ^ 37 < N.of_nat (length (json_dumps d)))%N)).
Proof.
  unfold seal. destruct (decide (ident = "")) as [->|Hid].
  - intros [= <- <- <-]. split; [done|]. by left.
  - destruct (KMSMock.derive_key kms ident (mrenclave e)) as [key kms1] eqn:Ek.
    destruct (KMSMock.encrypt key (json_dumps d) iv) as [tok|err'] eqn:E; [done|].
    intros [= <- <- <-]. split; [done|]. right. split; [done|].
    destruct (decide (N.of_nat (length (json_dumps d)) <= 2 ^ 37)%N) as [Hle|Hgt].
    + destruct (encrypt_returns key (json_dumps d) iv Hle) as [tok Htok]. congruence.
    + rewrite encrypt_overflow in E by lia. injection E as <-.
      split; [done|]. split; [done|]. lia.
Qed.

(** X7. A [seal] that raises leaves the enclave exactly as it was, and
    the KMS with its master secret and with every key it had cached.  For
    the empty identity it raises "identity is required" before the KMS is
    touched.  For a non-empty identity that encodes as UTF-8, on an enclave
    whose measurement does, it raises [OverflowError]: the serialised data
    then exceeds 2^37 bytes, and the key is already derived and cached. *)
Theorem seal_failure_changes_nothing (e : t) (kms : KMSMock.t) (ident : string)
    (d : json) (iv : bytes) (err : exn) (e' : t) (kms' : KMSMock.t) :
  seal e kms ident d iv = (Raise err, e', kms') ->
  e' = e
  /\ KMSMock._master_secret kms' = KMSMock._master_secret kms
  /\ KMSMock._cache kms ⊆ KMSMock._cache kms'
  /\ (ident = "" -> err = ValueError "identity is required" /\ kms' = kms)
  /\ (ident <> "" ->
      has_surrogate ident = false ->
      has_surrogate (mrenclave e) = false ->
      err = OverflowError "int too big to convert"
      /\ kms' = (KMSMock.derive_key kms ident (mrenclave e)).2
      /\ (2 ^ 37 < N.of_nat (length (json_dumps d)))%N).
Proof.
  intros Hs. apply seal_raise_inv in Hs as (-> & [(-> & -> & ->)|(Hid & -> & -> & Hlen)]).
  - split; [done|]. split; [done|]. split; [done|]. split; [done|].
    intros Hne. by destruct Hne.
  - split; [done|]. split; [apply derive_key_master_secret|].
    split; [apply derive_key_cache_mono|]. split; [intros Hempty; by destruct Hid|].
    done.
Qed.

(** X8. Sealing for one identity does not disturb what was sealed for
    another: after a later [seal] under a different identity, the first
    identity's token is still stored and unseals to the first data. *)
Theorem seal_keeps_other_identities (e : t) (kms : KMSMock.t)
    (id1 id2 : string) (d1 d2 : json) (iv1 iv2 : bytes)
    (t1 t2 : string) (e1 e2 : t) (kms1 kms2 : KMSMock.t) :
  length iv1 = 16 ->
  id1 <> id2 ->
  seal e kms id1 d1 iv1 = (Ok t1, e1, kms1) ->
  seal e1 kms1 id2 d2 iv2 = (Ok t2, e2, kms2) ->
  sealed_store e2 !! id1 = Some t1
  /\ unseal e2 kms2 id1 = (Ok d1, kms2).
Proof.
  intros Hiv Hne Hs1 Hs2.
  pose proof (seal_ok_inv _ _ _ _ _ _ _ _ Hs1) as (_ & Hk1 & Henc1 & He1).
  pose proof (seal_ok_inv _ _ _ _ _ _ _ _ Hs2) as (_ & Hk2 & _ & He2).
  assert (sealed_store e2 !! id1 = Some t1) as Hst.
  { subst e2 e1. simpl. rewrite lookup_insert_ne by done. apply lookup_insert_eq. }
  split; [done|].
  assert (mrenclave e2 = mrenclave e) as Hm by (by subst e2 e1).
  pose proof (derive_key_cached kms id1 (mrenclave e)) as Hc.
  rewrite <- Hk1 in Hc.
  assert (KMSMock._cache kms1 ⊆ KMSMock._cache kms2) as Hsub
    by (rewrite Hk2; apply derive_key_cache_mono).
  eapply lookup_weaken in Hc; [|exact Hsub].
  erewrite unseal_with_cached_key; [|exact Hst|rewrite Hm; exact Hc].
  rewrite (decrypt_encrypt _ _ _ _ Hiv Henc1). by rewrite json_loads_dumps.
Qed.

Lemma load_measured (e : t) segments :
  measured e -> measured (load e segments).2.
Proof.
  intros Hm. unfold load. destruct segments as [|seg rest]; [done|].
  destruct (check_segments (seg :: rest)); [|done].
  simpl. rewrite _measure_eq. by eexists.
Qed.

Lemma seal_measured (e : t) kms ident d iv :
  measured e -> measured (seal e kms ident d iv).1.2.
Proof.
  intros Hm.
  destruct (seal e kms ident d iv) as [[[tok|err] e'] kms'] eqn:E.
  - by apply seal_ok_inv in E as (_ & _ & _ & ->).
  - by apply seal_raise_inv in E as (-> & _).
Qed.

(** X9. The measurement of an enclave is empty or the hexadecimal text of
    a digest, from [__init__] on and through every [load] and [seal]; it
    holds no colon.  So the cache key [seal] and [unseal] derive under,
    identity, colon, measurement, determines both parts: two sealings share
    a cached key only when identity and measurement are the same. *)
Theorem seal_cache_key_unambiguous (e1 e2 : t) (id1 id2 : string) :
  (forall n s, measured (__init__ n s))
  /\ (forall segments, measured e1 -> measured (load e1 segments).2)
  /\ (forall kms ident d iv, measured e1 -> measured (seal e1 kms ident d iv).1.2)
  /\ (measured e1 -> measured e2 ->
      (id1 ++ ":" ++ mrenclave e1)%string = (id2 ++ ":" ++ mrenclave e2)%string ->
      id1 = id2 /\ mrenclave e1 = mrenclave e2).
Proof.
  split_and!.
  - intros n s. by exists [].
  - intros segments. apply load_measured.
  - intros kms ident d iv. apply seal_measured.
  - intros [b1 Hb1] [b2 Hb2]. rewrite Hb1, Hb2.
    apply (cache_key_split id1 id2 (hex b1) (hex b2)); apply hex_no_colon.
Qed.

End SimulatedEnclaveMore.

(** ** EncryptedMemory, continued *)

Lemma hex_inj (a b : bytes) : hex a = hex b -> a = b.
Proof.
  intros Heq. apply (f_equal Toy.unhex) in Heq.
  rewrite !Toy.unhex_hex in Heq. congruence.
Qed.

Lemma pretty_N_go_no_colon (x : N) (s : string) :
  no_colon s -> no_colon (pretty_N_go x s).
Proof.
  revert s. induction (N.lt_wf_0 x) as [x _ IH]; intros s Hs.
  destruct (decide (0 < x)%N) as [Hx|Hx].
  - rewrite pretty_N_go_step by done. apply IH.
    + by apply N.div_lt.
    + split; [|done]. unfold pretty_N_char. by repeat case_match.
  - assert (x = 0%N) as -> by lia. by rewrite pretty_N_go_0.
Qed.

Lemma pretty_N_no_colon (x : N) : no_colon (pretty x).
Proof.
  unfold pretty, pretty_N. case_decide; [by split|].
  by apply pretty_N_go_no_colon.
Qed.

Lemma pretty_Z_no_colon (x : Z) : no_colon (pretty x).
Proof.
  destruct x as [|p|p]; cbn -[pretty_N].
  - by split.
  - apply pretty_N_no_colon.
  - split; [done|]. apply pretty_N_no_colon.
Qed.

Section EncryptedMemoryMore.
Context `{Hashlib} `{Base64}.
Import EncryptedMemory.

(** A derivation under another cache key does not change what a
    derivation returns. *)
Lemma derive_key_other kms identity context identity' context' :
  (identity ++ ":" ++ context)%string <> (identity' ++ ":" ++ context')%string ->
  (KMSMock.derive_key (KMSMock.derive_key kms identity context).2 identity' context').1
  = (KMSMock.derive_key kms identity' context').1.
Proof.
  intros Hne. unfold KMSMock.derive_key.
  destruct (KMSMock._cache kms !! (identity ++ ":" ++ context)%string); [done|].
  simpl. rewrite lookup_insert_ne by done.
  by destruct (KMSMock._cache kms !! (identity' ++ ":" ++ context')%string).
Qed.

(** The cache key of a page tells the VM and the page. *)
Lemma page_cache_key_inj (vm vm' : string) (p q : Z) :
  (("vm:" ++ vm) ++ ":" ++ pretty p)%string = (("vm:" ++ vm') ++ ":" ++ pretty q)%string ->
  vm = vm' /\ p = q.
Proof.
  intros Heq.
  apply (cache_key_split ("vm:" ++ vm)%string ("vm:" ++ vm')%string (pretty p) (pretty q))
    in Heq as [Hvm Hp]; try apply pretty_Z_no_colon.
  split.
  - by apply (inj (String.append "vm:")) in Hvm.
  - by apply (inj pretty) in Hp.
Qed.

Lemma page_key_other kms (vm vm' : string) (p q : Z) :
  (vm, p) <> (vm', q) ->
  (_derive_page_key (_derive_page_key kms vm p).2 vm' q).1
  = (_derive_page_key kms vm' q).1.
Proof.
  intros Hne. unfold _derive_page_key. apply derive_key_other.
  intros Heq. apply page_cache_key_inj in Heq as [-> ->]. done.
Qed.

(** Reading under a KMS that derived another page's key in between. *)
Lemma read_after_other_key (memory : t) kms (vm : string) (p q : Z) :
  (vm, p) <> (vm_id memory, q) ->
  (read memory (_derive_page_key kms vm p).2 q).1 = (read memory kms q).1.
Proof.
  intros Hne. unfold read.
  destruct (pages memory !! q) as [pg|]; [|done].
  pose proof (page_key_other kms vm (vm_id memory) p q Hne) as Hk.
  destruct (_derive_page_key (_derive_page_key kms vm p).2 (vm_id memory) q) as [k1 s1].
  destruct (_derive_page_key kms (vm_id memory) q) as [k2 s2].
  simpl in Hk. subst k2.
  destruct (KMSMock.decrypt k1 (EncryptedPage.ciphertext pg)); [|done].
  by destruct (negb _).
Qed.


(** X11. A write to one page leaves every other page of the memory as it
    was, and a read of another page gives what it gave before the write:
    the key derived for the written page is cached under a key of its own. *)
Theorem write_keeps_other_pages (self : t) (kms : KMSMock.t) (page_id other : Z)
    (data iv : bytes) page memory kms' :
  other <> page_id ->
  write self kms page_id data iv = (Ok page, memory, kms') ->
  pages memory !! other = pages self !! other
  /\ (read memory kms' other).1 = (read self kms other).1.
Proof.
  intros Hne Hw.
  apply write_ok_inv in Hw as (_ & _ & _ & -> & ->).
  split; [by apply lookup_insert_ne|].
  rewrite read_after_other_key by (simpl; congruence).
  unfold read. simpl. by rewrite lookup_insert_ne.
Qed.

(** X12. After a write, a stored page whose digest was replaced by another
    text is refused by [read] with the page integrity error.  A stored page
    whose token was replaced is read only when the new token passes the
    tag check of [decrypt] and has the SHA-256 digest of the token
    written. *)
Theorem read_rejects_altered_page (self : t) (kms : KMSMock.t) (page_id : Z)
    (data iv : bytes) page memory kms' :
  length iv = 16 ->
  write self kms page_id data iv = (Ok page, memory, kms') ->
  (forall digest,
     digest <> EncryptedPage.mac page ->
     read
       (with_page memory page_id
          {| EncryptedPage.page_id := page_id;
             EncryptedPage.ciphertext := EncryptedPage.ciphertext page;
             EncryptedPage.mac := digest |})
       kms' page_id
     = (Raise PageIntegrityError, kms'))
  /\ (forall token data' kms'',
        read
          (with_page memory page_id
             {| EncryptedPage.page_id := page_id;
                EncryptedPage.ciphertext := token;
                EncryptedPage.mac := EncryptedPage.mac page |})
          kms' page_id
        = (Ok data', kms'') ->
        KMSMock.decrypt (_derive_page_key kms (vm_id self) page_id).1 token = Ok data'
        /\ sha256 (encode_utf8 token)
           = sha256 (encode_utf8 (EncryptedPage.ciphertext page))).
Proof.
  intros Hiv Hw.
  apply write_ok_inv in Hw as (_ & Henc & Hmac & -> & ->).
  unfold with_page, read, _verify, _derive_page_key in *. simpl. split.
  - intros digest Hd.
    rewrite lookup_insert_eq, derive_key_deterministic. simpl.
    rewrite (decrypt_encrypt _ _ _ _ Hiv Henc).
    rewrite bool_decide_eq_false_2 by congruence. done.
  - intros token data' kms''.
    rewrite lookup_insert_eq, derive_key_deterministic. simpl.
    destruct (KMSMock.decrypt _ token) as [d|e]; [|done].
    case_bool_decide as Hm; simpl; [|done].
    intros [= <- <-]. split; [done|].
    rewrite Hmac in Hm. unfold _mac in Hm. by apply hex_inj in Hm.
Qed.

End EncryptedMemoryMore.

(** ** SimulatedVM and SevLaunchManager, continued *)

Lemma hex_length (bs : bytes) : String.length (hex bs) = 2 * length bs.
Proof. induction bs as [|b bs IH]; [done|]. cbn [hex String.length length]. lia. Qed.

Section SevLaunchManagerMore.
Context `{Hashlib} `{Base64}.
Import SevLaunchManager.

Lemma measure_launch_vcpu (vm : SimulatedVM.t) :
  (SimulatedVM.measure (SimulatedVM.launch_vcpu vm).2).1 = (SimulatedVM.measure vm).1.
Proof. by rewrite !measure_eq. Qed.

Lemma sorted_items_empty : SimulatedVM.sorted_items ∅ = [].
Proof. unfold SimulatedVM.sorted_items. by rewrite map_to_list_empty. Qed.

Lemma encrypt_page_ok_inv (self : t) kms vm_id page_id data iv r self' kms' :
  encrypt_page self kms vm_id page_id data iv = (Ok r, self', kms') ->
  exists vm page memory,
    vms self !! vm_id = Some vm
    /\ EncryptedMemory.write (SimulatedVM.memory vm) kms page_id data iv
       = (Ok page, memory, kms')
    /\ r = {| ep_vm_id := vm_id; ep_page_id := page_id;
              ep_measurement := (SimulatedVM.measure (with_memory vm memory)).1;
              ep_mac := EncryptedPage.mac page |}
    /\ self' = store self vm_id (SimulatedVM.measure (with_memory vm memory)).2.
Proof.
  unfold encrypt_page, _require_vm.
  destruct (vms self !! vm_id) as [vm|]; [|done].
  destruct (EncryptedMemory.write _ _ _ _ _) as [[[page|e] memory] kms1] eqn:Hw; [|done].
  fold (with_memory vm memory).
  destruct (SimulatedVM.measure (with_memory vm memory)) as [m vm'] eqn:Hm.
  intros [= <- <- <-]. exists vm, page, memory. by rewrite Hm.
Qed.

(** The KMS after [encrypt_page]: as it was, or with the page key derived. *)
Lemma encrypt_page_kms (self : t) kms vm_id page_id data iv :
  (encrypt_page self kms vm_id page_id data iv).2 = kms
  \/ exists vm,
       vms self !! vm_id = Some vm
       /\ (encrypt_page self kms vm_id page_id data iv).2
          = (EncryptedMemory._derive_page_key kms
               (EncryptedMemory.vm_id (SimulatedVM.memory vm)) page_id).2.
Proof.
  unfold encrypt_page, _require_vm.
  destruct (vms self !! vm_id) as [vm|]; [|by left].
  right. exists vm. split; [done|]. unfold EncryptedMemory.write.
  destruct (EncryptedMemory._derive_page_key _ _ _) as [key kms1].
  destruct (KMSMock.encrypt key data iv); [|done].
  by destruct (SimulatedVM.measure _).
Qed.

Lemma fresh_store (self : t) vm_id vm :
  fresh self ->
  (SimulatedVM.measurement vm = None
   \/ SimulatedVM.measurement vm = Some (SimulatedVM.measure vm).1) ->
  fresh (store self vm_id vm).
Proof.
  intros Hf Hvm id' vm' Hl. unfold store in Hl. simpl in Hl.
  destruct (decide (id' = vm_id)) as [->|Hne].
  - rewrite lookup_insert_eq in Hl. by injection Hl as <-.
  - rewrite lookup_insert_ne in Hl by done. by apply (Hf id').
Qed.

Lemma fresh_empty : fresh {| vms := ∅ |}.
Proof. intros id vm Hl. simpl in Hl. by rewrite lookup_empty in Hl. Qed.

Lemma consistent_store (self : t) vm_id vm :
  consistent self ->
  SimulatedVM.vm_id vm = vm_id ->
  EncryptedMemory.vm_id (SimulatedVM.memory vm) = vm_id ->
  consistent (store self vm_id vm).
Proof.
  intros Hc Hid Hmem id' vm' Hl. unfold store in Hl. simpl in Hl.
  destruct (decide (id' = vm_id)) as [->|Hne].
  - rewrite lookup_insert_eq in Hl. by injection Hl as <-.
  - rewrite lookup_insert_ne in Hl by done. by apply (Hc id').
Qed.

Lemma consistent_empty : consistent {| vms := ∅ |}.
Proof. intros id vm Hl. simpl in Hl. by rewrite lookup_empty in Hl. Qed.

Lemma consistent_create_vm (self : t) owner rnd :
  consistent self -> consistent (create_vm self owner rnd).2.
Proof. intros Hc. by apply consistent_store. Qed.

Lemma consistent_encrypt_page (self : t) kms vm_id page_id data iv :
  consistent self -> consistent (encrypt_page self kms vm_id page_id data iv).1.2.
Proof.
  intros Hc.
  destruct (encrypt_page self kms vm_id page_id data iv) as [[[r|e] self'] kms'] eqn:He.
  - apply encrypt_page_ok_inv in He as (vm & page & memory & Hvm & Hw & _ & ->).
    apply write_ok_inv in Hw as (_ & _ & _ & -> & _).
    destruct (Hc _ _ Hvm) as [Hid Hmem].
    rewrite measure_eq. by apply consistent_store.
  - revert He. unfold encrypt_page, _require_vm.
    destruct (vms self !! vm_id) as [vm|]; [|by intros [= <- <- <-]].
    destruct (EncryptedMemory.write _ _ _ _ _) as [[[page|e'] memory] kms1].
    + by destruct (SimulatedVM.measure _).
    + by intros [= <- <- <-].
Qed.

(** X13. Through the manager the cached measurement never goes stale.  If
    every VM held has either no cached measurement or the measurement of its
    present pages, the same is true after [create_vm], [encrypt_page],
    [launch_vcpu] and [attest]; and [attest] for a VM held then reports the
    measurement of the VM's present pages, with the nonce drawn. *)
Theorem manager_measurement_fresh (self : t) (kms : KMSMock.t) (vm_id owner : string)
    (page_id : Z) (data iv rnd : bytes) :
  fresh self ->
  fresh (create_vm self owner rnd).2
  /\ fresh (encrypt_page self kms vm_id page_id data iv).1.2
  /\ fresh (launch_vcpu self vm_id).2
  /\ fresh (attest self vm_id rnd).2
  /\ (forall vm,
        vms self !! vm_id = Some vm ->
        (attest self vm_id rnd).1
        = Ok {| SimulatedVM.report_vm_id := SimulatedVM.vm_id vm;
                SimulatedVM.report_nonce := hex rnd;
                SimulatedVM.report_measurement := Some (SimulatedVM.measure vm).1 |}).
Proof.
  intros Hf. split_and!.
  - apply fresh_store; [done|by left].
  - destruct (encrypt_page self kms vm_id page_id data iv) as [[[r|e] self'] kms'] eqn:He.
    + apply encrypt_page_ok_inv in He as (vm & page & memory & _ & _ & _ & ->).
      apply fresh_store; [done|]. right. by rewrite !measure_eq.
    + revert He. unfold encrypt_page, _require_vm.
      destruct (vms self !! vm_id) as [vm|]; [|by intros [= <- <- <-]].
      destruct (EncryptedMemory.write _ _ _ _ _) as [[[page|e'] memory] kms1].
      * by destruct (SimulatedVM.measure _).
      * by intros [= <- <- <-].
  - unfold launch_vcpu, _require_vm.
    destruct (vms self !! vm_id) as [vm|] eqn:Hvm; [|done].
    pose proof (measure_launch_vcpu vm) as Hm.
    destruct (SimulatedVM.launch_vcpu vm) as [vcpu vm'] eqn:Hl. cbn [snd] in Hm.
    apply fresh_store; [done|]. rewrite Hm.
    replace (SimulatedVM.measurement vm') with (SimulatedVM.measurement vm)
      by (unfold SimulatedVM.launch_vcpu in Hl; by injection Hl as _ <-).
    by apply (Hf vm_id).
  - unfold attest, _require_vm, SimulatedVM.attest.
    destruct (vms self !! vm_id) as [vm|] eqn:Hvm; [|done].
    apply fresh_store; [done|].
    destruct (SimulatedVM.measurement vm) eqn:Hm.
    + by apply (Hf vm_id).
    + right. by rewrite !measure_eq.
  - intros vm Hvm. unfold attest, _require_vm, SimulatedVM.attest. rewrite Hvm.
    destruct (SimulatedVM.measurement vm) eqn:Hm.
    + apply (Hf vm_id) in Hvm. rewrite Hm in Hvm.
      destruct Hvm as [|Hs]; [done|]. simpl. by rewrite Hm, Hs.
    + by rewrite !measure_eq.
Qed.

(** X14. One VM's operations leave the others alone.  On a manager that
    holds every VM under its own id, [encrypt_page], [launch_vcpu] and
    [attest] for one id leave the VM stored under any other id as it was,
    and so does [create_vm] unless the id drawn is that other id; a read of
    any page of another VM gives after [encrypt_page] what it gave before.
    The manager holds every VM under its own id afterwards as well. *)
Theorem manager_keeps_other_vms (self : t) (kms : KMSMock.t) (vm_id other owner : string)
    (page_id : Z) (data iv rnd : bytes) :
  consistent self ->
  other <> vm_id ->
  vms (encrypt_page self kms vm_id page_id data iv).1.2 !! other = vms self !! other
  /\ vms (launch_vcpu self vm_id).2 !! other = vms self !! other
  /\ vms (attest self vm_id rnd).2 !! other = vms self !! other
  /\ (other <> hex rnd -> vms (create_vm self owner rnd).2 !! other = vms self !! other)
  /\ (forall vm q,
        vms self !! other = Some vm ->
        (EncryptedMemory.read (SimulatedVM.memory vm)
           (encrypt_page self kms vm_id page_id data iv).2 q).1
        = (EncryptedMemory.read (SimulatedVM.memory vm) kms q).1)
  /\ consistent (encrypt_page self kms vm_id page_id data iv).1.2
  /\ consistent (create_vm self owner rnd).2.
Proof.
  intros Hc Hne. split_and!.
  - destruct (encrypt_page self kms vm_id page_id data iv) as [[[r|e] self'] kms'] eqn:He.
    + apply encrypt_page_ok_inv in He as (vm & page & memory & _ & _ & _ & ->).
      simpl. by rewrite lookup_insert_ne.
    + revert He. unfold encrypt_page, _require_vm.
      destruct (vms self !! vm_id) as [vm|]; [|by intros [= <- <- <-]].
      destruct (EncryptedMemory.write _ _ _ _ _) as [[[page|e'] memory] kms1].
      * by destruct (SimulatedVM.measure _).
      * by intros [= <- <- <-].
  - unfold launch_vcpu, _require_vm.
    destruct (vms self !! vm_id) as [vm|]; [|done].
    simpl. by rewrite lookup_insert_ne.
  - unfold attest, _require_vm.
    destruct (vms self !! vm_id) as [vm|]; [|done].
    destruct (SimulatedVM.attest vm rnd). simpl. by rewrite lookup_insert_ne.
  - intros Hr. simpl. by rewrite lookup_insert_ne.
  - intros vm q Hvm.
    destruct (encrypt_page_kms self kms vm_id page_id data iv) as [->|(vm0 & Hvm0 & ->)];
      [done|].
    apply read_after_other_key.
    destruct (Hc _ _ Hvm) as [_ ->]. destruct (Hc _ _ Hvm0) as [_ ->]. congruence.
  - by apply consistent_encrypt_page.
  - by apply consistent_create_vm.
Qed.

(** X15. After a successful [encrypt_page] the manager holds the VM with
    the page written and the measurement returned cached: the digest
    returned is the digest of the stored page, reading the page from the
    stored VM returns the data, and [attest] then reports the measurement
    [encrypt_page] returned. *)
Theorem encrypt_page_then_attest_and_read (self : t) (kms : KMSMock.t) (vm_id : string)
    (page_id : Z) (data iv rnd : bytes) r self' kms' :
  length iv = 16 ->
  encrypt_page self kms vm_id page_id data iv = (Ok r, self', kms') ->
  exists vm' page,
    vms self' !! vm_id = Some vm'
    /\ SimulatedVM.measurement vm' = Some (ep_measurement r)
    /\ ep_measurement r = (SimulatedVM.measure vm').1
    /\ EncryptedMemory.pages (SimulatedVM.memory vm') !! page_id = Some page
    /\ ep_mac r = EncryptedPage.mac page
    /\ EncryptedPage.mac page = EncryptedMemory._mac (EncryptedPage.ciphertext page)
    /\ EncryptedMemory.read (SimulatedVM.memory vm') kms' page_id = (Ok data, kms')
    /\ (attest self' vm_id rnd).1
       = Ok {| SimulatedVM.report_vm_id := SimulatedVM.vm_id vm';
               SimulatedVM.report_nonce := hex rnd;
               SimulatedVM.report_measurement := Some (ep_measurement r) |}.
Proof.
  intros Hiv He.
  apply encrypt_page_ok_inv in He as (vm & page & memory & Hvm & Hw & -> & ->).
  pose proof (write_then_read _ _ _ _ _ _ _ _ Hiv Hw) as Hr.
  apply write_ok_inv in Hw as (_ & _ & Hmac & Hmem & _).
  exists (SimulatedVM.measure (with_memory vm memory)).2, page.
  unfold attest, _require_vm, SimulatedVM.attest, store. cbn [vms].
  rewrite lookup_insert_eq, !measure_eq. cbn [fst snd SimulatedVM.measurement
    SimulatedVM.memory SimulatedVM.vm_id with_memory ep_measurement ep_mac].
  split_and!; try done.
  rewrite Hmem. simpl. apply lookup_insert_eq.
Qed.

(** X16. The id of a created VM is the hexadecimal text of the draw, two
    digits per byte.  Two creations give the same id exactly when the draws
    are equal; with different draws the manager holds both VMs, and with
    equal draws the second VM takes the place of the first, which the
    manager no longer holds. *)
Theorem create_vm_ids (self : t) (owner1 owner2 : string) (rnd1 rnd2 : bytes) :
  let first := create_vm self owner1 rnd1 in
  let second := create_vm first.2 owner2 rnd2 in
  SimulatedVM.vm_id first.1 = hex rnd1
  /\ String.length (SimulatedVM.vm_id first.1) = 2 * length rnd1
  /\ (SimulatedVM.vm_id first.1 = SimulatedVM.vm_id second.1 <-> rnd1 = rnd2)
  /\ vms second.2 !! SimulatedVM.vm_id second.1 = Some second.1
  /\ (rnd1 <> rnd2 -> vms second.2 !! SimulatedVM.vm_id first.1 = Some first.1)
  /\ (rnd1 = rnd2 -> vms second.2 !! SimulatedVM.vm_id first.1 = Some second.1).
Proof.
  simpl. split_and!.
  - done.
  - apply hex_length.
  - split; [apply hex_inj|by intros ->].
  - apply lookup_insert_eq.
  - intros Hne. rewrite lookup_insert_ne, lookup_insert_eq; [done|].
    intros Heq. by apply hex_inj in Heq.
  - intros ->. apply lookup_insert_eq.
Qed.

End SevLaunchManagerMore.

(** ** The SEV routes *)

Section SevRoutesProperties.
Context `{Hashlib} `{Base64}.
Import SevRoutes.

Lemma launch_vm_eq (launch_manager : SevLaunchManager.t) (req : VmLaunchRequest.t)
    (rnd : bytes) :
  launch_vm launch_manager req rnd =
  let vm_id := hex rnd in
  let m := hex (sha256 (encode_utf8 vm_id ++ encode_utf8 (VmLaunchRequest.owner req))) in
  let vm :=
    {| SimulatedVM.vm_id := vm_id;
       SimulatedVM.owner := VmLaunchRequest.owner req;
       SimulatedVM.memory :=
         {| EncryptedMemory.vm_id := vm_id; EncryptedMemory.pages := ∅ |};
       SimulatedVM.vcpus :=
         [{| VcpuState.id := 0; VcpuState.registers := default_registers |}];
       SimulatedVM.measurement := Some m |} in
  ({| VmLaunchResponse.vm_id := vm_id;
      VmLaunchResponse.vcpu_id := 0;
      VmLaunchResponse.measurement := m |},
   {| SevLaunchManager.vms := <[vm_id := vm]> (SevLaunchManager.vms launch_manager) |}).
Proof.
  unfold launch_vm, SevLaunchManager.create_vm, SimulatedVM.launch_vcpu,
    SevLaunchManager.store.
  rewrite measure_eq. cbn [fst snd SimulatedVM.vm_id SimulatedVM.owner
    SimulatedVM.memory SimulatedVM.vcpus EncryptedMemory.pages SevLaunchManager.vms
    VcpuState.id length app].
  rewrite sorted_items_empty, insert_insert_eq. cbn [map concat].
  by rewrite app_nil_r.
Qed.

(** X17. The launch route creates the VM under the id drawn, launches its
    first vCPU and measures it: the response carries that id, the vCPU id 0
    and the digest of the id followed by the owner (there are no pages
    yet), and the manager then holds the VM with that one vCPU and that
    measurement cached.  The VMs under other ids are as before, and the
    manager's invariants are kept. *)
Theorem launch_vm_spec (launch_manager : SevLaunchManager.t) (req : VmLaunchRequest.t)
    (rnd : bytes) :
  let response := (launch_vm launch_manager req rnd).1 in
  let launch_manager' := (launch_vm launch_manager req rnd).2 in
  VmLaunchResponse.vm_id response = hex rnd
  /\ VmLaunchResponse.vcpu_id response = 0
  /\ VmLaunchResponse.measurement response
     = hex (sha256 (encode_utf8 (hex rnd) ++ encode_utf8 (VmLaunchRequest.owner req)))
  /\ SevLaunchManager.vms launch_manager' !! hex rnd
     = Some
         {| SimulatedVM.vm_id := hex rnd;
            SimulatedVM.owner := VmLaunchRequest.owner req;
            SimulatedVM.memory :=
              {| EncryptedMemory.vm_id := hex rnd; EncryptedMemory.pages := ∅ |};
            SimulatedVM.vcpus :=
              [{| VcpuState.id := 0; VcpuState.registers := default_registers |}];
            SimulatedVM.measurement := Some (VmLaunchResponse.measurement response) |}
  /\ (forall other,
        other <> hex rnd ->
        SevLaunchManager.vms launch_manager' !! other
        = SevLaunchManager.vms launch_manager !! other)
  /\ (fresh launch_manager -> fresh launch_manager')
  /\ (consistent launch_manager -> consistent launch_manager').
Proof.
  rewrite launch_vm_eq. cbn [fst snd VmLaunchResponse.vm_id VmLaunchResponse.vcpu_id
    VmLaunchResponse.measurement SevLaunchManager.vms].
  split_and!; try done.
  - apply lookup_insert_eq.
  - intros other Hne. by apply lookup_insert_ne.
  - intros Hf. apply (fresh_store launch_manager); [done|]. right.
    rewrite measure_eq. cbn [fst SimulatedVM.vm_id SimulatedVM.owner SimulatedVM.memory
      SimulatedVM.measurement EncryptedMemory.pages].
    rewrite sorted_items_empty. cbn [map concat]. by rewrite app_nil_r.
  - intros Hc. by apply (consistent_store launch_manager).
Qed.

(** X18. The encrypt route answers a request for a VM the manager does not
    hold with the HTTP error 404, whose detail is the text of the
    [KeyError], and changes nothing.  For a VM it holds and a request that
    meets the declared constraints (a payload of 1 to 8192 bytes) it
    responds, with the request's VM id and page id, the digest of the
    stored page and the new measurement; the manager then holds the VM with
    that measurement cached, and the page reads back as the payload. *)
Theorem encrypt_route_spec (launch_manager : SevLaunchManager.t) (kms : KMSMock.t)
    (req : VmEncryptRequest.t) (iv : bytes) :
  (SevLaunchManager.vms launch_manager !! VmEncryptRequest.vm_id req = None ->
   encrypt launch_manager kms req iv
   = (HTTPException 404 "'VM not found'", launch_manager, kms))
  /\ (forall vm,
        SevLaunchManager.vms launch_manager !! VmEncryptRequest.vm_id req = Some vm ->
        length iv = 16 ->
        VmEncryptRequest.declared req ->
        exists page vm' launch_manager' kms',
          encrypt launch_manager kms req iv
          = (Respond
               {| VmEncryptResponse.vm_id := VmEncryptRequest.vm_id req;
                  VmEncryptResponse.page_id := VmEncryptRequest.page_id req;
                  VmEncryptResponse.measurement := (SimulatedVM.measure vm').1;
                  VmEncryptResponse.mac :=
                    EncryptedMemory._mac (EncryptedPage.ciphertext page) |},
             launch_manager', kms')
          /\ SevLaunchManager.vms launch_manager' !! VmEncryptRequest.vm_id req = Some vm'
          /\ SimulatedVM.measurement vm' = Some (SimulatedVM.measure vm').1
          /\ EncryptedMemory.pages (SimulatedVM.memory vm') !! VmEncryptRequest.page_id req
             = Some page
          /\ EncryptedMemory.read (SimulatedVM.memory vm') kms' (VmEncryptRequest.page_id req)
             = (Ok (VmEncryptRequest.payload req), kms')).
Proof.
  split.
  - intros Hn. unfold encrypt, SevLaunchManager.encrypt_page, SevLaunchManager._require_vm.
    by rewrite Hn.
  - intros vm Hvm Hiv (_ & _ & Hlen).
    destruct (SevLaunchManager.encrypt_page launch_manager kms (VmEncryptRequest.vm_id req)
                (VmEncryptRequest.page_id req) (VmEncryptRequest.payload req) iv)
      as [[[r|e] launch_manager'] kms'] eqn:He.
    + unfold encrypt. rewrite He.
      apply encrypt_page_ok_inv in He as (vm0 & page & memory & Hvm0 & Hw & -> & ->).
      pose proof (write_then_read _ _ _ _ _ _ _ _ Hiv Hw) as Hr.
      apply write_ok_inv in Hw as (_ & _ & Hmac & Hmem & _).
      exists page, (SimulatedVM.measure (with_memory vm0 memory)).2,
        (SevLaunchManager.store launch_manager (VmEncryptRequest.vm_id req)
           (SimulatedVM.measure (with_memory vm0 memory)).2), kms'.
      unfold SevLaunchManager.store. cbn [SevLaunchManager.vms].
      rewrite lookup_insert_eq, !measure_eq.
      cbn [fst snd SimulatedVM.measurement SimulatedVM.memory with_memory
        SevLaunchManager.ep_vm_id SevLaunchManager.ep_page_id
        SevLaunchManager.ep_measurement SevLaunchManager.ep_mac].
      rewrite Hmac. split_and!; try done.
      rewrite Hmem. simpl. apply lookup_insert_eq.
    + exfalso. revert He.
      unfold SevLaunchManager.encrypt_page, SevLaunchManager._require_vm. rewrite Hvm.
      destruct (write_returns (SimulatedVM.memory vm) kms (VmEncryptRequest.page_id req)
                  (VmEncryptRequest.payload req) iv) as (page & memory & kms1 & ->);
        [lia|].
      by destruct (SimulatedVM.measure _).
Qed.

(** X19. The attest route answers a request for a VM the manager does not
    hold with the HTTP error 404 and changes nothing.  For a VM it holds it
    always responds: with the VM's id, a nonce of two hexadecimal digits
    per byte drawn, and the cached measurement, or, when none is cached,
    the measurement it takes and caches. *)
Theorem attest_route_spec (launch_manager : SevLaunchManager.t) (vm_id : string)
    (rnd : bytes) :
  (SevLaunchManager.vms launch_manager !! vm_id = None ->
   attest launch_manager vm_id rnd
   = (HTTPException 404 "'VM not found'", launch_manager))
  /\ (forall vm,
        SevLaunchManager.vms launch_manager !! vm_id = Some vm ->
        exists measurement vm',
          attest launch_manager vm_id rnd
          = (Respond
               {| VmAttestationResponse.vm_id := SimulatedVM.vm_id vm;
                  VmAttestationResponse.nonce := hex rnd;
                  VmAttestationResponse.measurement := measurement |},
             SevLaunchManager.store launch_manager vm_id vm')
          /\ String.length (hex rnd) = 2 * length rnd
          /\ SimulatedVM.measurement vm' = Some measurement
          /\ (SimulatedVM.measurement vm = None ->
              measurement = (SimulatedVM.measure vm).1
              /\ vm' = (SimulatedVM.measure vm).2)
          /\ (forall m,
                SimulatedVM.measurement vm = Some m -> measurement = m /\ vm' = vm)).
Proof.
  split.
  - intros Hn. unfold attest, SevLaunchManager.attest, SevLaunchManager._require_vm.
    by rewrite Hn.
  - intros vm Hvm.
    unfold attest, SevLaunchManager.attest, SevLaunchManager._require_vm,
      SimulatedVM.attest.
    rewrite Hvm. destruct (SimulatedVM.measurement vm) as [m|] eqn:Hm.
    + exists m, vm. rewrite Hm. split_and!; try done.
      * apply hex_length.
      * by intros m' [= <-].
    + exists (SimulatedVM.measure vm).1, (SimulatedVM.measure vm).2.
      rewrite measure_eq. cbn [fst snd SimulatedVM.measurement SimulatedVM.vm_id
        SimulatedVM.report_measurement SimulatedVM.report_vm_id
        SimulatedVM.report_nonce].
      split_and!; try done. apply hex_length.
Qed.

End SevRoutesProperties.

(** ** The workloads *)

Section WorkloadsProperties.
Import Workloads.

Lemma counter_loop (initial : pyint) (l : list Z) :
  l <> [] ->
  foldl (fun value _ => Int (int_value value + 1)) initial l
  = Int (int_value initial + Z.of_nat (length l)).
Proof.
  revert initial. induction l as [|x l IH]; intros initial Hne; [done|].
  cbn [foldl length]. destruct l as [|y l].
  - cbn [foldl length]. f_equal; lia.
  - rewrite IH by done. cbn [int_value length]. f_equal; lia.
Qed.

Lemma pretty_N_go_decimal (x : N) (s : string) :
  decimal_text s -> decimal_text (pretty_N_go x s).
Proof.
  revert s. induction (N.lt_wf_0 x) as [x _ IH]; intros s Hs.
  destruct (decide (0 < x)%N) as [Hx|Hx].
  - rewrite pretty_N_go_step by done. apply IH.
    + by apply N.div_lt.
    + split; [|done]. right. unfold pretty_N_char. repeat case_match; vm_compute; done.
  - assert (x = 0%N) as -> by lia. by rewrite pretty_N_go_0.
Qed.

Lemma pretty_Z_decimal (x : Z) : decimal_text (pretty x).
Proof.
  assert (forall n : N, decimal_text (pretty n)) as HN.
  { intros n. unfold pretty, pretty_N. case_decide.
    - split; [|done]. right. vm_compute. done.
    - by apply pretty_N_go_decimal. }
  destruct x as [|p|p]; cbn -[pretty_N].
  - split; [|done]. right. vm_compute. done.
  - apply HN.
  - split; [|apply HN]. left. reflexivity.
Qed.

Lemma decimal_text_no_colon (s : string) : decimal_text s -> no_colon s.
Proof.
  induction s as [|c s IH]; [done|]. intros [Hc Hs]. split; [|by apply IH].
  intros ->. destruct Hc as [Hc|Hc]; vm_compute in Hc; [done|]. by destruct Hc.
Qed.

Lemma int_str_no_colon (x : pyint) (s : string) : int_str x = Ok s -> no_colon s.
Proof.
  destruct x as [n|[|]]; cbn [int_str].
  - case_decide; [done|]. intros [= <-].
    apply decimal_text_no_colon, pretty_Z_decimal.
  - intros [= <-]. by repeat split.
  - intros [= <-]. by repeat split.
Qed.

Lemma int_str_inj (x y : pyint) (s : string) :
  int_str x = Ok s -> int_str y = Ok s -> x = y.
Proof.
  assert (forall (n : Z) (b : bool), pretty n <> (if b then "True" else "False")) as Hne.
  { intros n b Heq. pose proof (pretty_Z_decimal n) as Hd. rewrite Heq in Hd.
    destruct b; destruct Hd as [[Hc|Hc] _]; vm_compute in Hc; try done; by destruct Hc. }
  destruct x as [n|b], y as [m|c]; cbn [int_str]; repeat case_decide; try done.
  - intros [= <-] [= Heq]. f_equal. by apply (inj pretty).
  - intros [= <-] [= Heq]. symmetry in Heq. by apply Hne in Heq.
  - intros [= <-] [= Heq]. by apply Hne in Heq.
  - intros [= <-] [= Heq]. by destruct b, c.
Qed.

Lemma digit_limit_gt_1 : (1 < digit_limit)%Z.
Proof. unfold digit_limit, int_max_str_digits. by apply Z.pow_gt_1. Qed.

Lemma int_str_within (x : pyint) :
  (Z.abs (int_value x) < digit_limit)%Z -> exists s, int_str x = Ok s.
Proof.
  destruct x as [n|b]; cbn [int_str int_value]; intros Hlt; [|by eexists].
  rewrite decide_False by lia. by eexists.
Qed.

Lemma int_str_beyond (x : pyint) :
  (digit_limit <= Z.abs (int_value x))%Z -> int_str x = Raise DigitLimitError.
Proof.
  pose proof digit_limit_gt_1 as Hlimit.
  destruct x as [n|b]; cbn [int_str int_value]; intros Hle.
  - by rewrite decide_True.
  - destruct b; lia.
Qed.

Lemma int_str_raise_inv (x : pyint) (e : exn) :
  int_str x = Raise e -> e = DigitLimitError.
Proof.
  destruct x as [n|b]; cbn [int_str]; [|done]. case_decide; [|done]. by intros [= <-].
Qed.

(** The loop of the counter ends with [counted]. *)
Lemma counter_loop_counted (initial increments : pyint) :
  foldl (fun value _ => Int (int_value value + 1)) initial (range (int_value increments))
  = counted initial increments.
Proof.
  unfold counted, range. case_decide as Hlt.
  - rewrite counter_loop.
    + rewrite length_seqZ. f_equal; lia.
    + intros Hnil. apply (f_equal length) in Hnil.
      rewrite length_seqZ in Hnil. simpl in Hnil. lia.
  - by rewrite seqZ_nil by lia.
Qed.

Lemma counted_value (initial increments : pyint) :
  int_value (counted initial increments)
  = (int_value initial + Z.max 0 (int_value increments))%Z.
Proof. unfold counted. case_decide; cbn [int_value]; lia. Qed.

Lemma integrity_protected_counter_within `{Hashlib} (initial increments : pyint) :
  (Z.abs (int_value (counted initial increments)) < digit_limit)%Z ->
  (Z.abs (int_value increments) < digit_limit)%Z ->
  exists v n,
    int_str (counted initial increments) = Ok v
    /\ int_str increments = Ok n
    /\ integrity_protected_counter initial increments
       = Ok {| counter := counted initial increments;
               mac := hex (sha256 (encode_utf8 (v ++ ":" ++ n))) |}.
Proof.
  intros Hv Hn.
  destruct (int_str_within _ Hv) as [v Ev]. destruct (int_str_within _ Hn) as [n En].
  exists v, n. split; [done|]. split; [done|].
  unfold integrity_protected_counter, counter_text.
  rewrite counter_loop_counted, Ev, En. done.
Qed.

Lemma integrity_protected_counter_beyond `{Hashlib} (initial increments : pyint) :
  (digit_limit <= Z.abs (int_value (counted initial increments)))%Z
  \/ (digit_limit <= Z.abs (int_value increments))%Z ->
  integrity_protected_counter initial increments = Raise DigitLimitError.
Proof.
  intros Hor. unfold integrity_protected_counter, counter_text.
  rewrite counter_loop_counted.
  destruct (int_str (counted initial increments)) as [v|e] eqn:Ev.
  - destruct Hor as [Hle|Hle]; [by rewrite int_str_beyond in Ev|].
    by rewrite (int_str_beyond increments Hle).
  - by rewrite (int_str_raise_inv _ _ Ev).
Qed.

(** X20. The counter workload counts from the initial value, once for each
    increment: it ends with a plain integer, the sum of the two, for a
    positive number of increments, and otherwise (the loop body never runs)
    with the very object it was given, even a [bool].  When that object and
    the increments both have at most 4300 digits, it returns the object
    with, as tag, the digest of the texts of the two with a colon between
    them; when either has more digits the conversion to text raises its
    [ValueError].  The text that is hashed tells the two objects: two
    different pairs never give the same text, and [True] and [1], equal as
    numbers, are written differently. *)
Theorem integrity_protected_counter_spec `{Hashlib} (initial increments : pyint) :
  let value :=
    if decide (0 < int_value increments)%Z
    then Int (int_value initial + int_value increments)
    else initial in
  int_value value = (int_value initial + Z.max 0 (int_value increments))%Z
  /\ ((Z.abs (int_value value) < 10 ^ 4300)%Z ->
      (Z.abs (int_value increments) < 10 ^ 4300)%Z ->
      exists v n,
        int_str value = Ok v
        /\ int_str increments = Ok n
        /\ integrity_protected_counter initial increments
           = Ok {| counter := value; mac := hex (sha256 (encode_utf8 (v ++ ":" ++ n))) |})
  /\ ((10 ^ 4300 <= Z.abs (int_value value))%Z
      \/ (10 ^ 4300 <= Z.abs (int_value increments))%Z ->
      integrity_protected_counter initial increments = Raise DigitLimitError)
  /\ (forall value value' n n' text,
        counter_text value n = Ok text ->
        counter_text value' n' = Ok text ->
        value = value' /\ n = n').
Proof.
  change (10 ^ 4300)%Z with digit_limit.
  split; [apply counted_value|].
  split; [apply integrity_protected_counter_within|].
  split; [apply integrity_protected_counter_beyond|].
  intros value value' n n' text. unfold counter_text.
  destruct (int_str value) as [v|] eqn:Ev; [|done].
  destruct (int_str n) as [t|] eqn:En; [|done].
  destruct (int_str value') as [v'|] eqn:Ev'; [|done].
  destruct (int_str n') as [t'|] eqn:En'; [|done].
  cbn. intros [= <-] [= Heq].
  apply cache_key_split in Heq as [-> ->]; eauto using int_str_no_colon.
  split; eauto using int_str_inj.
Qed.

Lemma enumerate_snoc {A} (l : list A) (x : A) :
  enumerate (l ++ [x]) = enumerate l ++ [(length l, x)].
Proof. unfold enumerate. rewrite imap_app. simpl. by rewrite Nat.add_0_r. Qed.

Lemma encrypted_keyword_search_snoc `{StrMethods} documents doc keyword :
  encrypted_keyword_search (documents ++ [doc]) keyword
  = <[pretty (length documents) := count (lower keyword) (split (lower doc))]>
      (encrypted_keyword_search documents keyword).
Proof. unfold encrypted_keyword_search. by rewrite enumerate_snoc, foldl_app. Qed.

(** X21. The keyword search returns one entry per document, under the
    decimal text of the document's position: the number of words of the
    lower-cased document that equal the lower-cased keyword.  It holds no
    other entry. *)
Theorem encrypted_keyword_search_spec `{StrMethods} (documents : list string)
    (keyword : string) :
  let counts := encrypted_keyword_search documents keyword in
  (forall i doc,
     documents !! i = Some doc ->
     counts !! pretty i = Some (count (lower keyword) (split (lower doc))))
  /\ (forall key,
        counts !! key <> None -> exists i, i < length documents /\ key = pretty i)
  /\ size counts = length documents.
Proof.
  cbv zeta. induction documents as [|doc documents IH] using rev_ind.
  - change (encrypted_keyword_search [] keyword) with (∅ : gmap string nat).
    split_and!; [done| |done]. intros key Hk. by rewrite lookup_empty in Hk.
  - destruct IH as (IH1 & IH2 & IH3).
    rewrite encrypted_keyword_search_snoc, length_app. simpl.
    assert (encrypted_keyword_search documents keyword !! pretty (length documents) = None)
      as Hnew.
    { destruct (_ !! pretty (length documents)) eqn:E; [|done].
      destruct (IH2 (pretty (length documents))) as (i & Hi & Heq); [congruence|].
      apply (inj pretty) in Heq. lia. }
    split_and!.
    + intros i d Hi. destruct (decide (i = length documents)) as [->|Hne].
      * rewrite lookup_app_r, Nat.sub_diag in Hi by done. injection Hi as <-.
        apply lookup_insert_eq.
      * assert (i < length documents) as Hlt.
        { apply lookup_lt_Some in Hi. rewrite length_app in Hi. simpl in Hi. lia. }
        rewrite lookup_app_l in Hi by done.
        rewrite lookup_insert_ne; [by apply IH1|].
        intros Heq. by apply (inj pretty) in Heq.
    + intros key Hk. destruct (decide (key = pretty (length documents))) as [->|Hne].
      * exists (length documents). split; [lia|done].
      * rewrite lookup_insert_ne in Hk by done.
        destruct (IH2 key Hk) as (i & Hi & ->). exists i. split; [lia|done].
    + rewrite map_size_insert_None by done. lia.
Qed.

End WorkloadsProperties.

(** ** The enclave routes *)

Section EnclaveRoutesProperties.
Context `{Hashlib} `{Base64} `{PyJson} `{Workloads.StrMethods}.
#[local] Existing Instance pyobj_json.
Variable inference_result : Type.
Variable privacy_preserving_inference : list pyobj -> outcome inference_result.
Import EnclaveRoutes.

#[local] Abbreviation compute := (EnclaveRoutes.compute inference_result privacy_preserving_inference).
#[local] Abbreviation run_workload :=
  (EnclaveRoutes.run_workload inference_result privacy_preserving_inference).

Lemma bootstrap_eq (name : string) :
  bootstrap name =
  {| SimulatedEnclave.name := name; SimulatedEnclave.signer := "lab";
     SimulatedEnclave.pages := SimulatedEnclave.layout [encode_utf8 "init"];
     SimulatedEnclave.loaded := true;
     SimulatedEnclave.mrenclave :=
       hex (sha256 (encode_utf8 "init" ++ encode_utf8 name ++ encode_utf8 "lab"));
     SimulatedEnclave.sealed_store := ∅ |}.
Proof.
  unfold bootstrap. rewrite load_valid; [|done|].
  - cbn [snd concat SimulatedEnclave.__init__ SimulatedEnclave.name
      SimulatedEnclave.signer SimulatedEnclave.sealed_store].
    by rewrite app_nil_r.
  - intros Hin. apply list_elem_of_singleton in Hin. discriminate.
Qed.

Lemma get_or_create_cases (registry : EnclaveRegistry.t) (name : string) :
  (forall held,
     EnclaveRegistry._instances registry !! name = Some held ->
     EnclaveRegistry.get_or_create registry name = (Ok held, registry))
  /\ (EnclaveRegistry._instances registry !! name = None ->
      EnclaveRegistry.get_or_create registry name
      = (Ok (bootstrap name), put registry name (bootstrap name))).
Proof.
  unfold EnclaveRegistry.get_or_create. split.
  - by intros held ->.
  - intros ->. unfold bootstrap. rewrite load_valid; [done|done|].
    intros Hin. apply list_elem_of_singleton in Hin. discriminate.
Qed.

Lemma registered_put (registry : EnclaveRegistry.t) (name : string) enclave :
  registered registry ->
  SimulatedEnclave.loaded enclave = true ->
  SimulatedEnclave.name enclave = name ->
  measured enclave ->
  registered (put registry name enclave).
Proof.
  intros Hr Hl Hn Hm name' enclave' Hlook. unfold put in Hlook. simpl in Hlook.
  destruct (decide (name' = name)) as [->|Hne].
  - rewrite lookup_insert_eq in Hlook. by injection Hlook as <-.
  - rewrite lookup_insert_ne in Hlook by done. by apply (Hr name').
Qed.

Lemma registered_empty : registered EnclaveRegistry.__init__.
Proof. intros name enclave Hl. simpl in Hl. by rewrite lookup_empty in Hl. Qed.

Lemma bootstrap_measured (name : string) : measured (bootstrap name).
Proof. rewrite bootstrap_eq. by eexists. Qed.

Lemma put_held (registry : EnclaveRegistry.t) (name : string) enclave :
  EnclaveRegistry._instances registry !! name = Some enclave ->
  put registry name enclave = registry.
Proof.
  intros Hl. unfold put. destruct registry as [instances]. simpl in *.
  f_equal. by apply insert_id.
Qed.

Lemma put_put (registry : EnclaveRegistry.t) (name : string) e1 e2 :
  put (put registry name e1) name e2 = put registry name e2.
Proof. unfold put. simpl. by rewrite insert_insert_eq. Qed.

(** [get_or_create] on a registry of loaded enclaves. *)
Lemma get_or_create_registered (registry : EnclaveRegistry.t) (name : string) :
  registered registry ->
  exists enclave registry',
    EnclaveRegistry.get_or_create registry name = (Ok enclave, registry')
    /\ EnclaveRegistry._instances registry' !! name = Some enclave
    /\ SimulatedEnclave.loaded enclave = true
    /\ SimulatedEnclave.name enclave = name
    /\ measured enclave
    /\ registered registry'
    /\ (forall other,
          other <> name ->
          EnclaveRegistry._instances registry' !! other
          = EnclaveRegistry._instances registry !! other).
Proof.
  intros Hr. destruct (get_or_create_cases registry name) as [Hheld Hnew].
  destruct (EnclaveRegistry._instances registry !! name) as [held|] eqn:E.
  - exists held, registry. rewrite (Hheld held eq_refl).
    destruct (Hr _ _ E) as (Hl & Hn & Hm). by split_and!.
  - exists (bootstrap name), (put registry name (bootstrap name)).
    rewrite (Hnew eq_refl). split_and!.
    + done.
    + apply lookup_insert_eq.
    + by rewrite bootstrap_eq.
    + by rewrite bootstrap_eq.
    + apply bootstrap_measured.
    + apply registered_put; [done|by rewrite bootstrap_eq..|apply bootstrap_measured].
    + intros other Hne. by apply lookup_insert_ne.
Qed.

(** [seal] changes nothing of an enclave but its sealed store. *)
Lemma seal_enclave_frame (e : SimulatedEnclave.t) kms ident (d : pyobj) iv :
  let e' := (SimulatedEnclave.seal e kms ident d iv).1.2 in
  SimulatedEnclave.loaded e' = SimulatedEnclave.loaded e
  /\ SimulatedEnclave.name e' = SimulatedEnclave.name e
  /\ SimulatedEnclave.mrenclave e' = SimulatedEnclave.mrenclave e.
Proof.
  unfold SimulatedEnclave.seal. case_decide; [done|].
  destruct (KMSMock.derive_key _ _ _) as [key kms1].
  by destruct (KMSMock.encrypt _ _ _).
Qed.

Lemma run_workload_frame workload payload (e : SimulatedEnclave.t) kms iv :
  let e' := (run_workload workload payload e kms iv).1.2 in
  SimulatedEnclave.loaded e' = SimulatedEnclave.loaded e
  /\ SimulatedEnclave.name e' = SimulatedEnclave.name e
  /\ SimulatedEnclave.mrenclave e' = SimulatedEnclave.mrenclave e.
Proof.
  destruct workload; unfold EnclaveRoutes.run_workload.
  - by destruct (_validate_keyword_payload payload).
  - destruct (_validate_sealed_payload payload) as [params| |]; [|done..].
    unfold Workloads.sealed_secret_manager, seal_fn, unseal_fn. cbn [fst snd].
    destruct (negb _ && _); [done|].
    pose proof (seal_enclave_frame e kms (text (identity params))
                  (PDict [("secret", PStr (text (secret params)))]) iv) as Hf.
    destruct (SimulatedEnclave.seal _ _ _ _ _) as [[[token|err] e1] kms1]; [|done].
    cbn [fst snd] in Hf |- *.
    destruct (bool_decide _ && _); [done|].
    destruct (SimulatedEnclave.unseal e1 kms1 _) as [[recovered|err] kms2]; [|done].
    by destruct (getitem recovered "secret").
  - destruct (_validate_inference_payload payload) as [params| |]; [|done..].
    by destruct (privacy_preserving_inference _).
  - destruct (_validate_counter_payload payload) as [params| |]; [|done..].
    by destruct (Workloads.integrity_protected_counter _ _).
Qed.

(** The only HTTP error of a workload branch is the 422 of its validator. *)
Lemma run_workload_status workload payload (e : SimulatedEnclave.t) kms iv status detail :
  (run_workload workload payload e kms iv).1.1 = HTTPException status detail ->
  status = 422.
Proof.
  destruct workload; unfold EnclaveRoutes.run_workload.
  - unfold _validate_keyword_payload.
    repeat case_match; cbn [fst]; congruence.
  - unfold _validate_sealed_payload.
    destruct (_ || _); [cbn [fst]; congruence|].
    destruct (_ || _); [cbn [fst]; congruence|].
    destruct (Workloads.sealed_secret_manager _ _ _ _ _) as [[r|err] [e1 k1]]; done.
  - unfold _validate_inference_payload.
    destruct (_ || _); [cbn [fst]; congruence|].
    by destruct (privacy_preserving_inference _).
  - unfold _validate_counter_payload.
    destruct (_ || _); [cbn [fst]; congruence|].
    case_decide; [cbn [fst]; congruence|].
    by destruct (Workloads.integrity_protected_counter _ _).
Qed.

(** [compute] on a registry of loaded enclaves: the workload branch runs,
    and the enclave it ran on is the one registered. *)
Lemma compute_registered (registry : EnclaveRegistry.t) kms (req : ComputeRequest.t) iv
    enclave registry' :
  EnclaveRegistry.get_or_create registry (ComputeRequest.enclave_name req)
  = (Ok enclave, registry') ->
  SimulatedEnclave.loaded enclave = true ->
  compute registry kms req iv =
  let ran :=
    run_workload (ComputeRequest.workload req) (ComputeRequest.payload req) enclave kms iv in
  (match ran.1.1 with
   | Respond result =>
       Respond {| response_mrenclave := SimulatedEnclave.mrenclave ran.1.2;
                  response_result := result |}
   | HTTPException status_code detail => HTTPException status_code detail
   | Uncaught e => Uncaught e
   end,
   put registry' (ComputeRequest.enclave_name req) ran.1.2, ran.2).
Proof.
  intros Hg Hl. unfold EnclaveRoutes.compute. rewrite Hg, Hl. cbn [negb].
  destruct (run_workload _ _ _ _ _) as [[[r| |] e1] k1]; done.
Qed.

(** X22. Every enclave the registry hands out is loaded.  If every
    enclave the registry holds is loaded, named as it is held and measured,
    the same is true after [compute], [attest] and [seal], whatever they
    answer, and [compute] never answers with the HTTP error 400 of an
    uninitialised enclave: that branch cannot be reached through the
    registry. *)
Theorem compute_never_uninitialized (registry : EnclaveRegistry.t) (kms : KMSMock.t)
    (req : ComputeRequest.t) (attest_req : AttestationRequest.t)
    (seal_req : SealRequest.t) (iv rnd : bytes) :
  registered registry ->
  registered (compute registry kms req iv).1.2
  /\ registered (attest registry attest_req rnd).2
  /\ registered (seal registry kms seal_req iv).1.2
  /\ (forall detail, (compute registry kms req iv).1.1 <> HTTPException 400 detail).
Proof.
  intros Hr. split_and!.
  - destruct (get_or_create_registered registry (ComputeRequest.enclave_name req) Hr)
      as (enclave & registry' & Hg & _ & Hl & Hn & Hm & Hr' & _).
    rewrite (compute_registered _ _ _ _ _ _ Hg Hl). cbn [fst snd].
    destruct (run_workload_frame (ComputeRequest.workload req) (ComputeRequest.payload req)
                enclave kms iv) as (Hl' & Hn' & Hm').
    apply registered_put; [done|congruence|congruence|].
    destruct Hm as [bs Hbs]. exists bs. congruence.
  - destruct (get_or_create_registered registry (AttestationRequest.enclave_name attest_req)
                Hr) as (enclave & registry' & Hg & _ & _ & _ & _ & Hr' & _).
    unfold attest. by rewrite Hg.
  - destruct (get_or_create_registered registry (SealRequest.enclave_name seal_req) Hr)
      as (enclave & registry' & Hg & _ & Hl & Hn & Hm & Hr' & _).
    unfold seal. rewrite Hg.
    destruct (seal_enclave_frame enclave kms (SealRequest.identity seal_req)
                (PDict (SealRequest.data seal_req)) iv) as (Hl' & Hn' & Hm').
    assert (registered (put registry' (SealRequest.enclave_name seal_req)
                          (SimulatedEnclave.seal enclave kms (SealRequest.identity seal_req)
                             (PDict (SealRequest.data seal_req)) iv).1.2)) as Hput.
    { apply registered_put; [done|congruence|congruence|].
      destruct Hm as [bs Hbs]. exists bs. congruence. }
    destruct (SimulatedEnclave.seal _ _ _ _ _) as [[[token|err] e1] k1]; [done|].
    by destruct err.
  - intros detail.
    destruct (get_or_create_registered registry (ComputeRequest.enclave_name req) Hr)
      as (enclave & registry' & Hg & _ & Hl & _).
    rewrite (compute_registered _ _ _ _ _ _ Hg Hl). cbn [fst snd].
    pose proof (run_workload_status (ComputeRequest.workload req)
                  (ComputeRequest.payload req) enclave kms iv) as Hs.
    destruct (run_workload _ _ _ _ _).1.1 as [r|status d|err]; [done| |done].
    intros [= -> _]. by specialize (Hs 400 d eq_refl).
Qed.


(** X23. The attest route always responds, creating the enclave when the
    name is new: with the measurement and signer of the enclave registered
    under the name, a nonce of two hexadecimal digits per byte drawn, and
    the policy version of the request.  An enclave already held is reported
    as it is and the registry stays as it was; a new one is signed "lab",
    loaded, and measured as the bytes "init" followed by the name and the
    signer. *)
Theorem enclave_attest_route (registry : EnclaveRegistry.t) (req : AttestationRequest.t)
    (rnd : bytes) :
  let name := AttestationRequest.enclave_name req in
  exists enclave registry',
    EnclaveRegistry.get_or_create registry name = (Ok enclave, registry')
    /\ attest registry req rnd
       = (Respond
            {| AttestationResponse.mrenclave := SimulatedEnclave.mrenclave enclave;
               AttestationResponse.signer := SimulatedEnclave.signer enclave;
               AttestationResponse.nonce := hex rnd;
               AttestationResponse.policy_version :=
                 AttestationRequest.policy_version req |},
          registry')
    /\ String.length (hex rnd) = 2 * length rnd
    /\ (forall held,
          EnclaveRegistry._instances registry !! name = Some held ->
          enclave = held /\ registry' = registry)
    /\ (EnclaveRegistry._instances registry !! name = None ->
        SimulatedEnclave.mrenclave enclave
        = hex (sha256 (encode_utf8 "init" ++ encode_utf8 name ++ encode_utf8 "lab"))
        /\ SimulatedEnclave.signer enclave = "lab"
        /\ SimulatedEnclave.loaded enclave = true
        /\ registry' = put registry name enclave).
Proof.
  intros name. destruct (get_or_create_cases registry name) as [Hheld Hnew].
  destruct (EnclaveRegistry._instances registry !! name) as [held|] eqn:E.
  - exists held, registry. unfold attest. fold name. rewrite (Hheld held eq_refl).
    split_and!; [done|done|apply hex_length| |done].
    by intros ? [= <-].
  - exists (bootstrap name), (put registry name (bootstrap name)).
    unfold attest. fold name. rewrite (Hnew eq_refl).
    split_and!; [done|done|apply hex_length|done|].
    intros _. by rewrite bootstrap_eq.
Qed.

(** X24. The seal route creates the enclave when the name is new and seals
    the data in it.  For the empty identity it answers with the HTTP error
    400 "identity is required"; a request that meets the declared
    constraints never gets an HTTP error, so that handler is dead for
    validated requests.  For a non-empty identity and data of up to 2^37
    serialised bytes it responds with the token, which the registered
    enclave then holds under the identity and unseals to the data; for
    longer data the [OverflowError] of the block counter goes through
    uncaught. *)
Theorem enclave_seal_route (registry : EnclaveRegistry.t) (kms : KMSMock.t)
    (req : SealRequest.t) (iv : bytes) :
  let name := SealRequest.enclave_name req in
  let ident := SealRequest.identity req in
  let data := PDict (SealRequest.data req) in
  exists enclave registry',
    EnclaveRegistry.get_or_create registry name = (Ok enclave, registry')
    /\ (ident = "" ->
        seal registry kms req iv
        = (HTTPException 400 "identity is required", registry', kms))
    /\ (ident <> "" ->
        (2 ^ 37 < N.of_nat (length (dumps data)))%N ->
        (seal registry kms req iv).1
        = (Uncaught (OverflowError "int too big to convert"), registry'))
    /\ (ident <> "" ->
        (N.of_nat (length (dumps data)) <= 2 ^ 37)%N ->
        length iv = 16 ->
        exists token enclave' kms',
          seal registry kms req iv
          = (Respond {| SealResponse.token := token |}, put registry' name enclave', kms')
          /\ SimulatedEnclave.sealed_store enclave'
             = <[ident := token]> (SimulatedEnclave.sealed_store enclave)
          /\ SimulatedEnclave.mrenclave enclave' = SimulatedEnclave.mrenclave enclave
          /\ SimulatedEnclave.unseal enclave' kms' ident = (Ok data, kms'))
    /\ (SealRequest.declared req ->
        forall status detail,
          (seal registry kms req iv).1.1 <> HTTPException status detail).
Proof.
  intros name ident data.
  destruct (get_or_create_spec registry name)
    as (enclave & registry' & Hg & Hheld & _).
  exists enclave, registry'. split; [done|].
  pose proof (put_held registry' name enclave Hheld) as Hput.
  unfold seal. fold name ident data. rewrite Hg.
  destruct (SimulatedEnclave.seal (H1 := pyobj_json) enclave kms ident data iv)
    as [[[token|err] e1] kms1] eqn:Hs.
  - pose proof Hs as Hinv. apply seal_ok_inv in Hinv as (Hne & _ & Henc & _).
    split_and!.
    + intros Hempty. by rewrite Hempty in Hne.
    + intros _ Hlong.
      rewrite (encrypt_overflow _ _ _ Hlong) in Henc. discriminate.
    + intros _ _ Hiv. exists token, e1, kms1.
      destruct (seal_then_unseal _ _ _ _ _ _ _ _ Hiv Hs) as (Hstore & Hm & Hun).
      split_and!; [done|done|done|]. by apply Hun.
    + done.
  - apply seal_raise_inv in Hs as (-> & [(Hempty & -> & ->)|(Hne & -> & -> & Hlong)]).
    + rewrite Hput. split_and!.
      * done.
      * intros Hne. by destruct Hne.
      * intros Hne. by destruct Hne.
      * intros [_ Hident]. by destruct Hident.
    + rewrite Hput. split_and!.
      * intros Hempty. by destruct Hne.
      * done.
      * intros _ Hshort. cbn [json_dumps pyobj_json] in Hlong. lia.
      * done.
Qed.

Lemma forallb_isinstance_str (items : list pyobj) :
  forallb isinstance_str items = true <-> exists docs, items = PStr <$> docs.
Proof.
  split.
  - induction items as [|item items IH]; intros Hall; [by exists []|].
    cbn [forallb] in Hall. apply andb_prop in Hall as [Hitem Hitems].
    destruct (IH Hitems) as [docs ->].
    destruct item; try done. by eexists (_ :: docs).
  - intros [docs ->]. induction docs as [|doc docs IH]; [done|]. by cbn.
Qed.

Lemma map_text_strs (docs : list string) : map text (PStr <$> docs) = docs.
Proof. induction docs as [|doc docs IH]; [done|]. cbn. by rewrite IH. Qed.

(** X25. The keyword search through [compute], on a registry of loaded
    enclaves.  When the payload's documents (none, if the key is missing)
    are a list of texts and its keyword is a non-empty text, the route
    responds with the measurement of the registered enclave and the counts
    of the workload, and leaves the enclave and the KMS alone.  It answers
    422 when the documents are anything but a list of texts, and 422 when
    the keyword is missing, empty or no text. *)
Theorem compute_keyword_search (registry : EnclaveRegistry.t) (kms : KMSMock.t)
    (name : string) (payload : list (string * pyobj)) (iv : bytes) :
  let req := {| ComputeRequest.enclave_name := name;
                ComputeRequest.workload := Workload.keyword_search;
                ComputeRequest.payload := payload |} in
  let documents := dict_get payload "documents" (PList []) in
  let keyword := dict_get payload "keyword" (PStr "") in
  registered registry ->
  exists enclave registry',
    EnclaveRegistry.get_or_create registry name = (Ok enclave, registry')
    /\ (forall docs k,
          documents = PList (PStr <$> docs) ->
          keyword = PStr k ->
          k <> "" ->
          compute registry kms req iv
          = (Respond
               {| response_mrenclave := SimulatedEnclave.mrenclave enclave;
                  response_result :=
                    KeywordSearchResult (Workloads.encrypted_keyword_search docs k) |},
             registry', kms))
    /\ ((forall docs, documents <> PList (PStr <$> docs)) ->
        compute registry kms req iv
        = (HTTPException 422 "documents must be a list of strings", registry', kms))
    /\ (forall docs,
          documents = PList (PStr <$> docs) ->
          (forall k, keyword = PStr k -> k = "") ->
          compute registry kms req iv
          = (HTTPException 422 "keyword must be a non-empty string", registry', kms)).
Proof.
  intros req documents keyword Hr.
  destruct (get_or_create_registered registry name Hr)
    as (enclave & registry' & Hg & Hheld & Hl & _).
  exists enclave, registry'. split; [done|].
  pose proof (put_held registry' name enclave Hheld) as Hput.
  rewrite (compute_registered registry kms req iv enclave registry' Hg Hl).
  unfold EnclaveRoutes.run_workload, _validate_keyword_payload.
  cbn [ComputeRequest.workload ComputeRequest.payload ComputeRequest.enclave_name req].
  fold documents keyword. split_and!.
  - intros docs k Hdocs Hk Hne. rewrite Hdocs, Hk.
    cbn [isinstance_list isinstance_str elements negb orb].
    rewrite (proj2 (forallb_isinstance_str (PStr <$> docs))) by by exists docs.
    destruct k as [|c k]; [done|].
    cbn [negb orb empty_str fst snd EnclaveRoutes.documents EnclaveRoutes.keyword
      elements text].
    by rewrite map_text_strs, Hput.
  - intros Hdocs.
    assert (negb (isinstance_list documents)
            || negb (forallb isinstance_str (elements documents)) = true) as ->.
    { destruct documents as [| | | | |items|] eqn:E; try done.
      cbn [isinstance_list elements negb orb].
      destruct (forallb isinstance_str items) eqn:Hall; [|done].
      apply forallb_isinstance_str in Hall as [docs ->]. by destruct (Hdocs docs). }
    cbn [fst snd]. by rewrite Hput.
  - intros docs Hdocs Hk. rewrite Hdocs.
    cbn [isinstance_list elements negb orb].
    rewrite (proj2 (forallb_isinstance_str (PStr <$> docs))) by by exists docs.
    assert (negb (isinstance_str keyword) || empty_str keyword = true) as ->.
    { destruct keyword as [| | | |k| |] eqn:E; try done.
      by rewrite (Hk k eq_refl). }
    cbn [negb fst snd]. by rewrite Hput.
Qed.

Lemma has_surrogate_hex (bs : bytes) : has_surrogate (hex bs) = false.
Proof.
  induction bs as [|b bs IH]; [done|].
  cbn [hex has_surrogate]. rewrite IH.
  assert (forall n s, (n < 16)%N -> surrogate_at (hex_digit n) s = false) as Hdigit.
  { intros n s Hn. unfold surrogate_at. rewrite bool_decide_eq_false_2; [done|].
    intros Heq. apply (f_equal N_of_ascii) in Heq. revert Heq. unfold hex_digit.
    case_match; rewrite N_ascii_embedding by lia; vm_compute (N_of_ascii _); lia. }
  rewrite !Hdigit; [done|apply N.mod_lt; lia|].
  apply N.Div0.div_lt_upper_bound. pose proof (Byte.to_N_bounded b). lia.
Qed.

(** A key that is cached is derived without encoding anything. *)
Lemma derive_key_raises_cached (kms : KMSMock.t) (ident context : string) :
  is_Some (KMSMock._cache kms !! (ident ++ ":" ++ context)%string) ->
  derive_key_raises kms ident context = false.
Proof.
  intros [key Hkey]. unfold derive_key_raises.
  by rewrite bool_decide_eq_false_2 by congruence.
Qed.

(** X26. The sealed-secret workload through [compute], on a registry of
    loaded enclaves.  For a payload whose secret and identity are non-empty
    texts (a secret that serialises to at most 2^37 bytes, and an identity
    that either encodes as UTF-8 or has its key cached) the route responds
    with the token and the secret recovered from it; the registered enclave
    then holds the token under the identity and unseals it to the
    dictionary with the secret.  For an identity with a lone surrogate and
    no cached key the encoding error of [derive_key] leaves the route
    uncaught, with nothing changed.  The route answers 422 when secret or
    identity is missing or no text, and 422 when either is empty. *)
Theorem compute_sealed_secret (registry : EnclaveRegistry.t) (kms : KMSMock.t)
    (name : string) (payload : list (string * pyobj)) (iv : bytes) :
  let req := {| ComputeRequest.enclave_name := name;
                ComputeRequest.workload := Workload.sealed_secret;
                ComputeRequest.payload := payload |} in
  let secret := dict_get payload "secret" PNone in
  let identity := dict_get payload "identity" PNone in
  registered registry ->
  exists enclave registry',
    EnclaveRegistry.get_or_create registry name = (Ok enclave, registry')
    /\ (forall s i,
          secret = PStr s ->
          identity = PStr i ->
          s <> "" ->
          i <> "" ->
          (has_surrogate i = true ->
           is_Some (KMSMock._cache kms
                      !! (i ++ ":" ++ SimulatedEnclave.mrenclave enclave)%string)) ->
          length iv = 16 ->
          (N.of_nat (length (dumps (PDict [("secret", PStr s)]))) <= 2 ^ 37)%N ->
          exists token enclave' kms',
            compute registry kms req iv
            = (Respond
                 {| response_mrenclave := SimulatedEnclave.mrenclave enclave;
                    response_result :=
                      SealedSecretResult
                        {| Workloads.token := token; Workloads.recovered := PStr s |} |},
               put registry' name enclave', kms')
            /\ SimulatedEnclave.sealed_store enclave'
               = <[i := token]> (SimulatedEnclave.sealed_store enclave)
            /\ SimulatedEnclave.unseal enclave' kms' i
               = (Ok (PDict [("secret", PStr s)]), kms'))
    /\ (forall s i,
          secret = PStr s ->
          identity = PStr i ->
          s <> "" ->
          i <> "" ->
          has_surrogate i = true ->
          KMSMock._cache kms !! (i ++ ":" ++ SimulatedEnclave.mrenclave enclave)%string
          = None ->
          compute registry kms req iv = (Uncaught UnicodeEncodeError, registry', kms))
    /\ (isinstance_str secret = false \/ isinstance_str identity = false ->
        compute registry kms req iv
        = (HTTPException 422 "secret and identity must be strings", registry', kms))
    /\ (forall s i,
          secret = PStr s ->
          identity = PStr i ->
          s = "" \/ i = "" ->
          compute registry kms req iv
          = (HTTPException 422 "secret and identity cannot be empty", registry', kms)).
Proof.
  intros req secret identity Hr.
  destruct (get_or_create_registered registry name Hr)
    as (enclave & registry' & Hg & Hheld & Hl & _ & [digest Hdigest] & _).
  exists enclave, registry'. split; [done|].
  pose proof (put_held registry' name enclave Hheld) as Hput.
  rewrite (compute_registered registry kms req iv enclave registry' Hg Hl).
  unfold EnclaveRoutes.run_workload, _validate_sealed_payload.
  cbn [ComputeRequest.workload ComputeRequest.payload ComputeRequest.enclave_name req].
  fold secret identity. split_and!.
  - intros s i Hs Hi Hsne Hine Hkey Hiv Hlen. rewrite Hs, Hi.
    destruct s as [|c s]; [done|]. destruct i as [|c' i]; [done|].
    cbn [isinstance_str negb orb empty_str EnclaveRoutes.secret EnclaveRoutes.identity text].
    unfold Workloads.sealed_secret_manager, seal_fn, unseal_fn. cbn [fst snd].
    assert (derive_key_raises kms (String c' i) (SimulatedEnclave.mrenclave enclave)
            = false) as ->.
    { destruct (has_surrogate (String c' i)) eqn:Hsur.
      - by apply derive_key_raises_cached, Hkey.
      - unfold derive_key_raises. rewrite Hsur, Hdigest, has_surrogate_hex.
        apply andb_false_r. }
    rewrite andb_false_r.
    destruct (seal_returns (H1 := pyobj_json) enclave kms (String c' i)
                (PDict [("secret", PStr (String c s))]) iv Hine Hlen)
      as (token & e1 & kms1 & Hseal).
    rewrite Hseal. cbn [fst snd].
    destruct (seal_then_unseal (H1 := pyobj_json) _ _ _ _ _ _ _ _ Hiv Hseal)
      as (Hstore & Hm & Hun).
    assert (derive_key_raises kms1 (String c' i) (SimulatedEnclave.mrenclave e1)
            = false) as ->.
    { apply derive_key_raises_cached. rewrite Hm.
      apply seal_ok_inv in Hseal as (_ & -> & _). eexists. apply derive_key_cached. }
    rewrite andb_false_r.
    rewrite (Hun kms1) by done. cbn [getitem dict_lookup fst snd].
    rewrite decide_True by done. cbn [fst snd].
    exists token, e1, kms1. rewrite Hm. split_and!; [done|done|by apply Hun].
  - intros s i Hs Hi Hsne Hine Hsur Hmiss. rewrite Hs, Hi.
    destruct s as [|c s]; [done|]. destruct i as [|c' i]; [done|].
    cbn [isinstance_str negb orb empty_str EnclaveRoutes.secret EnclaveRoutes.identity text].
    unfold Workloads.sealed_secret_manager, seal_fn. cbn [fst snd].
    unfold derive_key_raises. rewrite Hmiss, Hsur, orb_true_r.
    rewrite bool_decide_eq_false_2 by done.
    rewrite bool_decide_eq_true_2 by done.
    cbn [negb andb fst snd]. by rewrite Hput.
  - intros Hor.
    assert (negb (isinstance_str secret) || negb (isinstance_str identity) = true) as ->.
    { destruct Hor as [-> | ->]; [done|]. apply orb_true_r. }
    cbn [fst snd]. by rewrite Hput.
  - intros s i Hs Hi Hor. rewrite Hs, Hi.
    cbn [isinstance_str negb orb].
    assert (empty_str (PStr s) || empty_str (PStr i) = true) as ->.
    { destruct Hor as [-> | ->]; [done|]. apply orb_true_r. }
    cbn [fst snd]. by rewrite Hput.
Qed.

Lemma as_int_of_int (x : Workloads.pyint) : as_int (of_int x) = x.
Proof. by destruct x. Qed.

Lemma isinstance_int_of_int (obj : pyobj) :
  isinstance_int obj = true <-> exists x, obj = of_int x.
Proof.
  split.
  - destruct obj; try done; intros _.
    + by exists (Workloads.Bool b).
    + by exists (Workloads.Int n).
  - intros [[n|b] ->]; done.
Qed.

(** X27. The counter workload through [compute], on a registry of loaded
    enclaves.  With the payload's initial value (0 if missing) and
    increments (1 if missing) both integers, booleans included, the
    increments not negative, and both the sum of the two and the increments
    of at most 4300 digits, the route responds with the workload's result:
    the counter stands for the sum of the two.  When the sum or the
    increments have more digits, the [ValueError] of the conversion to text
    leaves the route uncaught.  The route answers 422 for negative
    increments and 422 when either value is no integer. *)
Theorem compute_counter (registry : EnclaveRegistry.t) (kms : KMSMock.t)
    (name : string) (payload : list (string * pyobj)) (iv : bytes) :
  let req := {| ComputeRequest.enclave_name := name;
                ComputeRequest.workload := Workload.counter;
                ComputeRequest.payload := payload |} in
  let initial := dict_get payload "initial" (PInt 0) in
  let increments := dict_get payload "increments" (PInt 1) in
  registered registry ->
  exists enclave registry',
    EnclaveRegistry.get_or_create registry name = (Ok enclave, registry')
    /\ (forall x n,
          initial = of_int x ->
          increments = of_int n ->
          (0 <= Workloads.int_value n < 10 ^ 4300)%Z ->
          (Z.abs (Workloads.int_value x + Workloads.int_value n) < 10 ^ 4300)%Z ->
          exists result,
            Workloads.integrity_protected_counter x n = Ok result
            /\ compute registry kms req iv
               = (Respond
                    {| response_mrenclave := SimulatedEnclave.mrenclave enclave;
                       response_result := CounterResult result |},
                  registry', kms)
            /\ Workloads.int_value (Workloads.counter result)
               = (Workloads.int_value x + Workloads.int_value n)%Z)
    /\ (forall x n,
          initial = of_int x ->
          increments = of_int n ->
          (0 <= Workloads.int_value n)%Z ->
          (10 ^ 4300 <= Workloads.int_value n)%Z
          \/ (10 ^ 4300 <= Z.abs (Workloads.int_value x + Workloads.int_value n))%Z ->
          compute registry kms req iv = (Uncaught DigitLimitError, registry', kms))
    /\ (forall x n,
          initial = of_int x ->
          increments = of_int n ->
          (Workloads.int_value n < 0)%Z ->
          compute registry kms req iv
          = (HTTPException 422 "increments must be non-negative", registry', kms))
    /\ (isinstance_int initial = false \/ isinstance_int increments = false ->
        compute registry kms req iv
        = (HTTPException 422 "initial and increments must be integers", registry', kms)).
Proof.
  change (10 ^ 4300)%Z with Workloads.digit_limit.
  intros req initial increments Hr.
  destruct (get_or_create_registered registry name Hr)
    as (enclave & registry' & Hg & Hheld & Hl & _).
  exists enclave, registry'. split; [done|].
  pose proof (put_held registry' name enclave Hheld) as Hput.
  rewrite (compute_registered registry kms req iv enclave registry' Hg Hl).
  unfold EnclaveRoutes.run_workload, _validate_counter_payload.
  cbn [ComputeRequest.workload ComputeRequest.payload ComputeRequest.enclave_name req].
  fold initial increments. split_and!.
  - intros x n Hx Hn Hpos Hsum. rewrite Hx, Hn.
    rewrite (proj2 (isinstance_int_of_int (of_int x))) by by exists x.
    rewrite (proj2 (isinstance_int_of_int (of_int n))) by by exists n.
    cbn [negb orb]. rewrite !as_int_of_int.
    rewrite decide_False by lia.
    cbn [fst snd EnclaveRoutes.initial EnclaveRoutes.increments].
    rewrite !as_int_of_int.
    pose proof (counted_value x n) as Hvalue.
    destruct (integrity_protected_counter_within x n) as (v & t & _ & _ & Hresult);
      [lia|lia|].
    rewrite Hresult. eexists. split; [done|]. cbn [fst snd Workloads.counter].
    rewrite Hput. split; [done|]. lia.
  - intros x n Hx Hn Hpos Hor. rewrite Hx, Hn.
    rewrite (proj2 (isinstance_int_of_int (of_int x))) by by exists x.
    rewrite (proj2 (isinstance_int_of_int (of_int n))) by by exists n.
    cbn [negb orb]. rewrite !as_int_of_int.
    rewrite decide_False by lia.
    cbn [fst snd EnclaveRoutes.initial EnclaveRoutes.increments].
    rewrite !as_int_of_int.
    pose proof (counted_value x n) as Hvalue.
    rewrite integrity_protected_counter_beyond by lia.
    cbn [fst snd]. by rewrite Hput.
  - intros x n Hx Hn Hneg. rewrite Hx, Hn.
    rewrite (proj2 (isinstance_int_of_int (of_int x))) by by exists x.
    rewrite (proj2 (isinstance_int_of_int (of_int n))) by by exists n.
    cbn [negb orb]. rewrite !as_int_of_int.
    rewrite decide_True by done. cbn [fst snd]. by rewrite Hput.
  - intros Hor.
    assert (negb (isinstance_int initial) || negb (isinstance_int increments) = true) as ->.
    { destruct Hor as [-> | ->]; [done|]. apply orb_true_r. }
    cbn [fst snd]. by rewrite Hput.
Qed.

End EnclaveRoutesProperties.

(** * Further runs

    The further properties that have a precondition, applied to concrete
    inputs over the small library instance. *)

Section FurtherRuns.
Import Toy ToyObjects.

(** X2, witness: forty bytes of keystream begin with the five bytes of a
    keystream of length five. *)
Lemma keystream_prefix_witness :
  let key := encode_utf8 "key" in
  exists ks,
    KMSMock._expand_keystream key iv 40 = Ok ks
    /\ KMSMock._expand_keystream key iv 5 = Ok (take 5 ks).
Proof.
  intros key.
  pose (ks := match KMSMock._expand_keystream key iv 40 with
              | Ok ks => ks
              | Raise _ => []
              end).
  assert (KMSMock._expand_keystream key iv 40 = Ok ks) as Hks
    by (vm_compute; reflexivity).
  exists ks. split; [exact Hks|].
  apply (keystream_prefix key iv 40 5 ks Hks). lia.
Defined.

(** X3, witness: the token of [b"payload"] decodes to 16 + 7 + 32 bytes. *)
Lemma encrypt_token_layout_witness :
  let key := encode_utf8 "key" in
  let plaintext := encode_utf8 "payload" in
  exists token ciphertext data,
    KMSMock.encrypt key plaintext iv = Ok token
    /\ urlsafe_b64decode token = Some data
    /\ data = iv ++ ciphertext ++ hmac_sha256 key (iv ++ ciphertext)
    /\ length data = 55.
Proof.
  intros key plaintext.
  pose (token := match KMSMock.encrypt key plaintext iv with
                 | Ok token => token
                 | Raise _ => ""
                 end).
  assert (KMSMock.encrypt key plaintext iv = Ok token) as Htoken
    by (vm_compute; reflexivity).
  destruct (encrypt_token_layout key plaintext iv token Htoken)
    as (ciphertext & data & Hdecode & Hdata & _ & Hlen).
  exists token, ciphertext, data. split_and!; [exact Htoken|exact Hdecode|exact Hdata|].
  rewrite Hlen. reflexivity.
Defined.

(** X4, witness: an iv, no ciphertext, and thirty-two zero bytes for a
    tag. *)
Lemma decrypt_rejects_altered_tag_witness :
  let key := encode_utf8 "key" in
  KMSMock.decrypt key (urlsafe_b64encode (iv ++ [] ++ repeat "000"%byte 32))
  = Raise IntegrityError.
Proof.
  intros key.
  apply (decrypt_rejects_altered_tag key iv [] (repeat "000"%byte 32)).
  - reflexivity.
  - reflexivity.
  - vm_compute. discriminate.
Defined.

(** X5, witness: two plaintexts under one key and one iv. *)
Lemma iv_reuse_leaks_xor_witness :
  let key := encode_utf8 "key" in
  let p1 := encode_utf8 "attack" in
  let p2 := encode_utf8 "defend" in
  let t1 := match KMSMock.encrypt key p1 iv with Ok t => t | Raise _ => "" end in
  let t2 := match KMSMock.encrypt key p2 iv with Ok t => t | Raise _ => "" end in
  exists c1 c2,
    urlsafe_b64decode t1 = Some (iv ++ c1 ++ hmac_sha256 key (iv ++ c1))
    /\ urlsafe_b64decode t2 = Some (iv ++ c2 ++ hmac_sha256 key (iv ++ c2))
    /\ xor_bytes c1 c2 = xor_bytes p1 p2.
Proof.
  intros key p1 p2 t1 t2.
  apply (iv_reuse_leaks_xor key iv p1 p2 t1 t2).
  - vm_compute. reflexivity.
  - vm_compute. reflexivity.
Defined.

(** X7, witness: an enclave that holds a token for "alice" is asked to
    seal for the empty identity; the token is still there. *)
Lemma seal_failure_changes_nothing_witness :
  let e0 := (SimulatedEnclave.load (SimulatedEnclave.__init__ "demo" "lab")
               [encode_utf8 "init"]).2 in
  let sealed := SimulatedEnclave.seal e0 kms "alice" "{}" iv in
  let failed := SimulatedEnclave.seal sealed.1.2 sealed.2 "" "{}" iv in
  is_ok sealed.1.1 = true
  /\ failed.1.1 = Raise (ValueError "identity is required")
  /\ failed.1.2 = sealed.1.2
  /\ is_Some (SimulatedEnclave.sealed_store failed.1.2 !! "alice")
  /\ failed.2 = sealed.2.
Proof.
  intros e0 sealed failed.
  assert (SimulatedEnclave.seal sealed.1.2 sealed.2 "" "{}" iv
          = (failed.1.1, failed.1.2, failed.2)) as Hseal by reflexivity.
  destruct (seal_failure_changes_nothing (H1 := json_text) sealed.1.2 sealed.2 "" "{}" iv
              (ValueError "identity is required") failed.1.2 failed.2 Hseal)
    as (He & _ & _ & Hempty & _).
  destruct (Hempty eq_refl) as [_ Hkms].
  split_and!.
  - vm_compute. reflexivity.
  - reflexivity.
  - exact He.
  - rewrite He. vm_compute. eexists. reflexivity.
  - exact Hkms.
Defined.

(** X8, witness: sealing for "alice" and then for "bob". *)
Lemma seal_keeps_other_identities_witness :
  let e := (SimulatedEnclave.load (SimulatedEnclave.__init__ "demo" "lab")
              [encode_utf8 "init"]).2 in
  let first := SimulatedEnclave.seal e kms "alice" "{}" iv in
  let second := SimulatedEnclave.seal first.1.2 first.2 "bob" "[]" iv in
  SimulatedEnclave.unseal second.1.2 second.2 "alice" = (Ok "{}", second.2).
Proof.
  intros e first second.
  pose (t1 := match first.1.1 with Ok t => t | Raise _ => "" end).
  pose (t2 := match second.1.1 with Ok t => t | Raise _ => "" end).
  refine (proj2 (seal_keeps_other_identities (H1 := json_text) e kms "alice" "bob"
                   "{}" "[]" iv iv
                   t1 t2 first.1.2 second.1.2 first.2 second.2 _ _ _ _)).
  - reflexivity.
  - discriminate.
  - vm_compute. reflexivity.
  - vm_compute. reflexivity.
Defined.


(** X11, witness: page 2 is written, then page 1; page 2 reads as
    before. *)
Lemma write_keeps_other_pages_witness :
  let memory := {| EncryptedMemory.vm_id := "vm"; EncryptedMemory.pages := ∅ |} in
  let first := EncryptedMemory.write memory kms 2 (encode_utf8 "two") iv in
  let second := EncryptedMemory.write first.1.2 first.2 1 (encode_utf8 "one") iv in
  (EncryptedMemory.read second.1.2 second.2 2).1
  = (EncryptedMemory.read first.1.2 first.2 2).1.
Proof.
  intros memory first second.
  pose (page := match second.1.1 with
                | Ok page => page
                | Raise _ => EncryptedPage.mk 0 "" ""
                end).
  refine (proj2 (write_keeps_other_pages first.1.2 first.2 1 2 (encode_utf8 "one") iv
                   page second.1.2 second.2 _ _)).
  - discriminate.
  - vm_compute. reflexivity.
Defined.

(** X12, witness: the digest of a written page is replaced by the empty
    text. *)
Lemma read_rejects_altered_page_witness :
  let memory := {| EncryptedMemory.vm_id := "vm"; EncryptedMemory.pages := ∅ |} in
  let written := EncryptedMemory.write memory kms 1 (encode_utf8 "demo") iv in
  let page := match written.1.1 with
              | Ok page => page
              | Raise _ => EncryptedPage.mk 0 "" ""
              end in
  EncryptedMemory.read
    (with_page written.1.2 1
       {| EncryptedPage.page_id := 1;
          EncryptedPage.ciphertext := EncryptedPage.ciphertext page;
          EncryptedPage.mac := "" |})
    written.2 1
  = (Raise PageIntegrityError, written.2).
Proof.
  intros memory written page.
  refine (proj1 (read_rejects_altered_page memory kms 1 (encode_utf8 "demo") iv
                   page written.1.2 written.2 _ _) "" _).
  - reflexivity.
  - vm_compute. reflexivity.
  - vm_compute. discriminate.
Defined.

(** X13, witness: a manager with one new VM; the page written is covered
    by what [attest] reports. *)
Lemma manager_measurement_fresh_witness :
  let empty := {| SevLaunchManager.vms := ∅ |} in
  let created := SevLaunchManager.create_vm empty "researcher" (encode_utf8 "sixbyt") in
  let vm_id := SimulatedVM.vm_id created.1 in
  fresh (SevLaunchManager.encrypt_page created.2 kms vm_id 0 (encode_utf8 "demo") iv).1.2
  /\ (SevLaunchManager.attest created.2 vm_id iv).1
     = Ok {| SimulatedVM.report_vm_id := vm_id;
             SimulatedVM.report_nonce := hex iv;
             SimulatedVM.report_measurement := Some (SimulatedVM.measure created.1).1 |}.
Proof.
  intros empty created vm_id.
  destruct (manager_measurement_fresh created.2 kms vm_id "researcher" 0
              (encode_utf8 "demo") iv iv) as (_ & Hwritten & _ & _ & Hattest).
  - apply fresh_store; [apply fresh_empty|]. left. reflexivity.
  - split; [exact Hwritten|]. apply (Hattest created.1). reflexivity.
Defined.

(** X14, witness: a manager with two VMs; work on the first leaves the
    second as it was. *)
Lemma manager_keeps_other_vms_witness :
  let empty := {| SevLaunchManager.vms := ∅ |} in
  let one := SevLaunchManager.create_vm empty "alice" (encode_utf8 "sixbyt") in
  let two := SevLaunchManager.create_vm one.2 "bob" (encode_utf8 "second") in
  let id1 := SimulatedVM.vm_id one.1 in
  let id2 := SimulatedVM.vm_id two.1 in
  SevLaunchManager.vms
    (SevLaunchManager.encrypt_page two.2 kms id1 0 (encode_utf8 "demo") iv).1.2 !! id2
  = Some two.1
  /\ SevLaunchManager.vms (SevLaunchManager.launch_vcpu two.2 id1).2 !! id2 = Some two.1.
Proof.
  intros empty one two id1 id2.
  destruct (manager_keeps_other_vms two.2 kms id1 id2 "carol" 0 (encode_utf8 "demo") iv iv)
    as (Hencrypt & Hlaunch & _).
  - apply consistent_create_vm, consistent_create_vm, consistent_empty.
  - vm_compute. discriminate.
  - split.
    + rewrite Hencrypt. reflexivity.
    + rewrite Hlaunch. reflexivity.
Defined.

(** X15, witness: a page encrypted for a new VM reads back from the VM the
    manager holds. *)
Lemma encrypt_page_then_attest_and_read_witness :
  let empty := {| SevLaunchManager.vms := ∅ |} in
  let created := SevLaunchManager.create_vm empty "researcher" (encode_utf8 "sixbyt") in
  let vm_id := SimulatedVM.vm_id created.1 in
  let written :=
    SevLaunchManager.encrypt_page created.2 kms vm_id 0 (encode_utf8 "demo") iv in
  exists vm',
    SevLaunchManager.vms written.1.2 !! vm_id = Some vm'
    /\ EncryptedMemory.read (SimulatedVM.memory vm') written.2 0
       = (Ok (encode_utf8 "demo"), written.2).
Proof.
  intros empty created vm_id written.
  pose (r := match written.1.1 with
             | Ok r => r
             | Raise _ => SevLaunchManager.mk_encrypt_page_result "" 0 "" ""
             end).
  destruct (encrypt_page_then_attest_and_read created.2 kms vm_id 0 (encode_utf8 "demo")
              iv iv r written.1.2 written.2)
    as (vm' & page & Hvm & _ & _ & _ & _ & _ & Hread & _).
  - reflexivity.
  - vm_compute. reflexivity.
  - exists vm'. split; [exact Hvm|exact Hread].
Defined.

(** X22, witness: the registry the module starts with. *)
Lemma compute_never_uninitialized_witness :
  let req := {| ComputeRequest.enclave_name := "demo";
                ComputeRequest.workload := Workload.counter;
                ComputeRequest.payload := [] |} in
  (EnclaveRoutes.compute unit (fun _ => Ok ()) EnclaveRegistry.__init__ kms req iv).1.1
  <> HTTPException 400 "Enclave not initialized".
Proof.
  intros req.
  refine (proj2 (proj2 (proj2
            (compute_never_uninitialized unit (fun _ => Ok ()) EnclaveRegistry.__init__ kms
               req (AttestationRequest.mk "demo" "v1") (SealRequest.mk "demo" "alice" [])
               iv iv _))) "Enclave not initialized").
  apply registered_empty.
Defined.

(** X25, witness: two documents and a keyword in capitals. *)
Lemma compute_keyword_search_witness :
  let docs := ["alpha beta"; "Beta beta"] in
  let payload := [("documents", PList (PStr <$> docs)); ("keyword", PStr "BETA")] in
  let req := {| ComputeRequest.enclave_name := "demo";
                ComputeRequest.workload := Workload.keyword_search;
                ComputeRequest.payload := payload |} in
  exists enclave registry',
    EnclaveRoutes.compute unit (fun _ => Ok ()) EnclaveRegistry.__init__ kms req iv
    = (Respond
         {| EnclaveRoutes.response_mrenclave := SimulatedEnclave.mrenclave enclave;
            EnclaveRoutes.response_result :=
              EnclaveRoutes.KeywordSearchResult
                (Workloads.encrypted_keyword_search docs "BETA") |},
       registry', kms)
    /\ Workloads.encrypted_keyword_search docs "BETA" !! "0" = Some 1
    /\ Workloads.encrypted_keyword_search docs "BETA" !! "1" = Some 2.
Proof.
  intros docs payload req.
  destruct (compute_keyword_search unit (fun _ => Ok ()) EnclaveRegistry.__init__ kms
              "demo" payload iv registered_empty)
    as (enclave & registry' & _ & Hcounts & _).
  exists enclave, registry'. split_and!.
  - apply (Hcounts docs "BETA"); [reflexivity|reflexivity|discriminate].
  - vm_compute. reflexivity.
  - vm_compute. reflexivity.
Defined.

(** X26, witness: a secret sealed for "alice" comes back; an identity
    that is the lone surrogate U+D800 leaves the route uncaught. *)
Lemma compute_sealed_secret_witness :
  let payload := [("secret", PStr "s3cret"); ("identity", PStr "alice")] in
  let req := {| ComputeRequest.enclave_name := "demo";
                ComputeRequest.workload := Workload.sealed_secret;
                ComputeRequest.payload := payload |} in
  let lone := String "237" (String "160" (String "128" EmptyString)) in
  let payload' := [("secret", PStr "s3cret"); ("identity", PStr lone)] in
  let req' := {| ComputeRequest.enclave_name := "demo";
                 ComputeRequest.workload := Workload.sealed_secret;
                 ComputeRequest.payload := payload' |} in
  (exists enclave token registry' kms',
     EnclaveRoutes.compute unit (fun _ => Ok ()) EnclaveRegistry.__init__ kms req iv
     = (Respond
          {| EnclaveRoutes.response_mrenclave := SimulatedEnclave.mrenclave enclave;
             EnclaveRoutes.response_result :=
               EnclaveRoutes.SealedSecretResult
                 {| Workloads.token := token; Workloads.recovered := PStr "s3cret" |} |},
        registry', kms'))
  /\ (exists registry',
        EnclaveRoutes.compute unit (fun _ => Ok ()) EnclaveRegistry.__init__ kms req' iv
        = (Uncaught UnicodeEncodeError, registry', kms)).
Proof.
  intros payload req lone payload' req'. split.
  - destruct (compute_sealed_secret unit (fun _ => Ok ()) EnclaveRegistry.__init__ kms
                "demo" payload iv registered_empty)
      as (enclave & registry' & _ & Hsealed & _).
    destruct (Hsealed "s3cret" "alice") as (token & enclave' & kms' & Hcompute & _).
    + reflexivity.
    + reflexivity.
    + discriminate.
    + discriminate.
    + intros Hsur. vm_compute in Hsur. discriminate Hsur.
    + reflexivity.
    + vm_compute. discriminate.
    + exists enclave, token, (EnclaveRoutes.put registry' "demo" enclave'), kms'.
      exact Hcompute.
  - destruct (compute_sealed_secret unit (fun _ => Ok ()) EnclaveRegistry.__init__ kms
                "demo" payload' iv registered_empty)
      as (enclave & registry' & _ & _ & Hlone & _).
    exists registry'. apply (Hlone "s3cret" lone).
    + reflexivity.
    + reflexivity.
    + discriminate.
    + discriminate.
    + reflexivity.
    + apply lookup_empty.
Defined.

(** X27, witness: the initial value [true] and no increment give the
    boolean back, tagged as the text "True:0"; one increment of the largest
    integer of 4300 digits leaves the route uncaught. *)
Lemma compute_counter_witness :
  let payload := [("initial", PBool true); ("increments", PInt 0)] in
  let req := {| ComputeRequest.enclave_name := "demo";
                ComputeRequest.workload := Workload.counter;
                ComputeRequest.payload := payload |} in
  let payload' := [("initial", PInt (10 ^ 4300 - 1)); ("increments", PInt 1)] in
  let req' := {| ComputeRequest.enclave_name := "demo";
                 ComputeRequest.workload := Workload.counter;
                 ComputeRequest.payload := payload' |} in
  (exists enclave registry',
     EnclaveRoutes.compute unit (fun _ => Ok ()) EnclaveRegistry.__init__ kms req iv
     = (Respond
          {| EnclaveRoutes.response_mrenclave := SimulatedEnclave.mrenclave enclave;
             EnclaveRoutes.response_result :=
               EnclaveRoutes.CounterResult
                 {| Workloads.counter := Workloads.Bool true;
                    Workloads.mac := hex (sha256 (encode_utf8 "True:0")) |} |},
        registry', kms))
  /\ (exists registry',
        EnclaveRoutes.compute unit (fun _ => Ok ()) EnclaveRegistry.__init__ kms req' iv
        = (Uncaught DigitLimitError, registry', kms)).
Proof.
  intros payload req payload' req'. split.
  - destruct (compute_counter unit (fun _ => Ok ()) EnclaveRegistry.__init__ kms
                "demo" payload iv registered_empty)
      as (enclave & registry' & _ & Hcounter & _).
    destruct (Hcounter (Workloads.Bool true) (Workloads.Int 0))
      as (result & Hresult & Hcompute & _).
    + reflexivity.
    + reflexivity.
    + split; [discriminate|reflexivity].
    + reflexivity.
    + exists enclave, registry'.
      assert (Workloads.integrity_protected_counter (Workloads.Bool true) (Workloads.Int 0)
              = Ok {| Workloads.counter := Workloads.Bool true;
                      Workloads.mac := hex (sha256 (encode_utf8 "True:0")) |}) as Hrun
        by (vm_compute; reflexivity).
      rewrite Hrun in Hresult. injection Hresult as <-. exact Hcompute.
  - destruct (compute_counter unit (fun _ => Ok ()) EnclaveRegistry.__init__ kms
                "demo" payload' iv registered_empty)
      as (enclave & registry' & _ & _ & Hlimit & _).
    exists registry'.
    apply (Hlimit (Workloads.Int (10 ^ 4300 - 1)) (Workloads.Int 1)).
    + reflexivity.
    + reflexivity.
    + discriminate.
    + right. vm_compute. discriminate.
Defined.

End FurtherRuns.
